(** * catalogue-processor: heuristic XML metadata extraction and manifest update

    A shallow embedding of [src/xml_processor.py] and
    [src/manifest_handler.py].  Python strings are modelled as [string]
    (byte strings, so [lower] is the ASCII lower-casing), [None] as the
    [None] of [option], dictionaries whose iteration order the code relies
    on as association lists in insertion order, the filename index (whose
    order is never observed) as a [gmap], and exceptions as the [Raise]
    branch of a result type. *)

From Stdlib Require Import Ascii String.
From stdpp Require Import base option list gmap strings.

Local Open Scope string_scope.
Local Open Scope list_scope.

(** ** Exceptions and results *)

Inductive exn : Type :=
| TypeError
| KeyError
| IndexError
| AttributeError
| ValueError
| StopIteration
| OSError
| ParseError
| ReError.

Inductive res (A : Type) : Type :=
| Ok (a : A)
| Raise (e : exn).
Arguments Ok {A} a.
Arguments Raise {A} e.

#[global] Instance res_ret : MRet res := @Ok.
#[global] Instance res_bind : MBind res := λ A B k r,
  match r with
  | Ok a => k a
  | Raise e => Raise e
  end.

(** ** Python string operations *)

Module Py.

(** [needle in hay] on strings. *)
Fixpoint contains (needle hay : string) : bool :=
  String.prefix needle hay ||
  match hay with
  | EmptyString => false
  | String _ rest => contains needle rest
  end.

(** [s.startswith(p)]. *)
Definition startswith (p s : string) : bool := String.prefix p s.

Definition lower_ascii (c : ascii) : ascii :=
  let n := nat_of_ascii c in
  if (65 <=? n)%nat && (n <=? 90)%nat then ascii_of_nat (n + 32) else c.

(** [s.lower()]. *)
Fixpoint lower (s : string) : string :=
  match s with
  | EmptyString => EmptyString
  | String c rest => String (lower_ascii c) (lower rest)
  end.

(** [s[i:-1]] for a non-negative [i]. *)
Definition slice_to_last (i : nat) (s : string) : string :=
  String.substring i (String.length s - 1 - i) s.

(** [any(name in s for name in names)]. *)
Definition any_in (names : list string) (s : string) : bool :=
  existsb (λ name, contains name s) names.

(** [s.split(sep)] for a one-character separator. *)
Fixpoint split (sep : ascii) (s : string) : list string :=
  match s with
  | EmptyString => [EmptyString]
  | String c rest =>
      if Ascii.eqb c sep then EmptyString :: split sep rest
      else match split sep rest with
           | h :: t => String c h :: t
           | [] => [String c EmptyString]
           end
  end.

(** [s.rfind('.')] as the number of characters before the last dot. *)
Fixpoint rfind_dot (s : string) : option nat :=
  match s with
  | EmptyString => None
  | String c rest =>
      match rfind_dot rest with
      | Some i => Some (S i)
      | None => if Ascii.eqb c "." then Some 0%nat else None
      end
  end.

(** Truth value of an optional string: [None] and [""] are falsy. *)
Definition truthy (o : option string) : bool :=
  match o with
  | Some s => negb (String.eqb s "")
  | None => false
  end.

End Py.

(** ** pathlib (POSIX flavour) *)

Module Pathlib.

(** The parts of a relative or absolute POSIX path: empty components and
    ["."] components are dropped. *)
Definition parts (p : string) : list string :=
  List.filter (λ x, negb (String.eqb x "") && negb (String.eqb x "."))
              (Py.split "/" p).

(** [Path(p).name]: the final component, [""] when there is none. *)
Definition name (p : string) : string := List.last (parts p) "".

(** [Path(p).suffix]. *)
Definition suffix (p : string) : string :=
  let n := name p in
  match Py.rfind_dot n with
  | Some i =>
      if (0 <? i)%nat && (i <? String.length n - 1)%nat
      then String.substring i (String.length n - i) n
      else ""
  | None => ""
  end.

End Pathlib.

(** ** xml.etree.ElementTree *)

Module ET.

(** An element as the default parser builds it: comments and processing
    instructions are dropped, [text] is the character data before the
    first child ([None] when there is none), [attrib] keeps document
    order. *)
#[warnings="-register-all"] Inductive Element : Type :=
| Elem (tag : string) (attrib : list (string * string))
       (text : option string) (children : list Element).

Definition tag (e : Element) : string :=
  match e with Elem t _ _ _ => t end.
Definition attrib (e : Element) : list (string * string) :=
  match e with Elem _ a _ _ => a end.
Definition text (e : Element) : option string :=
  match e with Elem _ _ x _ => x end.
Definition children (e : Element) : list Element :=
  match e with Elem _ _ _ c => c end.

(** [e.get(key)]. *)
Fixpoint assoc (key : string) (a : list (string * string)) : option string :=
  match a with
  | [] => None
  | (k, v) :: rest => if String.eqb k key then Some v else assoc key rest
  end.
Definition get (e : Element) (key : string) : option string :=
  assoc key (attrib e).

(** [e.iter()]: the element and its descendants in document order. *)
Fixpoint iter (e : Element) : list Element :=
  match e with
  | Elem _ _ _ cs => e :: List.flat_map iter cs
  end.

(** What [iter] yields after the element itself. *)
Definition descendants (e : Element) : list Element :=
  List.flat_map iter (children e).

(** *** ElementPath, the fragment the program's patterns are written in

    [.//step], [.//step/step] and [.//*[@key]], where a step is a tag
    name, [{*}name] (the name in any or no namespace) or [*]. *)

Inductive tagtest : Type :=
| AnyTag
| Named (n : string)
| AnyNs (n : string).

Inductive step : Type :=
| Descendant (t : tagtest)
| Child (t : tagtest)
| HasAttr (key : string).

(** Does the element's tag end with ["}" ++ n]? *)
Definition ends_with (sfx s : string) : bool :=
  let ls := String.length s in
  let lx := String.length sfx in
  (lx <=? ls)%nat && String.eqb (String.substring (ls - lx) lx s) sfx.

Definition tag_matches (t : tagtest) (e : Element) : bool :=
  match t with
  | AnyTag => true
  | Named n => String.eqb (tag e) n
  | AnyNs n => String.eqb (tag e) n || ends_with ("}" ++ n) (tag e)
  end.

Definition select (s : step) (result : list Element) : list Element :=
  match s with
  | Descendant t =>
      List.flat_map (λ elem, List.filter (tag_matches t) (descendants elem)) result
  | Child t =>
      List.flat_map (λ elem, List.filter (tag_matches t) (children elem)) result
  | HasAttr key =>
      List.filter (λ elem, bool_decide (get elem key ≠ None)) result
  end.

Definition parse_tagtest (s : string) : option tagtest :=
  if String.eqb s "" then None
  else if String.eqb s "*" then Some AnyTag
  else if Py.startswith "{*}" s
       then Some (AnyNs (String.substring 3 (String.length s - 3) s))
  else if Py.contains "[" s || Py.contains "]" s || Py.contains "@" s
          || Py.contains "{" s || Py.contains "}" s || Py.contains "(" s
          || Py.contains ")" s || Py.contains "=" s || Py.contains "!" s
          || Py.contains " " s || Py.contains ":" s
       then None
  else Some (Named s).

(** One [/]-separated segment: a tag test, or [*[@key]]. *)
Definition parse_segment (first : bool) (s : string) : option (list step) :=
  let mk t := if first then Descendant t else Child t in
  if Py.startswith "*[@" s && ends_with "]" s then
    let key := String.substring 3 (String.length s - 4) s in
    match parse_tagtest key with
    | Some (Named k) => Some [mk AnyTag; HasAttr k]
    | _ => None
    end
  else t ← parse_tagtest s; Some [mk t].

Fixpoint parse_segments (first : bool) (segs : list string) : option (list step) :=
  match segs with
  | [] => Some []
  | s :: rest =>
      a ← parse_segment first s;
      b ← parse_segments false rest;
      Some (a ++ b)
  end.

Definition compile (path : string) : option (list step) :=
  if Py.startswith ".//" path
  then parse_segments true
         (Py.split "/" (String.substring 3 (String.length path - 3) path))
  else None.

(** [root.findall(path)].  A path outside the fragment selects nothing
    in this model. *)
Definition findall (root : Element) (path : string) : list Element :=
  match compile path with
  | Some steps => List.fold_left (λ result s, select s result) steps [root]
  | None => []
  end.

(** Induction on an element with the hypothesis for every child. *)
Section ElementInduction.
Variable P : Element → Prop.
Hypothesis step : ∀ t a x cs, Forall P cs → P (Elem t a x cs).

Fixpoint Element_nested_ind (e : Element) : P e :=
  match e with
  | Elem t a x cs =>
      step t a x cs
        ((fix all (l : list Element) : Forall P l :=
            match l with
            | [] => @List.Forall_nil _ P
            | c :: l' => @List.Forall_cons _ P c l' (Element_nested_ind c) (all l')
            end) cs)
  end.
End ElementInduction.

End ET.

(** ** [src/xml_processor.py]: the field extractor and the document processor *)

Module XMLProcessor.
Import ET.

(** The body shared by the four pattern loops: the first pattern with a
    match decides; [attr_of] is the attribute name the loop reads for an
    attribute pattern.  [Some r] is a [return r], [None] falls out of
    the loop. *)
Fixpoint structural_phase (attr_of : string → string) (patterns : list string)
         (root : Element) : option (option string) :=
  match patterns with
  | [] => None
  | pattern :: rest =>
      match findall root pattern with
      | e0 :: _ =>
          if Py.startswith ".//*[@" pattern
          then Some (get e0 (attr_of pattern))
          else Some (text e0)
      | [] => structural_phase attr_of rest root
      end
  end.

(** A scan [for elem in root.iter(): ...] whose body either returns
    ([Some r]) or goes on to the next element ([None]). *)
Fixpoint scan {A} (body : A → option (option string)) (l : list A)
  : option string :=
  match l with
  | [] => None
  | x :: rest =>
      match body x with
      | Some r => r
      | None => scan body rest
      end
  end.

(** [for attr_name, attr_value in elem.attrib.items(): if test: return attr_value]. *)
Fixpoint scan_attrs (test : string → string → bool) (a : list (string * string))
  : option (option string) :=
  match a with
  | [] => None
  | (attr_name, attr_value) :: rest =>
      if test attr_name attr_value then Some (Some attr_value)
      else scan_attrs test rest
  end.

Definition audio_filename_patterns : list string :=
  [ ".//FileName"; ".//AudioFileName"; ".//SoundRecording/FileName";
    ".//*[@filename]"; ".//*[@audioFileName]";
    ".//{*}FileName"; ".//{*}AudioFileName";
    ".//{*}SoundRecording/{*}FileName" ].

(** [attr_name = pattern[5:-1]]. *)
Definition attr_name_of (pattern : string) : string :=
  Py.slice_to_last 5 pattern.

Definition audio_filename_fallback (elem : Element) : option (option string) :=
  match
    (if Py.any_in ["filename"; "audiofilename"; "soundrecording"] (Py.lower (tag elem))
     then match text elem with
          | Some t =>
              if Py.truthy (Some t) && Py.contains ".wav" (Py.lower t)
              then Some (Some t) else None
          | None => None
          end
     else None)
  with
  | Some r => Some r
  | None =>
      scan_attrs
        (λ attr_name attr_value,
           Py.any_in ["filename"; "file"; "audio"] (Py.lower attr_name)
           && Py.truthy (Some attr_value)
           && Py.contains ".wav" (Py.lower attr_value))
        (attrib elem)
  end.

Definition _extract_audio_filename (root : Element) : option string :=
  match structural_phase attr_name_of audio_filename_patterns root with
  | Some r => r
  | None => scan audio_filename_fallback (iter root)
  end.

Definition isrc_patterns : list string :=
  [ ".//ISRC"; ".//*[@isrc]"; ".//{*}ISRC" ].

(** The keyword scan of the three optional fields: an element whose
    lower-cased tag holds a keyword returns its text, whatever it is;
    otherwise its first attribute whose lower-cased name holds a keyword
    returns its value. *)
Definition keyword_fallback (names : list string) (elem : Element)
  : option (option string) :=
  if Py.any_in names (Py.lower (tag elem)) then Some (text elem)
  else scan_attrs (λ attr_name _, Py.any_in names (Py.lower attr_name))
                  (attrib elem).

Definition _extract_isrc (root : Element) : option string :=
  match structural_phase (λ _, "isrc") isrc_patterns root with
  | Some r => r
  | None => scan (keyword_fallback ["isrc"]) (iter root)
  end.

Definition track_title_patterns : list string :=
  [ ".//Title"; ".//TrackTitle"; ".//SoundRecording/Title";
    ".//*[@title]"; ".//*[@trackTitle]";
    ".//{*}Title"; ".//{*}TrackTitle" ].

Definition _extract_track_title (root : Element) : option string :=
  match structural_phase attr_name_of track_title_patterns root with
  | Some r => r
  | None => scan (keyword_fallback ["title"; "tracktitle"]) (iter root)
  end.

Definition artist_patterns : list string :=
  [ ".//Artist"; ".//ArtistName"; ".//Performer/Name";
    ".//*[@artist]"; ".//*[@artistName]";
    ".//{*}Artist"; ".//{*}ArtistName"; ".//{*}Performer/{*}Name" ].

Definition _extract_artist (root : Element) : option string :=
  match structural_phase attr_name_of artist_patterns root with
  | Some r => r
  | None => scan (keyword_fallback ["artist"; "performer"; "creator"]) (iter root)
  end.

(** The metadata dictionary [_process_single_xml] returns. *)
Record Metadata : Type := {
  xml_path : string;
  audio_filename : string;
  isrc : option string;
  track_title : option string;
  artist : option string
}.

(** [ET.parse(xml_path).getroot()] is the one step of the document
    processor that reads the file system; [parse] is what it gives for
    each path ([Raise] for an unreadable or malformed file). *)
Definition _process_single_xml (parse : string → res Element)
           (xml_path : string) : option Metadata :=
  match parse xml_path with
  | Ok root =>
      let audio_filename := _extract_audio_filename root in
      let isrc := _extract_isrc root in
      let track_title := _extract_track_title root in
      let artist := _extract_artist root in
      match audio_filename with
      | Some name =>
          if negb (Py.truthy (Some name)) then None
          else Some {| xml_path := xml_path; audio_filename := name;
                       isrc := isrc; track_title := track_title;
                       artist := artist |}
      | None => None
      end
  | Raise _ => None
  end.

End XMLProcessor.

(** ** Values, dictionaries and the [re] fragment *)

(** A cell of a table or a JSON value.  [VNone] stands for every missing
    value ([None], [NaN], JSON [null]); [VFloat m e] is [m * 2^e]. *)
#[warnings="-register-all"] Inductive value : Type :=
| VNone
| VBool (b : bool)
| VInt (n : Z)
| VFloat (m e : Z)
| VStr (s : string)
| VList (l : list value)
| VDict (d : list (string * value)).

(** A [dict] with string keys, in insertion order. *)
Abbreviation dict V := (list (string * V)) (only parsing).
Abbreviation record := (list (string * value)) (only parsing).

Fixpoint dict_get {V} (key : string) (d : dict V) : option V :=
  match d with
  | [] => None
  | (k, v) :: rest => if String.eqb k key then Some v else dict_get key rest
  end.

(** [key in d]. *)
Definition dict_has {V} (key : string) (d : dict V) : bool :=
  bool_decide (dict_get key d ≠ None).

(** [d[key] = v]: an existing key keeps its place, a new one goes last. *)
Fixpoint dict_set {V} (key : string) (v : V) (d : dict V) : dict V :=
  match d with
  | [] => [(key, v)]
  | (k, w) :: rest =>
      if String.eqb k key then (k, v) :: rest
      else (k, w) :: dict_set key v rest
  end.

Definition dict_keys {V} (d : dict V) : list string := d.*1.

(** [d.get(key, "")] on a record. *)
Definition get_or_empty (key : string) (d : record) : value :=
  default (VStr "") (dict_get key d).

Definition is_str (v : value) : bool :=
  match v with VStr _ => true | _ => false end.

(** [Path(v).name]: a value that is not a string is a [TypeError]. *)
Definition path_name (v : value) : res string :=
  match v with
  | VStr s => Ok (Pathlib.name s)
  | _ => Raise TypeError
  end.

(** [filename in v]. *)
Definition py_in (filename : string) (v : value) : res bool :=
  match v with
  | VStr s => Ok (Py.contains filename s)
  | VList l =>
      Ok (existsb (λ x, match x with VStr s => String.eqb s filename | _ => false end) l)
  | VDict d => Ok (dict_has filename d)
  | _ => Raise TypeError
  end.

(** [isinstance(v, str) and ('/' in v or '\\' in v)]. *)
Definition slash_bearing (v : value) : bool :=
  match v with
  | VStr s => Py.contains "/" s || Py.contains "\" s
  | _ => false
  end.

(** A metadata field as a cell. *)
Definition of_option (o : option string) : value :=
  match o with Some s => VStr s | None => VNone end.

Module Re.

(** The characters [re] gives a meaning of their own, the dot apart. *)
Definition is_meta (c : ascii) : bool :=
  existsb (Ascii.eqb c)
    ["\"; "^"; "$"; "*"; "+"; "?"; "{"; "}"; "["; "]"; "|"; "("; ")"]%char.

(** A pattern of literal characters and dots. *)
Fixpoint simple (pat : string) : bool :=
  match pat with
  | EmptyString => true
  | String c rest => negb (is_meta c) && simple rest
  end.

Definition newline : ascii := ascii_of_nat 10.

(** A string is the UTF-8 encoding of the [str] it stands for, and the
    pattern language works on characters: the number of bytes of the
    character that the byte [c] starts.  A continuation byte starts
    none. *)
Definition char_len (c : ascii) : option nat :=
  let n := nat_of_ascii c in
  if (n <? 128)%nat then Some 1%nat
  else if (n <? 192)%nat then None
  else if (n <? 224)%nat then Some 2%nat
  else if (n <? 240)%nat then Some 3%nat
  else Some 4%nat.

(** [s] without its first [n] bytes, when it has that many. *)
Fixpoint drop_bytes (n : nat) (s : string) : option string :=
  match n, s with
  | O, _ => Some s
  | S n', String _ s' => drop_bytes n' s'
  | S _, EmptyString => None
  end.

(** Does [pat] match at the start of [s]?  A dot stands for any one
    character but a newline and takes all the bytes of that character;
    every other byte of the pattern stands for itself. *)
Fixpoint match_here (pat s : string) : bool :=
  match pat with
  | EmptyString => true
  | String p pat' =>
      match s with
      | EmptyString => false
      | String c s' =>
          if Ascii.eqb p "." then
            negb (Ascii.eqb c newline) &&
            match char_len c with
            | Some n =>
                match drop_bytes (n - 1) s' with
                | Some rest => match_here pat' rest
                | None => false
                end
            | None => false
            end
          else Ascii.eqb p c && match_here pat' s'
      end
  end.

(** [re.compile(pat).search(s) is not None] for a [simple] pattern. *)
Fixpoint search (pat s : string) : bool :=
  match_here pat s ||
  match s with
  | EmptyString => false
  | String _ s' => search pat s'
  end.

(** [re.compile]: the fragment above is modelled, the rest of the regular
    expression language is left to [general] (which raises [ReError]
    for an ill-formed pattern). *)
Definition compile (general : string → res (string → bool)) (pat : string)
  : res (string → bool) :=
  if simple pat then Ok (search pat) else general pat.

End Re.

(** ** pandas, as far as the handler uses it *)

(** A row label or a record locator: a position or a key. *)
Inductive label : Type :=
| LInt (n : nat)
| LStr (s : string).

#[global] Instance label_eq_dec : EqDecision label.
Proof. solve_decision. Defined.

Module Pd.

(** A column: its name, whether its dtype is [object], its cells.  The
    dtype of a column that is not [object] shows in its cells: [int64]
    holds integers only, [bool] booleans only, and every other one is
    [float64], whose missing cells are [NaN]. *)
Record Series : Type := {
  name : string;
  is_object : bool;
  values : list value
}.

Definition is_int (v : value) : bool :=
  match v with VInt _ => true | _ => false end.

Definition is_bool (v : value) : bool :=
  match v with VBool _ => true | _ => false end.

Definition is_int64 (c : Series) : bool :=
  negb (is_object c) && forallb is_int (values c).

Definition is_bool_dtype (c : Series) : bool :=
  negb (is_object c) && forallb is_bool (values c).

(** The integer a [float64] holds for the integer [n]: [n] itself up to
    [2^53] in absolute value, beyond that the nearest number with 53
    significant bits, ties going to the even one. *)
Definition nearest_float64 (n : Z) : Z :=
  let a := Z.abs n in
  let k := (Z.log2 a - 52)%Z in
  if (k <=? 0)%Z then n
  else
    let q := Z.shiftr a k in
    let r := Z.land a (Z.ones k) in
    let half := Z.shiftl 1 (k - 1) in
    let q' := if (half <? r)%Z || ((r =? half)%Z && Z.odd q) then (q + 1)%Z else q in
    (Z.sgn n * Z.shiftl q' k)%Z.

(** A cell under [astype(float64)]. *)
Definition astype_float (v : value) : value :=
  match v with
  | VInt n => VFloat (nearest_float64 n) 0
  | _ => v
  end.

(** The column as it can hold a missing value: an [int64] column turns
    [float64], with its integers converted, and a [bool] column turns
    [object]; a [float64] or [object] column holds it as it is. *)
Definition hold_na (c : Series) : Series :=
  if is_int64 c
  then {| name := name c; is_object := false; values := astype_float <$> values c |}
  else if is_bool_dtype c
       then {| name := name c; is_object := true; values := values c |}
       else c.

(** The column as it can hold what the handler writes: nothing, or a
    string, which makes the dtype [object] and leaves the cells as they
    are.  This is the upcast of pandas before version 3, the pandas for
    which a column of strings has the dtype [object] that the sniffer
    tests for. *)
Definition hold (v : option string) (c : Series) : Series :=
  match v with
  | None => hold_na c
  | Some _ => {| name := name c; is_object := true; values := values c |}
  end.

(** A table: its row labels and its columns, whose names are distinct
    (as [read_csv] makes them). *)
Record DataFrame : Type := {
  index : list label;
  columns : list Series
}.

Definition nrows (df : DataFrame) : nat := length (index df).
Definition column_names (df : DataFrame) : list string := name <$> columns df.

(** [col in df.columns]. *)
Definition has_column (col : string) (df : DataFrame) : bool :=
  existsb (String.eqb col) (column_names df).

(** [df[col]]. *)
Definition get_column (col : string) (df : DataFrame) : option Series :=
  List.find (λ c, String.eqb (name c) col) (columns df).

(** The cell of column [col] at position [p]. *)
Definition cell (df : DataFrame) (p : nat) (col : string) : option value :=
  c ← get_column col df; values c !! p.

(** A column of [n] missing cells; its dtype is [object]. *)
Definition none_series (n : nat) (col : string) : Series :=
  {| name := col; is_object := true; values := replicate n VNone |}.

(** [df[col] = None] for a new column. *)
Definition add_none_column (col : string) (df : DataFrame) : DataFrame :=
  {| index := index df;
     columns := columns df ++ [none_series (nrows df) col] |}.

(** Position of a label in the index. *)
Fixpoint label_pos (idx : label) (l : list label) : option nat :=
  match l with
  | [] => None
  | x :: rest =>
      if decide (x = idx) then Some 0%nat else S <$> label_pos idx rest
  end.

(** The write of one cell, a string or nothing: the column is first made
    to hold the value, then the cell is replaced. *)
Definition set_cell (p : nat) (col : string) (v : option string) (df : DataFrame)
  : DataFrame :=
  {| index := index df;
     columns :=
       (λ c, if String.eqb (name c) col
             then {| name := name c;
                     is_object := is_object (hold v c);
                     values := <[p := of_option v]> (values (hold v c)) |}
             else c) <$> columns df |}.

(** A new last row of missing cells, which every column is made to
    hold. *)
Definition append_row (idx : label) (df : DataFrame) : DataFrame :=
  {| index := index df ++ [idx];
     columns :=
       (λ c, {| name := name c; is_object := is_object (hold_na c);
                values := values (hold_na c) ++ [VNone] |}) <$> columns df |}.

(** [df.loc[idx, col] = v] for a string or [None].  A missing column is
    created and a label that is not in the index gets a new last row, as
    pandas enlarges the frame on such a write. *)
Definition loc_set (idx : label) (col : string) (v : option string) (df : DataFrame)
  : DataFrame :=
  let df1 := if has_column col df then df else add_none_column col df in
  match label_pos idx (index df1) with
  | Some p => set_cell p col v df1
  | None => set_cell (nrows df1) col v (append_row idx df1)
  end.

(** The keys of a sequence of keys, each at its first occurrence. *)
Definition first_seen (keys : list string) : list string :=
  List.fold_left (λ acc k, if existsb (String.eqb k) acc then acc else acc ++ [k])
                 keys [].

(** A column built from Python objects.  [infer] stands for the type
    inference of pandas on the cells of one column: whether the dtype it
    settles on is [object], and what a cell becomes under it. *)
Definition column_of (infer : list value → bool * (value → value))
           (col : string) (cells : list value) : Series :=
  {| name := col; is_object := (infer cells).1;
     values := (infer cells).2 <$> cells |}.

(** [pd.DataFrame(records)] for a list of records: a row for each record,
    a column for each key in the order the keys are first seen, a missing
    cell where a record lacks the key. *)
Definition from_records (infer : list value → bool * (value → value))
           (l : list record) : DataFrame :=
  {| index := LInt <$> seq 0 (length l);
     columns :=
       (λ k, column_of infer k ((λ r, default VNone (dict_get k r)) <$> l))
         <$> first_seen (l ≫= dict_keys) |}.

(** [pd.DataFrame(entries)] for a mapping whose entries are records: a
    column for each entry, named by its key, and a row for each key of
    the records, in the order the keys are first seen. *)
Definition from_entries (infer : list value → bool * (value → value))
           (d : dict record) : DataFrame :=
  let rows := first_seen (d ≫= λ e, dict_keys e.2) in
  {| index := LStr <$> rows;
     columns :=
       (λ e : string * record,
            column_of infer e.1 ((λ k, default VNone (dict_get k e.2)) <$> rows))
         <$> d |}.

(** The row at position [p] as a dictionary. *)
Definition row_dict (df : DataFrame) (p : nat) : record :=
  (λ c, (name c, default VNone (values c !! p))) <$> columns df.

(** [df.iloc[idx].to_dict()]. *)
Definition iloc_to_dict (idx : label) (df : DataFrame) : res record :=
  match idx with
  | LInt n => if decide (n < nrows df)%nat then Ok (row_dict df n)
              else Raise IndexError
  | LStr _ => Raise TypeError
  end.

(** [s.dropna().iloc[0] if not s.dropna().empty else ""]. *)
Definition first_valid (c : Series) : value :=
  default (VStr "")
          (List.find (λ v, match v with VNone => false | _ => true end)
                     (values c)).

(** [s.str.contains(pat, na=False)] cell by cell: the [.str] accessor
    wants an [object] column; a cell that is not a string is [False]. *)
Definition str_contains (re_compile : string → res (string → bool))
           (pat : string) (c : Series) : res (list bool) :=
  if is_object c then
    f ← Re.compile re_compile pat;
    Ok ((λ v, match v with VStr s => f s | _ => false end) <$> values c)
  else Raise AttributeError.

(** Position of the first [True] of a mask. *)
Fixpoint first_true (mask : list bool) : option nat :=
  match mask with
  | [] => None
  | b :: rest => if b then Some 0%nat else S <$> first_true rest
  end.

End Pd.

#[global] Instance res_fmap : FMap res := λ A B f r,
  match r with
  | Ok a => Ok (f a)
  | Raise e => Raise e
  end.

(** [for x in items: acc = body(acc, x)] with a body that may raise. *)
Fixpoint foldM {A B} (body : B → A → res B) (items : list A) (acc : B) : res B :=
  match items with
  | [] => Ok acc
  | x :: rest => acc' ← body acc x; foldM body rest acc'
  end.

(** ** [src/manifest_handler.py] *)

Module ManifestHandler.
Import Pd.

(** The three shapes of [self.manifest_data]: a table ([pd.read_csv],
    [pd.read_excel]), a JSON array of records, a JSON object of entries.
    The items of the array are taken to be records, as the annotation
    [sample_dict: Dict] of the sniffer has it; the entries of the object
    are any values, since the code tests the first one with
    [isinstance(sample_item, dict)]. *)
Inductive manifest : Type :=
| MFrame (df : DataFrame)
| MList (l : list record)
| MDict (d : dict value).

Record handler : Type := {
  manifest_path : string;
  manifest_data : option manifest;
  file_index : gmap string label
}.

Definition __init__ (manifest_path : string) : handler :=
  {| manifest_path := manifest_path; manifest_data := None; file_index := ∅ |}.

Definition with_data (h : handler) (m : manifest) : handler :=
  {| manifest_path := manifest_path h; manifest_data := Some m;
     file_index := file_index h |}.

Definition with_index (h : handler) (i : gmap string label) : handler :=
  {| manifest_path := manifest_path h; manifest_data := manifest_data h;
     file_index := i |}.

(** *** Schema sniffer *)

Definition priority_names : list string :=
  ["path"; "filepath"; "file_path"; "location"; "uri"; "url"].

Definition _find_path_column (data : option manifest) : option string :=
  match data with
  | Some (MFrame df) =>
      match List.find (λ col_name, has_column col_name df) priority_names with
      | Some col_name => Some col_name
      | None =>
          name <$> List.find
                     (λ col, is_object col && slash_bearing (first_valid col))
                     (columns df)
      end
  | _ => None
  end.

Definition _find_path_key_in_dict (sample_dict : record) : option string :=
  match sample_dict with
  | [] => None
  | _ =>
      match List.find (λ key_name, dict_has key_name sample_dict) priority_names with
      | Some key_name => Some key_name
      | None =>
          fst <$> List.find (λ kv, slash_bearing (snd kv)) sample_dict
      end
  end.

(** *** Index building *)

(** [for x in items: filename, idx = body(x); self.file_index[filename] = idx]. *)
Definition index_loop {A} (body : A → res (string * label)) (items : list A)
           (file_index : gmap string label) : res (gmap string label) :=
  foldM (λ acc x, fi ← body x; Ok (<[fi.1 := fi.2]> acc)) items file_index.

(** [df.iterrows()]: each label with its row. *)
Definition iterrows (df : DataFrame) : list (label * record) :=
  imap (λ p idx, (idx, row_dict df p)) (index df).

(** [row[key]]. *)
Definition getitem (key : string) (row : record) : res value :=
  match dict_get key row with
  | Some v => Ok v
  | None => Raise KeyError
  end.

(** [item.get(key, "")] on an entry of a mapping. *)
Definition entry_get (key : string) (item : value) : res value :=
  match item with
  | VDict r => Ok (get_or_empty key r)
  | _ => Raise AttributeError
  end.

Definition _build_file_index (h : handler) : res handler :=
  match manifest_data h with
  | Some (MFrame df) =>
      match _find_path_column (manifest_data h) with
      | Some path_col =>
          if Py.truthy (Some path_col) then
            with_index h <$>
              index_loop (λ ir, filepath ← getitem path_col ir.2;
                                filename ← path_name filepath;
                                Ok (filename, ir.1))
                         (iterrows df) (file_index h)
          else Ok h
      | None => Ok h
      end
  | Some (MList l) =>
      match _find_path_key_in_dict (default [] (head l)) with
      | Some path_key =>
          if Py.truthy (Some path_key) then
            with_index h <$>
              index_loop (λ ii, filename ← path_name (get_or_empty path_key ii.2);
                                Ok (filename, LInt ii.1))
                         (imap (λ idx item, (idx, item)) l) (file_index h)
          else Ok h
      | None => Ok h
      end
  | Some (MDict d) =>
      match d with
      | [] => Raise StopIteration
      | (sample_key, sample_item) :: _ =>
          match sample_item with
          | VDict sample =>
              match _find_path_key_in_dict sample with
              | Some path_key =>
                  if Py.truthy (Some path_key) then
                    with_index h <$>
                      index_loop (λ ki, filepath ← entry_get path_key ki.2;
                                        filename ← path_name filepath;
                                        Ok (filename, LStr ki.1))
                                 d (file_index h)
                  else Ok h
              | None => Ok h
              end
          | _ => Ok h
          end
      end
  | None => Ok h
  end.

(** *** Loading *)

(** What the three readers give for a path. *)
Record Readers : Type := {
  read_csv : string → res DataFrame;
  json_load : string → res manifest;
  read_excel : string → res DataFrame
}.

Definition load_manifest (io : Readers) (h : handler) : res handler :=
  let suffix := Py.lower (Pathlib.suffix (manifest_path h)) in
  data ←
    (if String.eqb suffix ".csv" then MFrame <$> read_csv io (manifest_path h)
     else if String.eqb suffix ".json" then json_load io (manifest_path h)
     else if String.eqb suffix ".xls" || String.eqb suffix ".xlsx"
          then MFrame <$> read_excel io (manifest_path h)
     else Raise ValueError);
  _build_file_index (with_data h data).

(** *** Resolving a filename *)

(** [self.manifest_data[idx]] on a list. *)
Definition list_getitem (idx : label) (l : list record) : res record :=
  match idx with
  | LInt n => match l !! n with
              | Some item => Ok item
              | None => Raise IndexError
              end
  | LStr _ => Raise TypeError
  end.

(** [self.manifest_data[key]] on a mapping, whose keys are strings. *)
Definition dict_getitem (key : label) (d : dict value) : res value :=
  match key with
  | LStr k => match dict_get k d with
              | Some item => Ok item
              | None => Raise KeyError
              end
  | LInt _ => Raise KeyError
  end.

(** [for x in items: if test(x): return x], with a test that may raise. *)
Fixpoint first_where {A} (test : A → res bool) (items : list A) : res (option A) :=
  match items with
  | [] => Ok None
  | x :: rest =>
      b ← test x;
      if b : bool then Ok (Some x) else first_where test rest
  end.

(** [{**item, 'id': key}]; the entry is a record where the code builds
    it, since [item.get] has just succeeded on it. *)
Definition with_id (ki : string * value) : value :=
  match ki.2 with
  | VDict item => VDict (dict_set "id" (VStr ki.1) item)
  | other => other
  end.

(** The flexible search [find_audio_file] falls back to; [re_compile] is
    the regular expression compiler behind [str.contains] outside the
    fragment of [Re].  A record is returned as a [VDict]. *)
Definition flexible_search (re_compile : string → res (string → bool))
           (h : handler) (filename : string) : res (option value) :=
  match manifest_data h with
  | Some (MFrame df) =>
      match _find_path_column (manifest_data h) with
      | Some path_col =>
          if Py.truthy (Some path_col) then
            match get_column path_col df with
            | Some col =>
                mask ← str_contains re_compile filename col;
                match first_true mask return res (option value) with
                | Some p => Ok (Some (VDict (row_dict df p)))
                | None => Ok None
                end
            | None => Raise KeyError
            end
          else Ok None
      | None => Ok None
      end
  | Some (MList l) =>
      match _find_path_key_in_dict (default [] (head l)) with
      | Some path_key =>
          if Py.truthy (Some path_key) then
            fmap (M := res) (fmap (M := option) VDict)
              (first_where (λ item, py_in filename (get_or_empty path_key item)) l)
          else Ok None
      | None => Ok None
      end
  | Some (MDict d) =>
      match d with
      | [] => Raise StopIteration
      | (sample_key, sample_item) :: _ =>
          match sample_item with
          | VDict sample =>
              match _find_path_key_in_dict sample with
              | Some path_key =>
                  if Py.truthy (Some path_key) then
                    fmap (M := res) (fmap (M := option) with_id)
                      (first_where
                         (λ ki : string * value,
                            v ← entry_get path_key ki.2; py_in filename v) d)
                  else Ok None
              | None => Ok None
              end
          | _ => Ok None
          end
      end
  | None => Ok None
  end.

Definition find_audio_file (re_compile : string → res (string → bool))
           (h : handler) (audio_filename : string) : res (option value) :=
  let filename := Pathlib.name audio_filename in
  match file_index h !! filename with
  | Some idx =>
      match manifest_data h with
      | Some (MFrame df) => (λ r, Some (VDict r)) <$> iloc_to_dict idx df
      | Some (MList l) => (λ r, Some (VDict r)) <$> list_getitem idx l
      | Some (MDict d) => Some <$> dict_getitem idx d
      | None => flexible_search re_compile h filename
      end
  | None => flexible_search re_compile h filename
  end.

(** *** Bulk apply *)

Definition new_columns : list string := ["isrc"; "track_title"; "artist"].

Definition ensure_column (df : DataFrame) (col : string) : DataFrame :=
  if has_column col df then df else add_none_column col df.

(** The three writes of one metadata record at a locator; what is
    written is a string or [None]. *)
Definition write3 {M} (set : label → string → option string → M → res M)
           (idx : label) (metadata : XMLProcessor.Metadata) (m : M) : res M :=
  m ← set idx "isrc" (XMLProcessor.isrc metadata) m;
  m ← set idx "track_title" (XMLProcessor.track_title metadata) m;
  set idx "artist" (XMLProcessor.artist metadata) m.

(** The body of each of the three loops over [metadata_list]. *)
Definition apply_one {M} (set : label → string → option string → M → res M)
           (file_index : gmap string label) (m : M) (metadata : XMLProcessor.Metadata) : res M :=
  let filename := Pathlib.name (XMLProcessor.audio_filename metadata) in
  match file_index !! filename with
  | Some idx => write3 set idx metadata m
  | None => Ok m
  end.

(** [updated_manifest.loc[idx, col] = v]. *)
Definition frame_setitem (idx : label) (col : string) (v : option string)
           (df : DataFrame) : res DataFrame :=
  Ok (loc_set idx col v df).

(** [self.manifest_data[idx][key] = v] on a list. *)
Definition list_setitem (idx : label) (key : string) (v : option string)
           (l : list record) : res (list record) :=
  item ← list_getitem idx l;
  match idx with
  | LInt n => Ok (<[n := dict_set key (of_option v) item]> l)
  | LStr _ => Raise TypeError
  end.

(** [self.manifest_data[key][field] = v] on a mapping. *)
Definition dict_setitem (key : label) (field : string) (v : option string)
           (d : dict value) : res (dict value) :=
  item ← dict_getitem key d;
  match key, item with
  | LStr k, VDict r => Ok (dict_set k (VDict (dict_set field (of_option v) r)) d)
  | _, _ => Raise TypeError
  end.

Definition update_manifest_with_metadata (h : handler)
           (metadata_list : list XMLProcessor.Metadata) : res handler :=
  match manifest_data h with
  | Some (MFrame df) =>
      let updated_manifest := List.fold_left ensure_column new_columns df in
      updated_manifest ←
        foldM (apply_one frame_setitem (file_index h)) metadata_list updated_manifest;
      Ok (with_data h (MFrame updated_manifest))
  | Some (MList l) =>
      l' ← foldM (apply_one list_setitem (file_index h)) metadata_list l;
      Ok (with_data h (MList l'))
  | Some (MDict d) =>
      d' ← foldM (apply_one dict_setitem (file_index h)) metadata_list d;
      Ok (with_data h (MDict d'))
  | None => Ok h
  end.

(** *** Saving *)

(** What has reached the output file: a table (written with
    [index=False], so without its row labels) or the JSON document. *)
Inductive written : Type :=
| WCsv (df : DataFrame)
| WJson (doc : option manifest)
| WExcel (df : DataFrame).

(** What saving relies on: the type inference of [pd.DataFrame] (see
    [column_of]), [pd.DataFrame] on a mapping whose entries are not all
    records, and the writes to the output path, each of which may raise
    (an [OSError] for a path that cannot be written, for one). *)
Record Writers : Type := {
  infer : list value → bool * (value → value);
  frame_of_mapping : dict value → res DataFrame;
  to_csv : DataFrame → string → res unit;
  open_w : string → res unit;
  json_dump : option manifest → string → res unit;
  to_excel : DataFrame → string → res unit
}.

(** The entries of a mapping when all of them are records. *)
Definition all_records (d : dict value) : option (dict record) :=
  mapM (λ kv : string * value,
          match kv.2 with VDict r => Some (kv.1, r) | _ => None end) d.

(** The table that goes to a CSV or Excel file: the manifest itself, or
    [pd.DataFrame(self.manifest_data)]. *)
Definition as_frame (io : Writers) (data : option manifest) : res DataFrame :=
  match data with
  | Some (MFrame df) => Ok df
  | Some (MList l) => Ok (from_records (infer io) l)
  | Some (MDict d) =>
      match all_records d with
      | Some entries => Ok (from_entries (infer io) entries)
      | None => frame_of_mapping io d
      end
  | None => Ok {| index := []; columns := [] |}
  end.

(** [save_updated_manifest].  Whatever a write raises is logged and
    raised again; [json.dump] refuses a table with a [TypeError] once the
    file has been opened. *)
Definition save_updated_manifest (io : Writers) (h : handler)
           (output_path : string) : res written :=
  let suffix := Py.lower (Pathlib.suffix output_path) in
  if String.eqb suffix ".csv" then
    df ← as_frame io (manifest_data h);
    _ ← to_csv io df output_path;
    Ok (WCsv df)
  else if String.eqb suffix ".json" then
    _ ← open_w io output_path;
    match manifest_data h with
    | Some (MFrame _) => Raise TypeError
    | other => _ ← json_dump io other output_path; Ok (WJson other)
    end
  else if String.eqb suffix ".xls" || String.eqb suffix ".xlsx" then
    df ← as_frame io (manifest_data h);
    _ ← to_excel io df output_path;
    Ok (WExcel df)
  else Raise ValueError.

End ManifestHandler.

(** ** Observations, invariants and the specification's own readings *)

Module Model.
Import ET XMLProcessor Pd ManifestHandler.

(** *** Documents *)

(** A tree as the parser delivers it: character data is never the empty
    string and no attribute name starts with [@]. *)
Definition parsed_element (e : Element) : Prop :=
  text e ≠ Some "" ∧ ∀ k v, (k, v) ∈ attrib e → Py.startswith "@" k = false.

Definition parsed (root : Element) : Prop :=
  ∀ e, e ∈ iter root → parsed_element e.

(** The first structural match: the first element selected by the first
    pattern, in list order, that selects anything. *)
Fixpoint first_structural_match (patterns : list string) (root : Element)
  : option (string * Element) :=
  match patterns with
  | [] => None
  | pattern :: rest =>
      match findall root pattern with
      | e0 :: _ => Some (pattern, e0)
      | [] => first_structural_match rest root
      end
  end.

(** Every attribute pattern of the list reads, through [attr_name_of],
    a name that starts with [@]. *)
Definition slices_keep_at (patterns : list string) : bool :=
  forallb (λ p, implb (Py.startswith ".//*[@" p)
                      (Py.startswith "@" (attr_name_of p))) patterns.

(** The three extractors that end in a keyword scan, each with its
    keywords and its structural patterns. *)
Definition keyword_scans
  : list (list string * list string * (Element → option string)) :=
  [ (["isrc"], isrc_patterns, _extract_isrc);
    (["title"; "tracktitle"], track_title_patterns, _extract_track_title);
    (["artist"; "performer"; "creator"], artist_patterns, _extract_artist) ].

(** The keyword scan passes an element by when neither its tag nor the
    name of any of its attributes holds a keyword. *)
Definition passed_by (names : list string) (x : Element) : Prop :=
  Py.any_in names (Py.lower (tag x)) = false ∧
  ∀ k v, (k, v) ∈ attrib x → Py.any_in names (Py.lower k) = false.

(** *** Manifests *)

Definition record_count (m : manifest) : nat :=
  match m with
  | MFrame df => nrows df
  | MList l => length l
  | MDict d => length d
  end.

(** The record a locator designates. *)
Definition record_at (m : manifest) (idx : label) : option record :=
  match m, idx with
  | MFrame df, _ => row_dict df <$> label_pos idx (index df)
  | MList l, LInt n => l !! n
  | MDict d, LStr key =>
      match dict_get key d with
      | Some (VDict r) => Some r
      | _ => None
      end
  | _, _ => None
  end.

(** The value of field [k] of the record at [idx]. *)
Definition field (m : manifest) (idx : label) (k : string) : option value :=
  match m with
  | MFrame df => p ← label_pos idx (index df); cell df p k
  | _ => r ← record_at m idx; dict_get k r
  end.

(** The field names of each record. *)
Definition field_sets (m : manifest) : list (list string) :=
  match m with
  | MFrame df => replicate (nrows df) (column_names df)
  | MList l => dict_keys <$> l
  | MDict d => (λ kv, match kv.2 with VDict r => dict_keys r | _ => [] end) <$> d
  end.

Definition written_manifest (w : written) : option manifest :=
  match w with
  | WCsv df | WExcel df => Some (MFrame df)
  | WJson doc => doc
  end.

(** A table as [read_csv] and [read_excel] build it: rows labelled
    [0 .. n-1] and every column as long as the index. *)
Definition wf_frame (df : DataFrame) : Prop :=
  index df = LInt <$> seq 0 (nrows df) ∧
  ∀ c, c ∈ columns df → length (values c) = nrows df.

(** A well-formed table that has the three metadata columns. *)
Definition frame_ready (df : DataFrame) : Prop :=
  wf_frame df ∧ ∀ k, k ∈ new_columns → has_column k df = true.

(** Does the manifest lack a column the update is going to create? *)
Definition lacks_column (m : manifest) (k : string) : bool :=
  match m with
  | MFrame df => negb (has_column k df)
  | _ => false
  end.

Definition wf_manifest (m : manifest) : Prop :=
  match m with
  | MFrame df => wf_frame df
  | _ => True
  end.

(** The keys of a mapping-shaped manifest are distinct, as [json.load]
    leaves them. *)
Definition keys_unique (m : manifest) : Prop :=
  match m with
  | MDict d => NoDup d.*1
  | _ => True
  end.

(** A locator of the index designates a record. *)
Definition valid_locator (m : manifest) (idx : label) : Prop :=
  match m, idx with
  | MFrame df, _ => idx ∈ index df
  | MList l, LInt n => (n < length l)%nat
  | MDict d, LStr key => ∃ r, dict_get key d = Some (VDict r)
  | _, _ => False
  end.

(** The index and the data of a handler agree. *)
Definition consistent (h : handler) : Prop :=
  match manifest_data h with
  | Some m =>
      wf_manifest m ∧
      ∀ filename idx, file_index h !! filename = Some idx → valid_locator m idx
  | None => True
  end.

(** Does the output path ask for a table (CSV or Excel), for JSON? *)
Definition table_suffix (output_path : string) : bool :=
  let suffix := Py.lower (Pathlib.suffix output_path) in
  String.eqb suffix ".csv" || String.eqb suffix ".xls" || String.eqb suffix ".xlsx".

Definition json_suffix (output_path : string) : bool :=
  String.eqb (Py.lower (Pathlib.suffix output_path)) ".json".

(** The outputs a manifest of each shape can be saved to: a table to a
    table format, a list to any of the formats, a mapping to JSON. *)
Definition saves (m : manifest) (output_path : string) : bool :=
  match m with
  | MFrame _ => table_suffix output_path
  | MList _ => table_suffix output_path || json_suffix output_path
  | MDict _ => json_suffix output_path
  end.

(** The writes to the output path do not fail. *)
Definition writable (io : Writers) (output_path : string) : Prop :=
  (∀ df, to_csv io df output_path = Ok tt) ∧
  (∀ df, to_excel io df output_path = Ok tt) ∧
  open_w io output_path = Ok tt ∧
  (∀ doc, json_dump io doc output_path = Ok tt).

(** A cell after writes to other rows of its column: as it was, or, for
    an integer, the float it has been converted to. *)
Definition up_to_float (old new : option value) : Prop :=
  new = old ∨ ∃ n, old = Some (VInt n) ∧ new = Some (astype_float (VInt n)).

(** Is [k] a column of dtype [int64] of a table-shaped manifest? *)
Definition int64_column (m : manifest) (k : string) : bool :=
  match m with
  | MFrame df =>
      match get_column k df with
      | Some c => is_int64 c
      | None => false
      end
  | _ => false
  end.

(** The locators a list of metadata records resolves to. *)
Definition targets (h : handler) (metadata_list : list Metadata) (idx : label) : Prop :=
  ∃ md, md ∈ metadata_list ∧
        file_index h !! Pathlib.name (XMLProcessor.audio_filename md) = Some idx.

(** *** The specification's reading of [resolve] (section 4.5, contract 2)

    Reduce to the bare filename; on an index hit the record at the
    locator; on a miss the first record whose path field holds the
    filename as a substring. *)
Definition records (m : manifest) : list record :=
  match m with
  | MFrame df => row_dict df <$> seq 0 (nrows df)
  | MList l => l
  | MDict d => omap (λ kv, match kv.2 with VDict r => Some r | _ => None end) d
  end.

Definition path_field (m : manifest) : option string :=
  match m with
  | MFrame df => _find_path_column (Some m)
  | _ => _find_path_key_in_dict (default [] (head (records m)))
  end.

Definition holds_filename (path_key filename : string) (r : record) : bool :=
  match dict_get path_key r with
  | Some (VStr s) => Py.contains filename s
  | _ => false
  end.



Definition resolve_spec (h : handler) (audio_filename : string) : option record :=
  let filename := Pathlib.name audio_filename in
  m ← manifest_data h;
  match file_index h !! filename with
  | Some idx => record_at m idx
  | None =>
      path_key ← path_field m;
      List.find (holds_filename path_key filename) (records m)
  end.

End Model.

(** ** Sample inputs *)

Module Samples.
Import ET XMLProcessor Pd ManifestHandler.

(** [<Recording><Track filename="track01.wav"/></Recording>] *)
Definition track_with_filename : Element :=
  Elem "Track" [("filename", "track01.wav")] None [].
Definition doc_attr_filename : Element :=
  Elem "Recording" [] None [track_with_filename].

(** [<Recording><Track title="Blue"/></Recording>] and its siblings. *)
Definition doc_attr_title : Element :=
  Elem "Recording" [] None [Elem "Track" [("title", "Blue")] None []].
Definition doc_attr_artist : Element :=
  Elem "Recording" [] None [Elem "Track" [("artist", "Ann")] None []].
Definition doc_attr_isrc : Element :=
  Elem "Recording" [] None [Elem "Track" [("isrc", "US-ABC-12-00001")] None []].

(** [<Recording><Track filename="track01.wav">hello</Track></Recording>] *)
Definition track_with_text : Element :=
  Elem "Track" [("filename", "track01.wav")] (Some "hello") [].
Definition doc_attr_and_text : Element :=
  Elem "Recording" [] None [track_with_text].

(** A document whose keyword scan would stop at the [audioFile]
    attribute, ahead of the [FileName] tag:
    [<Release><Resource audioFile="other.wav"/>
      <SoundRecording>intro.wav<FileName>track01.wav</FileName></SoundRecording>
     </Release>] *)
Definition file_name_tag : Element :=
  Elem "FileName" [] (Some "track01.wav") [].
Definition doc_tag_and_fallback : Element :=
  Elem "Release" []
       None
       [ Elem "Resource" [("audioFile", "other.wav")] None [];
         Elem "SoundRecording" [] (Some "intro.wav") [file_name_tag] ].

(** The scenario of the specification:
    [<Recording><FileName>track01.wav</FileName><ISRC>US-ABC-12-00001</ISRC></Recording>] *)
Definition doc_scenario : Element :=
  Elem "Recording" [] None
       [ Elem "FileName" [] (Some "track01.wav") [];
         Elem "ISRC" [] (Some "US-ABC-12-00001") [] ].

Definition parse_scenario (path : string) : res Element :=
  if String.eqb path "in/track01.xml" then Ok doc_scenario else Raise ParseError.

(** A table with a priority name in second place and slash-bearing
    text in another column. *)
Definition frame_notes_url_path : DataFrame :=
  {| index := [LInt 0];
     columns :=
       [ {| name := "notes"; is_object := true; values := [VStr "a/b"] |};
         {| name := "url"; is_object := true; values := [VStr "s3://bucket/x.wav"] |};
         {| name := "path"; is_object := true; values := [VStr "/bucket/x.wav"] |} ] |}.

(** The manifest of the specification's scenario: a column [path] with
    the row ["/bucket/audio/track01.wav"], and a second row. *)
Definition frame_scenario : DataFrame :=
  {| index := [LInt 0; LInt 1];
     columns :=
       [ {| name := "id"; is_object := false; values := [VInt 1; VInt 2] |};
         {| name := "path"; is_object := true;
            values := [VStr "/bucket/audio/track01.wav";
                       VStr "/bucket/audio/x_track02.wav"] |} ] |}.

Definition list_scenario : list (list (string * value)) :=
  [ [("id", VInt 1); ("path", VStr "/bucket/audio/track01.wav")];
    [("id", VInt 2); ("path", VStr "/bucket/audio/x_track02.wav")] ].

Definition dict_scenario : list (string * value) :=
  [ ("a", VDict [("path", VStr "/bucket/audio/track01.wav")]);
    ("b", VDict [("path", VStr "/bucket/audio/x_track02.wav")]) ].

(** A list whose records have no path-like field. *)
Definition list_without_path : list (list (string * value)) :=
  [ [("id", VInt 1); ("title", VStr "Blue")] ].

Definition io_scenario : Readers :=
  {| read_csv := λ _, Ok frame_scenario;
     json_load := λ path,
       if String.eqb path "in/list.json" then Ok (MList list_scenario)
       else if String.eqb path "in/map.json" then Ok (MDict dict_scenario)
       else if String.eqb path "in/empty.json" then Ok (MDict [])
       else if String.eqb path "in/nopath.json" then Ok (MList list_without_path)
       else Raise OSError;
     read_excel := λ _, Raise OSError |}.

(** The handlers [load_manifest] leaves for the three shapes. *)
Definition index_scenario (a b : label) : gmap string label :=
  <["x_track02.wav" := b]> (<["track01.wav" := a]> ∅).

Definition handler_frame : handler :=
  {| manifest_path := "in/manifest.csv";
     manifest_data := Some (MFrame frame_scenario);
     file_index := index_scenario (LInt 0) (LInt 1) |}.

Definition handler_list : handler :=
  {| manifest_path := "in/list.json";
     manifest_data := Some (MList list_scenario);
     file_index := index_scenario (LInt 0) (LInt 1) |}.

Definition handler_dict : handler :=
  {| manifest_path := "in/map.json";
     manifest_data := Some (MDict dict_scenario);
     file_index := index_scenario (LStr "a") (LStr "b") |}.

Definition md_track01 : Metadata :=
  {| xml_path := "in/track01.xml"; audio_filename := "track01.wav";
     isrc := Some "US-ABC-12-00001"; track_title := None; artist := None |}.

(** A record whose filename is no key of the index, though the second
    path holds it as a substring. *)
Definition md_track02 : Metadata :=
  {| xml_path := "in/track02.xml"; audio_filename := "track02.wav";
     isrc := Some "US-ABC-12-00002"; track_title := Some "Two"; artist := None |}.

(** A table whose only path differs from [track01.wav] in the
    character that stands where the filename has its dot. *)
Definition frame_underscore : DataFrame :=
  {| index := [LInt 0];
     columns :=
       [ {| name := "path"; is_object := true;
            values := [VStr "/bucket/audio/track01_wav"] |} ] |}.

Definition handler_underscore : handler :=
  {| manifest_path := "in/manifest.csv";
     manifest_data := Some (MFrame frame_underscore);
     file_index := <["track01_wav" := LInt 0]> ∅ |}.

(** Writers that succeed, with an inference that leaves the cells as
    they are, and writers for a path that cannot be written. *)
Definition writers_ok : Writers :=
  {| infer := λ _, (true, λ v, v);
     frame_of_mapping := λ _, Raise ValueError;
     to_csv := λ _ _, Ok tt;
     open_w := λ _, Ok tt;
     json_dump := λ _ _, Ok tt;
     to_excel := λ _ _, Ok tt |}.

Definition writers_readonly : Writers :=
  {| infer := infer writers_ok;
     frame_of_mapping := frame_of_mapping writers_ok;
     to_csv := λ _ _, Raise OSError;
     open_w := λ _, Raise OSError;
     json_dump := λ _ _, Raise OSError;
     to_excel := λ _ _, Raise OSError |}.


Definition no_regex (pat : string) : res (string → bool) := Raise ReError.

End Samples.

(** ** The rest of the program: batch coordinator and pipeline *)

Module Os.

(** [s.endswith(sfx)]: some tail of [s] is [sfx]. *)
Fixpoint endswith (sfx s : string) : bool :=
  String.eqb s sfx ||
  match s with
  | EmptyString => false
  | String _ rest => endswith sfx rest
  end.

(** [os.path.join(a, b)] on POSIX. *)
Definition join (a b : string) : string :=
  if Py.startswith "/" b then b
  else if String.eqb a "" || endswith "/" a then a ++ b
  else a ++ "/" ++ b.

(** [xs[:limit]] for an integer [limit]: a negative one counts from the
    end. *)
Definition slice_to {A} (limit : Z) (xs : list A) : list A :=
  if (0 <=? limit)%Z then take (Z.to_nat limit) xs
  else take (length xs - Z.to_nat (- limit)) xs.

End Os.

Module Batch.
Import XMLProcessor.

(** The matching files of one directory of the walk. *)
Definition xml_in (entry : string * list string) : list string :=
  Os.join entry.1 <$> List.filter (λ file, Os.endswith ".xml" (Py.lower file)) entry.2.

(** [find_xml_files]; [walk] is what [os.walk(self.xml_dir)] yields, each
    directory with its file names (the sub-directory names, which the
    loop ignores, are left out). *)
Definition find_xml_files (walk : list (string * list string)) (limit : option Z)
  : list string :=
  let xml_files := List.flat_map xml_in walk in
  match limit with
  | Some n =>
      if negb (n =? 0)%Z && (n <? Z.of_nat (length xml_files))%Z
      then Os.slice_to n xml_files
      else xml_files
  | None => xml_files
  end.

(** [process_xml_files].  [executor.map] gives the results in the order of
    the files, whatever the scheduling of the workers; the pool itself
    refuses a worker count that is not positive. *)
Definition process_xml_files (parse : string → res ET.Element)
           (walk : list (string * list string))
           (max_workers limit : option Z) : res (list Metadata) :=
  let xml_files := find_xml_files walk limit in
  match xml_files with
  | [] => Ok []
  | _ =>
      match max_workers with
      | Some w => if (w <=? 0)%Z then Raise ValueError
                  else Ok (omap (_process_single_xml parse) xml_files)
      | None => Ok (omap (_process_single_xml parse) xml_files)
      end
  end.

End Batch.

Module Main.
Import XMLProcessor ManifestHandler.

(** Truth value of a manifest entry. *)
Definition value_truthy (v : value) : bool :=
  match v with
  | VNone => false
  | VBool b => b
  | VInt n => negb (n =? 0)%Z
  | VFloat m _ => negb (m =? 0)%Z
  | VStr s => negb (String.eqb s "")
  | VList l => match l with [] => false | _ => true end
  | VDict d => match d with [] => false | _ => true end
  end.

(** What the pipeline reads from outside. *)
Record World : Type := {
  isfile : string → bool;
  isdir : string → bool;
  mkdir_parents : string → res unit;
  walk : string → list (string * list string);
  parse : string → res ET.Element;
  readers : Readers;
  re_compile : string → res (string → bool);
  writers : Writers
}.

(** The body of the matching loop of [process_catalogue]: the state is the
    list [matched_metadata] and the counter [unmatched_count]. *)
Definition match_one (w : World) (h : handler) (acc : list Metadata * nat)
           (result : Metadata) : res (list Metadata * nat) :=
  if negb (Py.truthy (Some (audio_filename result))) then Ok acc
  else
    manifest_entry ← find_audio_file (re_compile w) h (audio_filename result);
    match manifest_entry with
    | Some entry =>
        if value_truthy entry then Ok (acc.1 ++ [result], acc.2)
        else Ok (acc.1, S acc.2)
    | None => Ok (acc.1, S acc.2)
    end.

(** [process_catalogue].  The function returns the output path; the model
    returns what has been written under it ([None] when the function
    returns [None] and writes nothing). *)
Definition process_catalogue (w : World) (manifest_path xml_dir output_path : string)
           (max_workers limit : option Z) : res (option written) :=
  manifest_handler ← load_manifest (readers w) (__init__ manifest_path);
  xml_results ← Batch.process_xml_files (parse w) (walk w xml_dir) max_workers limit;
  match xml_results with
  | [] => Ok None
  | _ =>
      matching ← foldM (match_one w manifest_handler) xml_results ([], 0%nat);
      updated ← update_manifest_with_metadata manifest_handler matching.1;
      out ← save_updated_manifest (writers w) updated output_path;
      Ok (Some out)
  end.

(** The parsed command line. *)
Module Args.
Record t : Type := {
  manifest : string;
  xml_dir : string;
  output : string;
  max_workers : option Z;
  limit : option Z
}.
End Args.

(** [main]: the exit code, or the exception that leaves it (creating the
    output directory happens outside the [try]). *)
Definition main (w : World) (args : Args.t) : res Z :=
  if negb (isfile w (Args.manifest args)) then Ok 1%Z
  else if negb (isdir w (Args.xml_dir args)) then Ok 1%Z
  else
    _ ← mkdir_parents w (Args.output args);
    match process_catalogue w (Args.manifest args) (Args.xml_dir args)
                            (Args.output args) (Args.max_workers args)
                            (Args.limit args) with
    | Ok (Some _) => Ok 0%Z
    | Ok None => Ok 1%Z
    | Raise _ => Ok 1%Z
    end.

End Main.

(** ** Observations on the index *)

Module IndexModel.
Import Pd ManifestHandler.

(** The path field the index is built on, as [_build_file_index] finds it
    for each shape. *)
Definition sniffed_key (m : manifest) : option string :=
  match m with
  | MFrame df => _find_path_column (Some m)
  | MList l => _find_path_key_in_dict (default [] (head l))
  | MDict ((_, VDict sample) :: _) => _find_path_key_in_dict sample
  | MDict _ => None
  end.

(** The records in the order the index loop visits them: each locator
    with the value the loop reads as its path (or the exception the read
    raises). *)
Definition index_entries (m : manifest) (path_key : string) : list (label * res value) :=
  match m with
  | MFrame df => (λ ir : label * list (string * value), (ir.1, getitem path_key ir.2))
                   <$> iterrows df
  | MList l => imap (λ i item, (LInt i, Ok (get_or_empty path_key item))) l
  | MDict d => (λ ki : string * value, (LStr ki.1, entry_get path_key ki.2)) <$> d
  end.

(** The bare filename an entry is indexed under. *)
Definition entry_filename (e : label * res value) : res string :=
  v ← e.2; path_name v.

(** Does the index of the handler hold the bare filename of the record? *)
Definition index_hit (h : handler) (md : XMLProcessor.Metadata) : bool :=
  bool_decide (file_index h !! Pathlib.name (XMLProcessor.audio_filename md) ≠ None).

(** Does the matching loop of [process_catalogue] accept the record, that
    is, does [find_audio_file] return a manifest entry that is true? *)
Definition resolves (re : string → res (string → bool)) (h : handler)
           (md : XMLProcessor.Metadata) : bool :=
  match find_audio_file re h (XMLProcessor.audio_filename md) with
  | Ok (Some entry) => Main.value_truthy entry
  | _ => false
  end.

(** What the index loop stores for an entry. *)
Definition entry_body (e : label * res value) : res (string * label) :=
  filename ← entry_filename e; Ok (filename, e.1).

End IndexModel.

Module MoreSamples.
Import Pd ManifestHandler Main.

Definition walk_tree : list (string * list string) :=
  [ ("in", ["track01.xml"; "notes.txt"; "BROKEN.XML"]);
    ("in/sub", ["b.xml"]) ].

Definition world : World :=
  {| isfile := λ p, String.eqb p "in/manifest.csv" || String.eqb p "in/list.json";
     isdir := λ p, String.eqb p "in";
     mkdir_parents := λ _, Ok tt;
     walk := λ d, if String.eqb d "in" then walk_tree else [];
     parse := λ p, if String.eqb p "in/track01.xml" then Ok Samples.doc_scenario
                   else Raise ParseError;
     readers := Samples.io_scenario;
     re_compile := Samples.no_regex;
     writers := Samples.writers_ok |}.

(** The same with XML files that all fail to parse. *)
Definition world_broken : World :=
  {| isfile := isfile world; isdir := isdir world;
     mkdir_parents := mkdir_parents world; walk := walk world;
     parse := λ _, Raise ParseError;
     readers := readers world; re_compile := re_compile world;
     writers := writers world |}.

(** A list with two records of the same bare filename. *)
Definition list_duplicates : list (list (string * value)) :=
  [ [("path", VStr "/a/track01.wav")];
    [("path", VStr "/b/other.wav")];
    [("path", VStr "/c/track01.wav")] ].

Definition handler_duplicates : handler :=
  {| manifest_path := "in/dup.json";
     manifest_data := Some (MList list_duplicates);
     file_index := ∅ |}.

Definition md_other : XMLProcessor.Metadata :=
  {| XMLProcessor.xml_path := "in/other.xml";
     XMLProcessor.audio_filename := "track01.wav";
     XMLProcessor.isrc := None;
     XMLProcessor.track_title := Some "Blue";
     XMLProcessor.artist := Some "Ann" |}.

End MoreSamples.

(** * Theorems *)

Import ET XMLProcessor Pd ManifestHandler Model.

(** ** Field extractor *)

Lemma iter_self e : In e (iter e).
Proof. destruct e; simpl; auto. Qed.

Lemma iter_unfold e : iter e = e :: descendants e.
Proof. by destruct e. Qed.

Lemma iter_trans a b c : In a (iter b) → In b (iter c) → In a (iter c).
Proof.
  revert a b. induction c as [t at' x cs IH] using Element_nested_ind.
  intros a b Hab Hbc. simpl in Hbc. destruct Hbc as [<- | Hbc]; [done |].
  simpl. right. apply in_flat_map in Hbc as (c' & Hc' & Hb).
  apply in_flat_map. exists c'. split; [done |].
  rewrite Forall_forall in IH. eapply IH; eauto. by apply list_elem_of_In.
Qed.

Lemma descendants_iter a b : In a (descendants b) → In a (iter b).
Proof. rewrite iter_unfold. by right. Qed.

Lemma children_iter a b : In a (children b) → In a (iter b).
Proof.
  intros H. apply descendants_iter. unfold descendants.
  apply in_flat_map. exists a. split; [done | apply iter_self].
Qed.

Lemma select_within root s result :
  (∀ e, In e result → In e (iter root)) →
  ∀ e, In e (select s result) → In e (iter root).
Proof.
  intros Hres e. destruct s as [t | t | key]; simpl.
  - intros (elem & Helem & He)%in_flat_map. apply filter_In in He as [He _].
    eapply iter_trans; [by apply descendants_iter | by apply Hres].
  - intros (elem & Helem & He)%in_flat_map. apply filter_In in He as [He _].
    eapply iter_trans; [by apply children_iter | by apply Hres].
  - intros [He _]%filter_In. by apply Hres.
Qed.

(** Whatever a path selects is an element of the document. *)
Lemma findall_within root path e : In e (findall root path) → In e (iter root).
Proof.
  unfold findall. destruct (compile path) as [steps |]; [| done].
  assert (Hinit : ∀ e, In e [root] → In e (iter root)).
  { intros ? [<- | []]. apply iter_self. }
  revert Hinit. generalize [root]. induction steps as [| s steps IH]; simpl.
  - intros result Hres. apply Hres.
  - intros result Hres. apply IH. by apply select_within.
Qed.

(** What the first pattern of the filename list selects: the proper
    descendants named [FileName], in document order. *)
Lemma findall_FileName root :
  findall root ".//FileName"
  = List.filter (λ e, String.eqb (tag e) "FileName") (descendants root).
Proof.
  unfold findall.
  replace (compile ".//FileName") with (Some [Descendant (Named "FileName")])
    by (by vm_compute).
  simpl. by rewrite app_nil_r.
Qed.

(** The attribute pattern selects the proper descendants that carry the
    attribute. *)
Lemma findall_attr_filename root :
  findall root ".//*[@filename]"
  = List.filter (λ e, bool_decide (get e "filename" ≠ None)) (descendants root).
Proof.
  unfold findall.
  replace (compile ".//*[@filename]")
    with (Some [Descendant AnyTag; HasAttr "filename"]) by (by vm_compute).
  simpl. rewrite app_nil_r. f_equal.
  induction (descendants root) as [| e l IH]; [done |]. simpl. by rewrite IH.
Qed.

Lemma structural_phase_cons attr_of pattern rest root :
  structural_phase attr_of (pattern :: rest) root
  = match findall root pattern with
    | e0 :: _ =>
        if Py.startswith ".//*[@" pattern
        then Some (get e0 (attr_of pattern))
        else Some (text e0)
    | [] => structural_phase attr_of rest root
    end.
Proof. reflexivity. Qed.

Lemma structural_phase_first attr_of patterns root i pattern e rest :
  patterns !! i = Some pattern →
  (∀ j p, (j < i)%nat → patterns !! j = Some p → findall root p = []) →
  findall root pattern = e :: rest →
  structural_phase attr_of patterns root
  = Some (if Py.startswith ".//*[@" pattern then get e (attr_of pattern) else text e).
Proof.
  revert i. induction patterns as [| p0 patterns IH]; intros i Hi Hbefore Hfound.
  - done.
  - rewrite structural_phase_cons. destruct i as [| i].
    + injection Hi as ->. rewrite Hfound. by destruct (Py.startswith _ _).
    + rewrite (Hbefore 0%nat p0); [| lia | done].
      apply (IH i); [done | | done].
      intros j p Hj Hp. apply (Hbefore (S j)); [lia | done].
Qed.

Lemma first_structural_match_spec patterns root pattern e :
  first_structural_match patterns root = Some (pattern, e) →
  ∃ i rest, patterns !! i = Some pattern ∧
            (∀ j p, (j < i)%nat → patterns !! j = Some p → findall root p = []) ∧
            findall root pattern = e :: rest.
Proof.
  induction patterns as [| p0 patterns IH]; simpl; [done |].
  destruct (findall root p0) as [| e0 rest0] eqn:Hp0.
  - intros (i & rest & Hi & Hbefore & Hfound)%IH.
    exists (S i), rest. split_and!; [done | | done].
    intros [| j] p Hj Hp; simpl in Hp; [by injection Hp as <- |].
    apply (Hbefore j); [lia | done].
  - intros [= <- <-]. exists 0%nat, rest0. split_and!; [done | | done]. lia.
Qed.

Lemma first_structural_match_none attr_of patterns root :
  first_structural_match patterns root = None ↔
  structural_phase attr_of patterns root = None.
Proof.
  induction patterns as [| p0 patterns IH]; [done |].
  rewrite structural_phase_cons. simpl.
  destruct (findall root p0); [done |]. by destruct (Py.startswith _ _).
Qed.

Lemma first_structural_match_none_iff patterns root :
  first_structural_match patterns root = None ↔
  ∀ p, p ∈ patterns → findall root p = [].
Proof.
  induction patterns as [| p0 patterns IH]; simpl.
  - split; [| done]. intros _ p Hp. by apply elem_of_nil in Hp.
  - destruct (findall root p0) eqn:Hp0.
    + rewrite IH. split.
      * intros H p [-> | Hp]%elem_of_cons; [done | by apply H].
      * intros H p Hp. apply H. by right.
    + split; [done |]. intros H. rewrite (H p0) in Hp0; [done | by left].
Qed.

Lemma structural_phase_result attr_of patterns root r :
  structural_phase attr_of patterns root = Some r →
  ∃ p e, p ∈ patterns ∧ In e (findall root p) ∧
         r = if Py.startswith ".//*[@" p then get e (attr_of p) else text e.
Proof.
  induction patterns as [| p0 patterns IH]; [done |].
  rewrite structural_phase_cons.
  destruct (findall root p0) as [| e0 rest] eqn:Hp0.
  - intros (p & e & Hp & He & Hr)%IH. exists p, e. split_and!; [by right | done | done].
  - intros Hr. exists p0, e0. split_and!; [by left | rewrite Hp0; by left |].
    destruct (Py.startswith _ _); by injection Hr.
Qed.

Lemma assoc_Some key a v : assoc key a = Some v → (key, v) ∈ a.
Proof.
  induction a as [| [k w] a IH]; simpl; [done |].
  destruct (String.eqb_spec k key) as [-> | _].
  - intros [= ->]. by left.
  - intros H. right. by apply IH.
Qed.

Lemma parsed_no_at_attribute root e key :
  parsed root → In e (iter root) → Py.startswith "@" key = true → get e key = None.
Proof.
  intros Hroot He Hkey. destruct (get e key) as [v |] eqn:Hget; [| done].
  apply assoc_Some in Hget. apply list_elem_of_In in He.
  destruct (Hroot e He) as [_ Hattr]. rewrite (Hattr key v Hget) in Hkey. done.
Qed.

(** The attribute patterns of the three loops that slice the pattern all
    read a name that starts with [@]. *)
Lemma slices_keep_at_all :
  slices_keep_at audio_filename_patterns = true ∧
  slices_keep_at track_title_patterns = true ∧
  slices_keep_at artist_patterns = true.
Proof. by vm_compute. Qed.

(** In a parsed document a structural match through an attribute pattern
    of a slicing loop yields nothing, and one through a tag pattern yields
    the text of the element. *)
Lemma structural_phase_parsed patterns root r :
  slices_keep_at patterns = true → parsed root →
  structural_phase attr_name_of patterns root = Some r →
  ∃ p e, p ∈ patterns ∧ In e (findall root p) ∧
         r = if Py.startswith ".//*[@" p then None else text e.
Proof.
  intros Hpat Hroot (p & e & Hp & He & ->)%structural_phase_result.
  exists p, e. split_and!; [done | done |].
  destruct (Py.startswith ".//*[@" p) eqn:Hattr; [| done].
  apply (parsed_no_at_attribute root); [done | by eapply findall_within |].
  unfold slices_keep_at in Hpat. rewrite forallb_forall in Hpat.
  specialize (Hpat p). rewrite Hattr in Hpat. apply Hpat. by apply list_elem_of_In.
Qed.

Lemma scan_attrs_truthy test a r :
  (∀ k v, test k v = true → Py.truthy (Some v) = true) →
  scan_attrs test a = Some r → Py.truthy r = true.
Proof.
  intros Htest. induction a as [| [k v] a IH]; simpl; [done |].
  destruct (test k v) eqn:Hkv; [| done]. intros [= <-]. by eapply Htest.
Qed.

Lemma audio_filename_fallback_truthy elem r :
  audio_filename_fallback elem = Some r → Py.truthy r = true.
Proof.
  unfold audio_filename_fallback.
  destruct (Py.any_in _ (Py.lower (tag elem))); [destruct (text elem) as [t |] |].
  - destruct (Py.truthy (Some t)) eqn:Ht; simpl.
    + destruct (Py.contains ".wav" (Py.lower t)); [by intros [= <-] |].
      apply scan_attrs_truthy. intros k v H. by repeat (apply andb_prop in H as [H ?]).
    + apply scan_attrs_truthy. intros k v H. by repeat (apply andb_prop in H as [H ?]).
  - apply scan_attrs_truthy. intros k v H. by repeat (apply andb_prop in H as [H ?]).
  - apply scan_attrs_truthy. intros k v H. by repeat (apply andb_prop in H as [H ?]).
Qed.

Lemma scan_truthy l s :
  scan audio_filename_fallback l = Some s → Py.truthy (Some s) = true.
Proof.
  induction l as [| e l IH]; simpl; [done |].
  destruct (audio_filename_fallback e) as [r |] eqn:He; [| done].
  intros ->. by apply audio_filename_fallback_truthy in He.
Qed.

(** The filename extracted from a parsed document is never empty. *)
Lemma extracted_filename_truthy root s :
  parsed root → _extract_audio_filename root = Some s → Py.truthy (Some s) = true.
Proof.
  intros Hroot. unfold _extract_audio_filename.
  destruct (structural_phase _ _ root) as [r |] eqn:Hs.
  - apply structural_phase_parsed in Hs as (p & e & _ & He & ->);
      [| apply slices_keep_at_all | done].
    destruct (Py.startswith _ p); [done |]. intros Htext.
    apply findall_within, list_elem_of_In in He. destruct (Hroot e He) as [Hne _].
    rewrite Htext in Hne. simpl. destruct (String.eqb_spec s ""); [by subst | done].
  - apply scan_truthy.
Qed.

(** C1 (the code departs from the claim).  An attribute pattern such as
    [.//*[@filename]] selects the element that carries the attribute, but
    the loops of the filename, title and artist extractors read the
    attribute name as [pattern[5:-1]], which keeps the [@]: the lookup
    finds nothing and the extractor returns no value instead of the
    attribute's value.  The ISRC extractor, which names the attribute
    outright, returns the value. *)
Theorem C1_attribute_pattern_reads_wrong_name :
  attr_name_of ".//*[@filename]" = "@filename" ∧
  findall Samples.doc_attr_filename ".//*[@filename]" = [Samples.track_with_filename] ∧
  get Samples.track_with_filename "filename" = Some "track01.wav" ∧
  _extract_audio_filename Samples.doc_attr_filename = None ∧
  _extract_track_title Samples.doc_attr_title = None ∧
  _extract_artist Samples.doc_attr_artist = None ∧
  _extract_isrc Samples.doc_attr_isrc = Some "US-ABC-12-00001".
Proof. by vm_compute. Qed.

(** The same for every parsed document: when the first pattern with a
    match is an attribute pattern, the filename extractor returns nothing. *)
Lemma attribute_match_yields_nothing root pattern e :
  parsed root →
  first_structural_match audio_filename_patterns root = Some (pattern, e) →
  Py.startswith ".//*[@" pattern = true →
  _extract_audio_filename root = None.
Proof.
  intros Hroot (i & rest & Hi & Hbefore & Hfound)%first_structural_match_spec Hattr.
  unfold _extract_audio_filename.
  rewrite (structural_phase_first _ _ _ i pattern e rest); [| done..].
  rewrite Hattr. apply (parsed_no_at_attribute root); [done | |].
  - apply findall_within with pattern. rewrite Hfound. by left.
  - pose proof slices_keep_at_all as [Hall _]. unfold slices_keep_at in Hall.
    rewrite forallb_forall in Hall. specialize (Hall pattern).
    rewrite Hattr in Hall. apply Hall. apply list_elem_of_In.
    by eapply list_elem_of_lookup_2.
Qed.

(** C3, as stated, fails: a document whose only structural match is an
    element found through the attribute pattern does not yield that
    element's text (nor the attribute's value). *)
Lemma C3_counterexample :
  ¬ (∀ root pattern e,
       first_structural_match audio_filename_patterns root = Some (pattern, e) →
       _extract_audio_filename root = text e).
Proof.
  intros H.
  specialize (H Samples.doc_attr_and_text ".//*[@filename]" Samples.track_with_text).
  by vm_compute in H; discriminate (H eq_refl).
Qed.

(** C3 (amended).  When the first pattern of the list that selects
    anything is a tag pattern, the extractor returns the text of the first
    element it selects, whatever the keyword scan would have found; when
    any structural pattern selects an element, the result is read off that
    element, and the keyword scan decides only when no pattern selects
    anything. *)
Theorem C3_structural_tag_match_wins root :
  (∀ pattern e,
     first_structural_match audio_filename_patterns root = Some (pattern, e) →
     Py.startswith ".//*[@" pattern = false →
     _extract_audio_filename root = text e) ∧
  (∀ pattern e,
     first_structural_match audio_filename_patterns root = Some (pattern, e) →
     _extract_audio_filename root = text e ∨
     ∃ key, _extract_audio_filename root = get e key) ∧
  ((∀ pattern, pattern ∈ audio_filename_patterns → findall root pattern = []) →
   _extract_audio_filename root = scan audio_filename_fallback (iter root)) ∧
  (∀ e rest,
     List.filter (λ d, String.eqb (tag d) "FileName") (descendants root) = e :: rest →
     _extract_audio_filename root = text e).
Proof.
  assert (Hmatch : ∀ pattern e,
    first_structural_match audio_filename_patterns root = Some (pattern, e) →
    _extract_audio_filename root
    = if Py.startswith ".//*[@" pattern then get e (attr_name_of pattern) else text e).
  { intros pattern e (i & rest & Hi & Hbefore & Hfound)%first_structural_match_spec.
    unfold _extract_audio_filename.
    by rewrite (structural_phase_first _ _ _ i pattern e rest). }
  split_and!.
  - intros pattern e Hfirst Htag. rewrite (Hmatch _ _ Hfirst). by rewrite Htag.
  - intros pattern e Hfirst. rewrite (Hmatch _ _ Hfirst).
    destruct (Py.startswith _ _); [right; by eexists | by left].
  - intros Hnone. apply first_structural_match_none_iff in Hnone.
    apply (first_structural_match_none attr_name_of) in Hnone.
    unfold _extract_audio_filename. by rewrite Hnone.
  - intros e rest Hfound. rewrite <- findall_FileName in Hfound.
    rewrite (Hmatch ".//FileName" e); [done |].
    change audio_filename_patterns with (".//FileName" :: tail audio_filename_patterns).
    simpl. by rewrite Hfound.
Qed.

Lemma C3_structural_tag_match_wins_witness :
  first_structural_match audio_filename_patterns Samples.doc_tag_and_fallback
  = Some (".//FileName", Samples.file_name_tag) ∧
  scan audio_filename_fallback (iter Samples.doc_tag_and_fallback) = Some "other.wav" ∧
  _extract_audio_filename Samples.doc_tag_and_fallback = Some "track01.wav".
Proof.
  split_and!; [by vm_compute | by vm_compute |].
  apply (proj1 (C3_structural_tag_match_wins Samples.doc_tag_and_fallback)
               ".//FileName" Samples.file_name_tag); by vm_compute.
Defined.

(** C6.  The document processor returns no record exactly when the parse
    raises or the document yields no audio filename; nothing is raised to
    the caller.  Otherwise the record holds the path, the filename and the
    three optional fields as extracted, an absent one being [None]. *)
Theorem C6_document_processor_failure parse xml_path :
  (∀ root, parse xml_path = Ok root → parsed root) →
  (_process_single_xml parse xml_path = None ↔
     (∃ e, parse xml_path = Raise e) ∨
     (∃ root, parse xml_path = Ok root ∧ _extract_audio_filename root = None)) ∧
  (∀ md, _process_single_xml parse xml_path = Some md →
     ∃ root, parse xml_path = Ok root ∧
       XMLProcessor.xml_path md = xml_path ∧
       _extract_audio_filename root = Some (audio_filename md) ∧
       isrc md = _extract_isrc root ∧
       track_title md = _extract_track_title root ∧
       artist md = _extract_artist root ∧
       (_extract_isrc root = None → isrc md = None ∧ isrc md ≠ Some "") ∧
       (_extract_track_title root = None →
        track_title md = None ∧ track_title md ≠ Some "") ∧
       (_extract_artist root = None → artist md = None ∧ artist md ≠ Some "")).
Proof.
  intros Hparsed. unfold _process_single_xml.
  destruct (parse xml_path) as [root | e] eqn:Hparse.
  - specialize (Hparsed root eq_refl).
    destruct (_extract_audio_filename root) as [name |] eqn:Hname.
    + rewrite (extracted_filename_truthy root name Hparsed Hname). simpl. split.
      * split; [done |]. intros [[e He] | (r & [= <-] & Hr)]; [done | congruence].
      * intros md [= <-]. exists root. simpl.
        split_and!; try done; by intros ->.
    + split.
      * split; [| done]. intros _. right. by exists root.
      * done.
  - split.
    + split; [| done]. intros _. left. by exists e.
    + done.
Qed.

Lemma doc_scenario_parsed : parsed Samples.doc_scenario.
Proof.
  intros e He. cbn in He.
  repeat (apply elem_of_cons in He as [-> | He]); [| | | by apply elem_of_nil in He];
    (split; [done | intros k v Hkv; by apply elem_of_nil in Hkv]).
Qed.

Lemma C6_document_processor_failure_witness :
  parsed Samples.doc_scenario ∧
  ∃ root, Samples.parse_scenario "in/track01.xml" = Ok root ∧
          _extract_audio_filename root = Some "track01.wav" ∧
          _extract_isrc root = Some "US-ABC-12-00001" ∧
          _extract_track_title root = None ∧
          _extract_artist root = None.
Proof.
  split; [apply doc_scenario_parsed |].
  destruct (C6_document_processor_failure Samples.parse_scenario "in/track01.xml")
    as [_ Hsome].
  - intros root [= <-]. apply doc_scenario_parsed.
  - destruct (Hsome {| xml_path := "in/track01.xml"; audio_filename := "track01.wav";
                       isrc := Some "US-ABC-12-00001"; track_title := None;
                       artist := None |})
      as (root & Hroot & _ & Hname & Hisrc & Htitle & Hartist & _); [by vm_compute |].
    exists root. simpl in *. by split_and!.
Defined.

(** ** Dictionaries *)

Lemma dict_get_set_eq {V} key (v : V) d : dict_get key (dict_set key v d) = Some v.
Proof.
  induction d as [| [k w] d IH]; simpl.
  - by rewrite String.eqb_refl.
  - destruct (String.eqb_spec k key) as [-> | Hne]; simpl.
    + by rewrite String.eqb_refl.
    + destruct (String.eqb_spec k key); [done | apply IH].
Qed.

Lemma dict_get_set_ne {V} key key' (v : V) d :
  key ≠ key' → dict_get key' (dict_set key v d) = dict_get key' d.
Proof.
  intros Hne. induction d as [| [k w] d IH]; simpl.
  - destruct (String.eqb_spec key key'); [done | done].
  - destruct (String.eqb_spec k key) as [-> | Hk]; simpl.
    + destruct (String.eqb_spec key key'); [done | done].
    + by rewrite IH.
Qed.

Lemma dict_set_noop {V} key (v : V) d : dict_get key d = Some v → dict_set key v d = d.
Proof.
  induction d as [| [k w] d IH]; simpl; [done |].
  destruct (String.eqb_spec k key) as [-> | Hk].
  - by intros [= ->].
  - intros H. by rewrite IH.
Qed.

Lemma dict_set_length {V} key (v w : V) d :
  dict_get key d = Some w → length (dict_set key v d) = length d.
Proof.
  induction d as [| [k u] d IH]; simpl; [done |].
  destruct (String.eqb_spec k key); simpl; [done |]. intros H. by rewrite IH.
Qed.

Lemma dict_has_true {V} key (d : dict V) :
  dict_has key d = true ↔ is_Some (dict_get key d).
Proof.
  unfold dict_has. destruct (dict_get key d).
  - split; [by eexists | intros _; by apply bool_decide_eq_true].
  - split; [intros H%bool_decide_eq_true; done | intros [? [=]]].
Qed.

(** ** Tables *)

Lemma dict_get_elem {V} k (v : V) (d : dict V) : (k, v) ∈ d → is_Some (dict_get k d).
Proof.
  induction d as [| [k' v'] d IH]; [by intros ?%elem_of_nil |]. simpl.
  intros [[= <- <-] | Hin]%elem_of_cons.
  - rewrite String.eqb_refl. by eexists.
  - destruct (String.eqb k' k); [by eexists | by apply IH].
Qed.

Lemma label_pos_lookup idx l p : label_pos idx l = Some p → l !! p = Some idx.
Proof.
  revert p. induction l as [| x l IH]; intros p; simpl; [done |].
  destruct (decide (x = idx)) as [-> | Hne].
  - by intros [= <-].
  - destruct (label_pos idx l) as [q |]; simpl; [| done].
    intros [= <-]. by apply IH.
Qed.

Lemma label_pos_elem idx l : idx ∈ l → is_Some (label_pos idx l).
Proof.
  induction 1 as [x l | x y l Hin IH]; simpl.
  - rewrite decide_True; [by eexists | done].
  - destruct (decide (y = x)); [by eexists |].
    destruct IH as [p ->]. by eexists.
Qed.

Lemma label_pos_lt idx l p : label_pos idx l = Some p → (p < length l)%nat.
Proof. intros H%label_pos_lookup. by eapply lookup_lt_Some. Qed.

Lemma label_pos_range n i :
  (i < n)%nat → label_pos (LInt i) (LInt <$> seq 0 n) = Some i.
Proof.
  intros Hi. assert (Hgen : ∀ k s, (s ≤ i < s + k)%nat →
    label_pos (LInt i) (LInt <$> seq s k) = Some (i - s)%nat).
  { induction k as [| k IH]; intros s Hs; [lia |]. simpl.
    destruct (decide (LInt s = LInt i)) as [[= ->] | Hne].
    - f_equal. lia.
    - assert (s ≠ i) by congruence. rewrite IH; [| lia]. simpl. f_equal. lia. }
  rewrite Hgen; [f_equal; lia | lia].
Qed.

Lemma has_column_get col df :
  has_column col df = true ↔ is_Some (get_column col df).
Proof.
  unfold has_column, get_column, column_names.
  induction (columns df) as [| c cs IH]; simpl.
  - split; [done | intros [? [=]]].
  - rewrite (String.eqb_sym col). destruct (String.eqb (name c) col); simpl.
    + split; [by eexists | done].
    + apply IH.
Qed.

Lemma has_column_false col df :
  has_column col df = false ↔ get_column col df = None.
Proof.
  pose proof (has_column_get col df) as [H1 H2].
  destruct (has_column col df), (get_column col df) as [c |]; split; try done.
  - intros _. destruct (H1 eq_refl) as [? [=]].
  - intros _. assert (false = true) by (apply H2; by eexists). done.
Qed.

Lemma get_column_name col df c : get_column col df = Some c → name c = col.
Proof.
  unfold get_column. intros [_ H]%find_some. by apply String.eqb_eq.
Qed.

Lemma get_column_elem col df c : get_column col df = Some c → c ∈ columns df.
Proof.
  unfold get_column. intros [H _]%find_some. by apply list_elem_of_In.
Qed.

Lemma get_column_set_cell_ne p col v df col' :
  col' ≠ col → get_column col' (set_cell p col v df) = get_column col' df.
Proof.
  intros Hne. unfold get_column, set_cell. simpl.
  induction (columns df) as [| c cs IH]; simpl; [done |].
  destruct (String.eqb_spec (name c) col) as [Hc | Hc]; simpl.
  - destruct (String.eqb_spec (name c) col'); [congruence | apply IH].
  - destruct (String.eqb (name c) col'); [done | apply IH].
Qed.

Lemma get_column_set_cell_eq p col v df c :
  get_column col df = Some c →
  get_column col (set_cell p col v df)
  = Some {| name := name c; is_object := is_object (hold v c);
            values := <[p := of_option v]> (values (hold v c)) |}.
Proof.
  unfold get_column, set_cell. simpl.
  induction (columns df) as [| c0 cs IH]; simpl; [done |].
  destruct (String.eqb_spec (name c0) col) as [Hc | Hc]; simpl.
  - intros [= <-]. by rewrite Hc, String.eqb_refl.
  - destruct (String.eqb_spec (name c0) col); [done | apply IH].
Qed.

Lemma has_column_set_cell p col v df col' :
  has_column col' (set_cell p col v df) = has_column col' df.
Proof.
  unfold has_column, column_names, set_cell. simpl. f_equal.
  rewrite <- list_fmap_compose. apply list_fmap_ext. intros _ c _. simpl.
  by destruct (String.eqb (name c) col).
Qed.

(** *** Making a column hold a value *)

Lemma hold_na_length c : length (values (hold_na c)) = length (values c).
Proof.
  unfold hold_na. destruct (is_int64 c); simpl; [by rewrite length_fmap |].
  by destruct (is_bool_dtype c).
Qed.

Lemma hold_length v c : length (values (hold v c)) = length (values c).
Proof. destruct v; [done | apply hold_na_length]. Qed.

Lemma hold_name v c : name (hold v c) = name c.
Proof.
  destruct v; [done |]. simpl. unfold hold_na.
  destruct (is_int64 c); [done |]. by destruct (is_bool_dtype c).
Qed.

(** A column that is not [int64] keeps its cells when it is made to hold
    a value; an [int64] column keeps them up to the conversion. *)
Lemma hold_values_stable v c : is_int64 c = false → values (hold v c) = values c.
Proof.
  intros Hc. destruct v; [done |]. simpl. unfold hold_na. rewrite Hc.
  by destruct (is_bool_dtype c).
Qed.

Lemma hold_values_lookup v c p :
  up_to_float (values c !! p) (values (hold v c) !! p).
Proof.
  destruct (is_int64 c) eqn:Hc; [| left; by rewrite hold_values_stable].
  destruct v as [s |]; [by left |]. simpl. unfold hold_na. rewrite Hc. simpl.
  rewrite list_lookup_fmap. destruct (values c !! p) as [x |] eqn:Hx; [| by left].
  apply andb_true_iff in Hc as [_ Hints]. rewrite forallb_forall in Hints.
  specialize (Hints x (proj1 (list_elem_of_In _ _) (list_elem_of_lookup_2 _ _ _ Hx))).
  destruct x; try done. right. by eexists.
Qed.

Lemma forallb_insert {A} (f : A → bool) p x (l : list A) :
  f x = false → forallb f (<[p := x]> l) = true → forallb f l = true.
Proof.
  intros Hx. revert p. induction l as [| a l IH]; intros p; [done |].
  destruct p as [| p]; simpl.
  - by rewrite Hx.
  - intros [Ha Hl]%andb_true_iff. rewrite Ha. simpl. by apply (IH p).
Qed.

(** Once a column has taken a value of the handler it is not [int64]
    unless it was and has no cells. *)
Lemma written_not_int64 p v c :
  is_int64 c = false →
  is_int64 {| name := name c; is_object := is_object (hold v c);
              values := <[p := of_option v]> (values (hold v c)) |} = false.
Proof.
  intros Hc. destruct v as [s |]; [done |].
  rewrite hold_values_stable by done. simpl. unfold hold_na. rewrite Hc.
  destruct (is_bool_dtype c) eqn:Hb; [done |].
  unfold is_int64 in *. simpl. destruct (is_object c); [done |]. simpl in *.
  destruct (forallb is_int (<[p := VNone]> (values c))) eqn:H; [| done].
  by rewrite (forallb_insert is_int p VNone (values c) eq_refl H) in Hc.
Qed.

(** Making the written column hold the same value again changes
    nothing. *)
Lemma hold_written p v c :
  hold v {| name := name c; is_object := is_object (hold v c);
            values := <[p := of_option v]> (values (hold v c)) |}
  = {| name := name c; is_object := is_object (hold v c);
       values := <[p := of_option v]> (values (hold v c)) |}.
Proof.
  destruct v as [s |]; [done |]. cbn [hold of_option]. unfold hold_na at 1.
  set (c1 := {| name := name c; is_object := is_object (hold_na c);
                values := <[p := VNone]> (values (hold_na c)) |}).
  destruct (is_int64 c1) eqn:H1.
  - apply andb_true_iff in H1 as [Hobj Hints]. simpl in Hobj, Hints.
    pose proof (forallb_insert is_int p VNone _ eq_refl Hints) as Hall.
    assert (Hnil : values (hold_na c) = []).
    { unfold hold_na in *. destruct (is_int64 c) eqn:Hc.
      - simpl in *. destruct (values c) as [| x l] eqn:Hv; [done |].
        exfalso. apply andb_true_iff in Hc as [_ Hc]. rewrite Hv in Hc. simpl in *.
        apply andb_true_iff in Hc as [Hx _]. apply andb_true_iff in Hall as [Hx' _].
        by destruct x.
      - exfalso. destruct (is_bool_dtype c) eqn:Hb; simpl in *; [done |].
        unfold is_int64 in Hc. by rewrite Hobj, Hall in Hc. }
    unfold c1. cbn [name values]. rewrite Hnil. simpl. f_equal.
    by destruct (is_object (hold_na c)).
  - destruct (is_bool_dtype c1) eqn:H2; [| done].
    exfalso. apply andb_true_iff in H2 as [Hobj Hbools]. simpl in Hobj, Hbools.
    pose proof (forallb_insert is_bool p VNone _ eq_refl Hbools) as Hall.
    unfold c1, is_int64 in H1. cbn [is_object values] in H1.
    unfold hold_na in *. destruct (is_int64 c) eqn:Hc.
    + simpl in *. destruct (values c) as [| x l] eqn:Hv; [done |].
      apply andb_true_iff in Hc as [_ Hc]. rewrite Hv in Hc. simpl in *.
      apply andb_true_iff in Hc as [Hx _]. apply andb_true_iff in Hall as [Hx' _].
      by destruct x.
    + destruct (is_bool_dtype c) eqn:Hb; simpl in *; [done |].
      unfold is_bool_dtype in Hb. by rewrite Hobj, Hall in Hb.
Qed.

Lemma wf_frame_set_cell p col v df : wf_frame df → wf_frame (set_cell p col v df).
Proof.
  intros [Hidx Hlen]. split; [done |].
  intros c (c0 & -> & Hc0)%list_elem_of_fmap. unfold nrows. simpl.
  destruct (String.eqb (name c0) col); simpl.
  - rewrite length_insert, hold_length. by apply Hlen.
  - by apply Hlen.
Qed.

Lemma set_cell_idem p col v df :
  set_cell p col v (set_cell p col v df) = set_cell p col v df.
Proof.
  unfold set_cell. simpl. f_equal. rewrite <- list_fmap_compose.
  apply list_fmap_ext. intros _ c _. simpl.
  destruct (String.eqb (name c) col) eqn:Hc; simpl; rewrite Hc; [| done].
  rewrite (hold_written p v c). simpl. by rewrite list_insert_insert_eq.
Qed.

Lemma set_cell_comm p col v p' col' v' df :
  col ≠ col' →
  set_cell p col v (set_cell p' col' v' df) = set_cell p' col' v' (set_cell p col v df).
Proof.
  intros Hne. unfold set_cell. simpl. f_equal. rewrite <- !list_fmap_compose.
  apply list_fmap_ext. intros _ c _. simpl.
  destruct (String.eqb_spec (name c) col) as [Hc | Hc];
    destruct (String.eqb_spec (name c) col') as [Hc' | Hc']; simpl.
  - congruence.
  - destruct (String.eqb_spec (name c) col); [| done].
    destruct (String.eqb_spec (name c) col'); done.
  - destruct (String.eqb_spec (name c) col'); [| done].
    destruct (String.eqb_spec (name c) col); done.
  - destruct (String.eqb_spec (name c) col); [done |].
    destruct (String.eqb_spec (name c) col'); done.
Qed.

Lemma loc_set_in_frame idx col v df p :
  has_column col df = true → label_pos idx (index df) = Some p →
  loc_set idx col v df = set_cell p col v df.
Proof. intros Hcol Hp. unfold loc_set. by rewrite Hcol, Hp. Qed.

(** ** The update loop over any of the three shapes *)

Lemma foldM_app {A B} (body : B → A → res B) l1 l2 acc :
  foldM body (l1 ++ l2) acc = (acc' ← foldM body l1 acc; foldM body l2 acc').
Proof.
  revert acc. induction l1 as [| x l1 IH]; intros acc; simpl; [done |].
  destruct (body acc x) as [acc' | e]; simpl; [apply IH | done].
Qed.

Lemma foldM_cons {A B} (body : B → A → res B) x l acc :
  foldM body (x :: l) acc = (acc' ← body acc x; foldM body l acc').
Proof. reflexivity. Qed.

Lemma new_columns_cases k :
  k ∈ new_columns ↔ k = "isrc" ∨ k = "track_title" ∨ k = "artist".
Proof.
  unfold new_columns. rewrite !elem_of_cons, elem_of_nil. tauto.
Qed.

Lemma up_to_float_refl a : up_to_float a a.
Proof. by left. Qed.

Lemma up_to_float_trans a b c : up_to_float a b → up_to_float b c → up_to_float a c.
Proof.
  intros [-> | (n & -> & ->)] [-> | (n' & Hb & ->)]; [by left | right | right | done];
    by eexists.
Qed.

(** What the handler has written is no integer, so no conversion
    touches it. *)
Lemma up_to_float_written a b o :
  a = Some (of_option o) → up_to_float a b → b = Some (of_option o).
Proof.
  intros -> [-> | (n & Hn & _)]; [done |]. by destruct o.
Qed.

Section Store.
Context {M : Type}.
Variable set : label → string → option string → M → res M.
Variable fld : M → label → string → option value.
Variable cnt : M → nat.
Variable inv : M → Prop.
Variable valid : M → label → Prop.
Variable settled : M → string → Prop.

(** A write of one of the three fields at a valid locator succeeds and
    stores the value.  It touches no other field.  In the other records
    it leaves the field as it was, up to the conversion of an integer to
    a float, and exactly as it was where the field is settled, which it
    then stays. *)
Hypothesis set_ok : ∀ m idx k v,
  inv m → valid m idx → k ∈ new_columns →
  ∃ m', set idx k v m = Ok m' ∧ inv m' ∧ (∀ i, valid m i → valid m' i) ∧
        cnt m' = cnt m ∧ fld m' idx k = Some (of_option v) ∧
        (∀ i k', k' ≠ k → fld m' i k' = fld m i k') ∧
        (∀ i, i ≠ idx → up_to_float (fld m i k) (fld m' i k)) ∧
        (∀ i, i ≠ idx → settled m k → fld m' i k = fld m i k) ∧
        (∀ k', settled m k' → settled m' k').

(** Repeating a write changes nothing. *)
Hypothesis set_again : ∀ m idx k v m',
  inv m → valid m idx → k ∈ new_columns →
  set idx k v m = Ok m' → set idx k v m' = Ok m'.

(** A write that changes nothing still changes nothing after a write
    to another field. *)
Hypothesis set_keeps : ∀ m idx k v k' v' m',
  inv m → valid m idx → k ∈ new_columns → k' ∈ new_columns → k ≠ k' →
  set idx k v m = Ok m → set idx k' v' m = Ok m' → set idx k v m' = Ok m'.

(** One write, seen from the other records. *)
Lemma set_elsewhere m idx k v m' :
  inv m → valid m idx → k ∈ new_columns → set idx k v m = Ok m' →
  (∀ i k', i ≠ idx → up_to_float (fld m i k') (fld m' i k')) ∧
  (∀ i k', i ≠ idx → settled m k' → fld m' i k' = fld m i k').
Proof.
  intros Hinv Hvalid Hk Hset.
  destruct (set_ok m idx k v Hinv Hvalid Hk)
    as (m1 & H1 & _ & _ & _ & _ & Hother & Hrel & Hsame & _).
  rewrite Hset in H1. injection H1 as <-. split; intros i k' Hi.
  - destruct (decide (k' = k)) as [-> | Hne]; [by apply Hrel |].
    rewrite Hother by done. apply up_to_float_refl.
  - intros Hs. destruct (decide (k' = k)) as [-> | Hne]; [by apply Hsame |].
    by apply Hother.
Qed.

Lemma write3_spec m idx md :
  inv m → valid m idx →
  ∃ m', write3 set idx md m = Ok m' ∧ inv m' ∧ (∀ i, valid m i → valid m' i) ∧
        cnt m' = cnt m ∧
        fld m' idx "isrc" = Some (of_option (isrc md)) ∧
        fld m' idx "track_title" = Some (of_option (track_title md)) ∧
        fld m' idx "artist" = Some (of_option (artist md)) ∧
        (∀ i k', k' ∉ new_columns → fld m' i k' = fld m i k') ∧
        (∀ i k', i ≠ idx → up_to_float (fld m i k') (fld m' i k')) ∧
        (∀ i k', i ≠ idx → settled m k' → fld m' i k' = fld m i k') ∧
        (∀ k', settled m k' → settled m' k') ∧
        write3 set idx md m' = Ok m'.
Proof.
  intros Hinv Hvalid.
  assert (Hi : "isrc" ∈ new_columns) by (apply new_columns_cases; auto).
  assert (Ht : "track_title" ∈ new_columns) by (apply new_columns_cases; auto).
  assert (Ha : "artist" ∈ new_columns) by (apply new_columns_cases; auto).
  destruct (set_ok m idx "isrc" (isrc md) Hinv Hvalid Hi)
    as (m1 & H1 & Hinv1 & Hv1 & Hc1 & Hf1 & Ho1 & _ & _ & Hs1).
  destruct (set_ok m1 idx "track_title" (track_title md) Hinv1 (Hv1 _ Hvalid) Ht)
    as (m2 & H2 & Hinv2 & Hv2 & Hc2 & Hf2 & Ho2 & _ & _ & Hs2).
  destruct (set_ok m2 idx "artist" (artist md) Hinv2 (Hv2 _ (Hv1 _ Hvalid)) Ha)
    as (m3 & H3 & Hinv3 & Hv3 & Hc3 & Hf3 & Ho3 & _ & _ & Hs3).
  destruct (set_elsewhere _ _ _ _ _ Hinv Hvalid Hi H1) as [R1 E1].
  destruct (set_elsewhere _ _ _ _ _ Hinv1 (Hv1 _ Hvalid) Ht H2) as [R2 E2].
  destruct (set_elsewhere _ _ _ _ _ Hinv2 (Hv2 _ (Hv1 _ Hvalid)) Ha H3) as [R3 E3].
  pose proof (set_again _ _ _ _ _ Hinv Hvalid Hi H1) as D1.
  pose proof (set_again _ _ _ _ _ Hinv1 (Hv1 _ Hvalid) Ht H2) as D2.
  pose proof (set_again _ _ _ _ _ Hinv2 (Hv2 _ (Hv1 _ Hvalid)) Ha H3) as D3.
  assert (D1' : set idx "isrc" (isrc md) m2 = Ok m2).
  { by apply (set_keeps m1 idx _ _ "track_title" (track_title md)); auto. }
  assert (D1'' : set idx "isrc" (isrc md) m3 = Ok m3).
  { by apply (set_keeps m2 idx _ _ "artist" (artist md)); auto. }
  assert (D2' : set idx "track_title" (track_title md) m3 = Ok m3).
  { by apply (set_keeps m2 idx _ _ "artist" (artist md)); auto. }
  exists m3. unfold write3. rewrite H1. simpl. rewrite H2. simpl. rewrite H3.
  split_and!; auto.
  - lia.
  - rewrite Ho3, Ho2 by done. done.
  - rewrite Ho3 by done. done.
  - intros i k' Hk. rewrite Ho3, Ho2, Ho1; [done | | |]; intros ->; by apply Hk.
  - intros i k' Hne. eapply up_to_float_trans; [| by apply R3].
    eapply up_to_float_trans; [by apply R1 | by apply R2].
  - intros i k' Hne Hs. rewrite E3, E2, E1; auto.
  - rewrite D1''. simpl. rewrite D2'. simpl. done.
Qed.

Lemma apply_one_hit_eq (fi : gmap string label) m md idx :
  fi !! Pathlib.name (audio_filename md) = Some idx →
  apply_one set fi m md = write3 set idx md m.
Proof. intros H. unfold apply_one. by rewrite H. Qed.

Lemma apply_one_miss (fi : gmap string label) m md :
  fi !! Pathlib.name (audio_filename md) = None → apply_one set fi m md = Ok m.
Proof. intros H. unfold apply_one. by rewrite H. Qed.

Lemma apply_all_skip (fi : gmap string label) l1 md l2 m :
  fi !! Pathlib.name (audio_filename md) = None →
  foldM (apply_one set fi) (l1 ++ md :: l2) m
  = foldM (apply_one set fi) (l1 ++ l2) m.
Proof.
  intros Hmiss. rewrite !foldM_app.
  destruct (foldM _ l1 m) as [m1 | e]; simpl; [| done].
  by rewrite (apply_one_miss fi m1 md Hmiss).
Qed.

Lemma apply_all_spec (fi : gmap string label) mds m :
  inv m → (∀ n idx, fi !! n = Some idx → valid m idx) →
  ∃ m', foldM (apply_one set fi) mds m = Ok m' ∧ inv m' ∧
        (∀ i, valid m i → valid m' i) ∧ cnt m' = cnt m ∧
        (∀ i k', k' ∉ new_columns → fld m' i k' = fld m i k') ∧
        (∀ i k', (∀ md, md ∈ mds → fi !! Pathlib.name (audio_filename md) ≠ Some i) →
                 up_to_float (fld m i k') (fld m' i k')) ∧
        (∀ i k', (∀ md, md ∈ mds → fi !! Pathlib.name (audio_filename md) ≠ Some i) →
                 settled m k' → fld m' i k' = fld m i k') ∧
        (∀ k', settled m k' → settled m' k').
Proof.
  revert m. induction mds as [| md mds IH]; intros m Hinv Hfi.
  - exists m. simpl. split_and!; auto using up_to_float_refl.
  - rewrite foldM_cons.
    destruct (fi !! Pathlib.name (audio_filename md)) as [idx |] eqn:Hhit.
    + rewrite (apply_one_hit_eq fi m md idx Hhit).
      destruct (write3_spec m idx md Hinv (Hfi _ _ Hhit))
        as (m1 & -> & Hinv1 & Hv1 & Hc1 & _ & _ & _ & Ho1 & Hr1 & He1 & Hs1 & _).
      change (Ok m1 ≫= foldM (apply_one set fi) mds)
        with (foldM (apply_one set fi) mds m1).
      destruct (IH m1 Hinv1) as (m' & Hm' & Hinv' & Hv' & Hc' & Ho' & Hr' & He' & Hs').
      { intros n i Hn. apply Hv1. by eapply Hfi. }
      assert (Hne : ∀ i, (∀ md0, md0 ∈ md :: mds →
                                 fi !! Pathlib.name (audio_filename md0) ≠ Some i) →
                         i ≠ idx).
      { intros i Hmd ->. apply (Hmd md); [by left | done]. }
      assert (Hrest : ∀ i, (∀ md0, md0 ∈ md :: mds →
                                   fi !! Pathlib.name (audio_filename md0) ≠ Some i) →
                           ∀ md0, md0 ∈ mds →
                                  fi !! Pathlib.name (audio_filename md0) ≠ Some i).
      { intros i Hmd md0 Hmd0. apply Hmd. by right. }
      exists m'. split_and!; auto; [lia | | |].
      * intros i k' Hk. by rewrite Ho', Ho1.
      * intros i k' Hmd. eapply up_to_float_trans; [apply Hr1 | apply Hr']; auto.
      * intros i k' Hmd Hs. rewrite He', He1; auto.
    + rewrite (apply_one_miss fi m md Hhit).
      change (Ok m ≫= foldM (apply_one set fi) mds)
        with (foldM (apply_one set fi) mds m).
      destruct (IH m Hinv Hfi) as (m' & Hm' & Hinv' & Hv' & Hc' & Ho' & Hr' & He' & Hs').
      exists m'. split_and!; auto.
      * intros i k' Hmd. apply Hr'. intros md' Hmd'. apply Hmd. by right.
      * intros i k' Hmd. apply He'. intros md' Hmd'. apply Hmd. by right.
Qed.

(** One record with an index hit: the three fields are written, and
    applying the record again, at once or afterwards, changes nothing. *)
Lemma apply_one_hit (fi : gmap string label) m md idx :
  inv m → valid m idx → fi !! Pathlib.name (audio_filename md) = Some idx →
  ∃ m', foldM (apply_one set fi) [md] m = Ok m' ∧
        foldM (apply_one set fi) [md] m' = Ok m' ∧
        foldM (apply_one set fi) [md; md] m = Ok m' ∧
        inv m' ∧ (∀ i, valid m i → valid m' i) ∧
        fld m' idx "isrc" = Some (of_option (isrc md)) ∧
        fld m' idx "track_title" = Some (of_option (track_title md)) ∧
        fld m' idx "artist" = Some (of_option (artist md)).
Proof.
  intros Hinv Hvalid Hhit.
  destruct (write3_spec m idx md Hinv Hvalid)
    as (m' & Hw & Hinv' & Hv' & _ & Hi & Ht & Ha & _ & _ & _ & _ & Hagain).
  assert (E1 : foldM (apply_one set fi) [md] m = Ok m').
  { by rewrite foldM_cons, (apply_one_hit_eq fi m md idx Hhit), Hw. }
  assert (E2 : foldM (apply_one set fi) [md] m' = Ok m').
  { by rewrite foldM_cons, (apply_one_hit_eq fi m' md idx Hhit), Hagain. }
  assert (E3 : foldM (apply_one set fi) [md; md] m = Ok m').
  { rewrite foldM_cons, (apply_one_hit_eq fi m md idx Hhit), Hw. exact E2. }
  exists m'. by split_and!.
Qed.

End Store.

(** A store whose writes touch nothing but the written field of the
    written record meets the requirements above, with every field
    settled. *)
Lemma exact_store {M} (fld : M → label → string → option value) (m m' : M)
      (idx : label) (k : string) :
  (∀ i k', i ≠ idx ∨ k' ≠ k → fld m' i k' = fld m i k') →
  (∀ i k', k' ≠ k → fld m' i k' = fld m i k') ∧
  (∀ i, i ≠ idx → up_to_float (fld m i k) (fld m' i k)) ∧
  (∀ i, i ≠ idx → True → fld m' i k = fld m i k) ∧
  (∀ k' : string, True → True).
Proof.
  intros H. split_and!; [| | | done].
  - intros i k' Hk. apply H. by right.
  - intros i Hi. left. apply H. by left.
  - intros i Hi _. apply H. by left.
Qed.

(** *** The list shape as a store *)

Lemma field_list_int (l : list record) (n : nat) k :
  field (MList l) (LInt n) k = (item ← l !! n; dict_get k item).
Proof. reflexivity. Qed.

Lemma list_setitem_int (n : nat) key v (l : list record) item :
  l !! n = Some item →
  list_setitem (LInt n) key v l = Ok (<[n := dict_set key (of_option v) item]> l).
Proof. intros H. unfold list_setitem, list_getitem. by rewrite H. Qed.

Lemma list_set_ok (l : list record) idx k v :
  True → valid_locator (MList l) idx → k ∈ new_columns →
  ∃ l', list_setitem idx k v l = Ok l' ∧ True ∧
        (∀ i, valid_locator (MList l) i → valid_locator (MList l') i) ∧
        length l' = length l ∧ field (MList l') idx k = Some (of_option v) ∧
        (∀ i k', i ≠ idx ∨ k' ≠ k → field (MList l') i k' = field (MList l) i k').
Proof.
  intros _ Hvalid _. destruct idx as [n | s]; [| done]. simpl in Hvalid.
  destruct (lookup_lt_is_Some_2 l n Hvalid) as [item Hitem].
  exists (<[n := dict_set k (of_option v) item]> l).
  split_and!; [by apply list_setitem_int | done | | by rewrite length_insert | |].
  - intros [n' | s']; simpl; [| done]. by rewrite length_insert.
  - rewrite field_list_int, list_lookup_insert_eq by done. simpl.
    apply dict_get_set_eq.
  - intros [n' | s'] k' Hne; [| done]. rewrite !field_list_int.
    destruct (decide (n' = n)) as [-> | Hn].
    + rewrite list_lookup_insert_eq, Hitem by done. simpl.
      apply dict_get_set_ne. destruct Hne as [H | H]; [done | congruence].
    + by rewrite list_lookup_insert_ne.
Qed.

Lemma list_setitem_inv idx k v (l l' : list record) :
  list_setitem idx k v l = Ok l' →
  ∃ n item, idx = LInt n ∧ l !! n = Some item ∧ l' = <[n := dict_set k (of_option v) item]> l.
Proof.
  unfold list_setitem, list_getitem. destruct idx as [n | s]; [| done].
  destruct (l !! n) as [item |] eqn:Hitem; [| done].
  intros [= <-]. by exists n, item.
Qed.

Lemma list_set_again (l : list record) idx k v l' :
  True → valid_locator (MList l) idx → k ∈ new_columns →
  list_setitem idx k v l = Ok l' → list_setitem idx k v l' = Ok l'.
Proof.
  intros _ _ _ (n & item & -> & Hitem & ->)%list_setitem_inv.
  assert (Hn : (n < length l)%nat) by by eapply lookup_lt_Some.
  rewrite (list_setitem_int n k v _ (dict_set k (of_option v) item))
    by by rewrite list_lookup_insert_eq.
  by rewrite list_insert_insert_eq, (dict_set_noop k (of_option v) (dict_set k (of_option v) item))
    by apply dict_get_set_eq.
Qed.

Lemma list_set_keeps (l : list record) idx k v k' v' l' :
  True → valid_locator (MList l) idx → k ∈ new_columns → k' ∈ new_columns →
  k ≠ k' →
  list_setitem idx k v l = Ok l → list_setitem idx k' v' l = Ok l' →
  list_setitem idx k v l' = Ok l'.
Proof.
  intros _ _ _ _ Hne (n & item & -> & Hitem & Hsame)%list_setitem_inv
         (n' & item' & [= <-] & Hitem' & ->)%list_setitem_inv.
  rewrite Hitem in Hitem'. injection Hitem' as <-.
  assert (Hn : (n < length l)%nat) by by eapply lookup_lt_Some.
  assert (Hk : dict_get k item = Some (of_option v)).
  { assert (H : l !! n = Some (dict_set k (of_option v) item)).
    { rewrite Hsame at 1. by rewrite list_lookup_insert_eq. }
    rewrite Hitem in H. injection H as H. rewrite H at 1. apply dict_get_set_eq. }
  rewrite (list_setitem_int n k v _ (dict_set k' (of_option v') item))
    by by rewrite list_lookup_insert_eq.
  rewrite list_insert_insert_eq. f_equal. f_equal. apply dict_set_noop.
  rewrite dict_get_set_ne by done. done.
Qed.

(** *** The mapping shape as a store *)

Lemma field_dict_str d key k :
  field (MDict d) (LStr key) k
  = match dict_get key d with
    | Some (VDict r) => dict_get k r
    | _ => None
    end.
Proof.
  unfold field, record_at. destruct (dict_get key d) as [[] |]; done.
Qed.

Lemma dict_setitem_str key field v d r :
  dict_get key d = Some (VDict r) →
  dict_setitem (LStr key) field v d
  = Ok (dict_set key (VDict (dict_set field (of_option v) r)) d).
Proof. intros H. unfold dict_setitem, dict_getitem. by rewrite H. Qed.

Lemma dict_setitem_inv idx k v d d' :
  dict_setitem idx k v d = Ok d' →
  ∃ key r, idx = LStr key ∧ dict_get key d = Some (VDict r) ∧
           d' = dict_set key (VDict (dict_set k (of_option v) r)) d.
Proof.
  unfold dict_setitem, dict_getitem. destruct idx as [n | key]; [done |].
  destruct (dict_get key d) as [[] |] eqn:Hitem; try done.
  intros [= <-]. by eexists _, _.
Qed.

Lemma dict_set_ok d idx k v :
  True → valid_locator (MDict d) idx → k ∈ new_columns →
  ∃ d', dict_setitem idx k v d = Ok d' ∧ True ∧
        (∀ i, valid_locator (MDict d) i → valid_locator (MDict d') i) ∧
        length d' = length d ∧ field (MDict d') idx k = Some (of_option v) ∧
        (∀ i k', i ≠ idx ∨ k' ≠ k → field (MDict d') i k' = field (MDict d) i k').
Proof.
  intros _ Hvalid _. destruct idx as [n | key]; [done |].
  destruct Hvalid as [r Hr].
  exists (dict_set key (VDict (dict_set k (of_option v) r)) d).
  split_and!; [by apply dict_setitem_str | done | | by eapply dict_set_length | |].
  - intros [n' | key']; simpl; [done |]. intros [r' Hr'].
    destruct (decide (key = key')) as [<- | Hne].
    + rewrite dict_get_set_eq. by eexists.
    + rewrite dict_get_set_ne by done. by eexists.
  - rewrite field_dict_str, dict_get_set_eq. apply dict_get_set_eq.
  - intros [n' | key'] k' Hne; [done |]. rewrite !field_dict_str.
    destruct (decide (key = key')) as [<- | Hkey].
    + rewrite dict_get_set_eq, Hr. apply dict_get_set_ne.
      destruct Hne as [H | H]; [done | congruence].
    + by rewrite dict_get_set_ne.
Qed.

Lemma dict_set_again d idx k v d' :
  True → valid_locator (MDict d) idx → k ∈ new_columns →
  dict_setitem idx k v d = Ok d' → dict_setitem idx k v d' = Ok d'.
Proof.
  intros _ _ _ (key & r & -> & Hr & ->)%dict_setitem_inv.
  rewrite (dict_setitem_str key k v _ (dict_set k (of_option v) r)) by apply dict_get_set_eq.
  f_equal. apply dict_set_noop.
  rewrite dict_get_set_eq.
  by rewrite (dict_set_noop k (of_option v) (dict_set k (of_option v) r)) by apply dict_get_set_eq.
Qed.

Lemma dict_set_keeps d idx k v k' v' d' :
  True → valid_locator (MDict d) idx → k ∈ new_columns → k' ∈ new_columns →
  k ≠ k' →
  dict_setitem idx k v d = Ok d → dict_setitem idx k' v' d = Ok d' →
  dict_setitem idx k v d' = Ok d'.
Proof.
  intros _ _ _ _ Hne (key & r & -> & Hr & Hsame)%dict_setitem_inv
         (key' & r' & [= <-] & Hr' & ->)%dict_setitem_inv.
  rewrite Hr in Hr'. injection Hr' as <-.
  assert (Hk : dict_get k r = Some (of_option v)).
  { assert (H : dict_get key d = Some (VDict (dict_set k (of_option v) r))).
    { rewrite Hsame at 1. apply dict_get_set_eq. }
    rewrite Hr in H. injection H as H. rewrite H at 1. apply dict_get_set_eq. }
  rewrite (dict_setitem_str key k v _ (dict_set k' (of_option v') r)) by apply dict_get_set_eq.
  f_equal. apply dict_set_noop. rewrite dict_get_set_eq. do 2 f_equal.
  symmetry. apply dict_set_noop. by rewrite dict_get_set_ne.
Qed.

(** The list and the mapping in the form the update loop asks for. *)
Lemma list_store_ok (l : list record) idx k v :
  True → valid_locator (MList l) idx → k ∈ new_columns →
  ∃ l', list_setitem idx k v l = Ok l' ∧ True ∧
        (∀ i, valid_locator (MList l) i → valid_locator (MList l') i) ∧
        length l' = length l ∧ field (MList l') idx k = Some (of_option v) ∧
        (∀ i k', k' ≠ k → field (MList l') i k' = field (MList l) i k') ∧
        (∀ i, i ≠ idx → up_to_float (field (MList l) i k) (field (MList l') i k)) ∧
        (∀ i, i ≠ idx → True → field (MList l') i k = field (MList l) i k) ∧
        (∀ k' : string, True → True).
Proof.
  intros H Hvalid Hk.
  destruct (list_set_ok l idx k v H Hvalid Hk) as (l' & Hset & _ & Hv & Hc & Hf & Ho).
  exists l'. split_and!; try done; by apply (exact_store (λ x, field (MList x)) l l' idx k).
Qed.

Lemma dict_store_ok d idx k v :
  True → valid_locator (MDict d) idx → k ∈ new_columns →
  ∃ d', dict_setitem idx k v d = Ok d' ∧ True ∧
        (∀ i, valid_locator (MDict d) i → valid_locator (MDict d') i) ∧
        length d' = length d ∧ field (MDict d') idx k = Some (of_option v) ∧
        (∀ i k', k' ≠ k → field (MDict d') i k' = field (MDict d) i k') ∧
        (∀ i, i ≠ idx → up_to_float (field (MDict d) i k) (field (MDict d') i k)) ∧
        (∀ i, i ≠ idx → True → field (MDict d') i k = field (MDict d) i k) ∧
        (∀ k' : string, True → True).
Proof.
  intros H Hvalid Hk.
  destruct (dict_set_ok d idx k v H Hvalid Hk) as (d' & Hset & _ & Hv & Hc & Hf & Ho).
  exists d'. split_and!; try done; by apply (exact_store (λ x, field (MDict x)) d d' idx k).
Qed.

(** *** The table shape as a store *)

Lemma frame_setitem_in_frame idx col v df p :
  has_column col df = true → label_pos idx (index df) = Some p →
  frame_setitem idx col v df = Ok (set_cell p col v df).
Proof. intros Hcol Hp. unfold frame_setitem. by rewrite (loc_set_in_frame _ _ _ _ p). Qed.

Lemma cell_set_cell_eq p col v df :
  wf_frame df → has_column col df = true → (p < nrows df)%nat →
  cell (set_cell p col v df) p col = Some (of_option v).
Proof.
  intros [_ Hlen] [c Hc]%has_column_get Hp. unfold cell.
  rewrite (get_column_set_cell_eq _ _ _ _ c Hc). simpl.
  apply list_lookup_insert_eq. rewrite hold_length, (Hlen c); [done |].
  by eapply get_column_elem.
Qed.

(** The cells of the other columns stay as they are. *)
Lemma cell_set_cell_ne p col v df p' col' :
  col' ≠ col → cell (set_cell p col v df) p' col' = cell df p' col'.
Proof. intros Hcol. unfold cell. by rewrite get_column_set_cell_ne. Qed.

(** The other cells of the written column stay as they are, up to the
    conversion the column undergoes. *)
Lemma cell_set_cell_row p col v df p' :
  p' ≠ p → up_to_float (cell df p' col) (cell (set_cell p col v df) p' col).
Proof.
  intros Hp. unfold cell. destruct (get_column col df) as [c |] eqn:Hc.
  - rewrite (get_column_set_cell_eq _ _ _ _ c Hc). simpl.
    rewrite list_lookup_insert_ne by done. apply hold_values_lookup.
  - apply has_column_false in Hc.
    rewrite <- (has_column_set_cell p col v df col) in Hc.
    apply has_column_false in Hc. rewrite Hc. by left.
Qed.

Lemma cell_set_cell_settled p col v df p' :
  p' ≠ p → int64_column (MFrame df) col = false →
  cell (set_cell p col v df) p' col = cell df p' col.
Proof.
  intros Hp Hs. unfold cell. simpl in Hs.
  destruct (get_column col df) as [c |] eqn:Hc.
  - rewrite (get_column_set_cell_eq _ _ _ _ c Hc). simpl.
    rewrite list_lookup_insert_ne by done. by rewrite hold_values_stable.
  - apply has_column_false in Hc.
    rewrite <- (has_column_set_cell p col v df col) in Hc.
    apply has_column_false in Hc. by rewrite Hc.
Qed.

(** A column that is not [int64] does not become so by a write. *)
Lemma set_cell_settled p col v df k :
  int64_column (MFrame df) k = false →
  int64_column (MFrame (set_cell p col v df)) k = false.
Proof.
  simpl. destruct (decide (k = col)) as [-> | Hne].
  - destruct (get_column col df) as [c |] eqn:Hc.
    + rewrite (get_column_set_cell_eq _ _ _ _ c Hc). apply written_not_int64.
    + apply has_column_false in Hc.
      rewrite <- (has_column_set_cell p col v df col) in Hc.
      apply has_column_false in Hc. by rewrite Hc.
  - by rewrite get_column_set_cell_ne.
Qed.

Lemma frame_set_ok df idx k v :
  frame_ready df → valid_locator (MFrame df) idx → k ∈ new_columns →
  ∃ df', frame_setitem idx k v df = Ok df' ∧ frame_ready df' ∧
         (∀ i, valid_locator (MFrame df) i → valid_locator (MFrame df') i) ∧
         nrows df' = nrows df ∧ field (MFrame df') idx k = Some (of_option v) ∧
         (∀ i k', k' ≠ k → field (MFrame df') i k' = field (MFrame df) i k') ∧
         (∀ i, i ≠ idx → up_to_float (field (MFrame df) i k) (field (MFrame df') i k)) ∧
         (∀ i, i ≠ idx → int64_column (MFrame df) k = false →
               field (MFrame df') i k = field (MFrame df) i k) ∧
         (∀ k', int64_column (MFrame df) k' = false →
                int64_column (MFrame df') k' = false).
Proof.
  intros [Hwf Hcols] Hvalid Hk. simpl in Hvalid.
  destruct (label_pos_elem _ _ Hvalid) as [p Hp].
  exists (set_cell p k v df).
  assert (Hpos : ∀ i p', i ≠ idx → label_pos i (index df) = Some p' → p' ≠ p).
  { intros i p' Hi Hp' ->. apply label_pos_lookup in Hp, Hp'. congruence. }
  split_and!; [apply frame_setitem_in_frame; auto | | done | done | | | | |].
  - split; [by apply wf_frame_set_cell |].
    intros k' Hk'. rewrite has_column_set_cell. by apply Hcols.
  - simpl. rewrite Hp. simpl. apply cell_set_cell_eq; auto.
    by eapply label_pos_lt.
  - intros i k' Hne. simpl. destruct (label_pos i (index df)) as [p' |] eqn:Hp'; [| done].
    simpl. by apply cell_set_cell_ne.
  - intros i Hi. simpl. destruct (label_pos i (index df)) as [p' |] eqn:Hp'; [| by left].
    simpl. apply cell_set_cell_row. by apply (Hpos i).
  - intros i Hi Hs. cbn [field index set_cell].
    destruct (label_pos i (index df)) as [p' |] eqn:Hp'; [| done].
    simpl. apply cell_set_cell_settled; [by apply (Hpos i) | done].
  - intros k'. apply set_cell_settled.
Qed.

Lemma frame_setitem_inv df idx k v df' :
  frame_ready df → valid_locator (MFrame df) idx → k ∈ new_columns →
  frame_setitem idx k v df = Ok df' →
  ∃ p, label_pos idx (index df) = Some p ∧ df' = set_cell p k v df.
Proof.
  intros [Hwf Hcols] Hvalid Hk. simpl in Hvalid.
  destruct (label_pos_elem _ _ Hvalid) as [p Hp].
  rewrite (frame_setitem_in_frame _ _ _ _ p) by auto.
  intros [= <-]. by exists p.
Qed.

Lemma frame_set_again df idx k v df' :
  frame_ready df → valid_locator (MFrame df) idx → k ∈ new_columns →
  frame_setitem idx k v df = Ok df' → frame_setitem idx k v df' = Ok df'.
Proof.
  intros Hready Hvalid Hk H.
  destruct (frame_setitem_inv _ _ _ _ _ Hready Hvalid Hk H) as (p & Hp & ->).
  rewrite (frame_setitem_in_frame _ _ _ _ p); [by rewrite set_cell_idem | | done].
  rewrite has_column_set_cell. by apply Hready.
Qed.

Lemma frame_set_keeps df idx k v k' v' df' :
  frame_ready df → valid_locator (MFrame df) idx →
  k ∈ new_columns → k' ∈ new_columns → k ≠ k' →
  frame_setitem idx k v df = Ok df → frame_setitem idx k' v' df = Ok df' →
  frame_setitem idx k v df' = Ok df'.
Proof.
  intros Hready Hvalid Hk Hk' Hne Hsame H.
  destruct (frame_setitem_inv _ _ _ _ _ Hready Hvalid Hk Hsame) as (p & Hp & Hdf).
  destruct (frame_setitem_inv _ _ _ _ _ Hready Hvalid Hk' H) as (p' & Hp' & ->).
  rewrite Hp in Hp'. injection Hp' as <-.
  rewrite (frame_setitem_in_frame _ _ _ _ p); [| | done].
  - by rewrite set_cell_comm, <- Hdf.
  - rewrite has_column_set_cell. by apply Hready.
Qed.

(** *** Creating the three columns *)

Lemma has_column_add col col' df :
  has_column col (add_none_column col' df)
  = has_column col df || String.eqb col col'.
Proof.
  unfold has_column, column_names, add_none_column. simpl.
  rewrite fmap_app, existsb_app. simpl. by rewrite orb_false_r.
Qed.

Lemma wf_frame_add col df : wf_frame df → wf_frame (add_none_column col df).
Proof.
  intros [Hidx Hlen]. split; [done |].
  intros c [Hc | Hc%list_elem_of_singleton]%elem_of_app.
  - by apply Hlen.
  - subst c. simpl. by rewrite length_replicate.
Qed.

Lemma wf_frame_ensure col df : wf_frame df → wf_frame (ensure_column df col).
Proof.
  intros H. unfold ensure_column. destruct (has_column col df); [done |].
  by apply wf_frame_add.
Qed.

Lemma has_column_ensure col col' df :
  has_column col (ensure_column df col')
  = has_column col df || String.eqb col col'.
Proof.
  unfold ensure_column. destruct (has_column col' df) eqn:H.
  - destruct (String.eqb_spec col col') as [-> | _].
    + by rewrite H.
    + by rewrite orb_false_r.
  - apply has_column_add.
Qed.

(** The columns after the loop [for col in ['isrc', 'track_title',
    'artist']]: the old ones, then the missing ones, empty. *)
Lemma ensure_columns_columns df :
  columns (List.fold_left ensure_column new_columns df)
  = columns df ++
    (none_series (nrows df) <$>
       List.filter (λ col, negb (has_column col df)) new_columns).
Proof.
  unfold new_columns. simpl. unfold ensure_column at 3.
  destruct (has_column "isrc" df) eqn:H1; simpl;
    unfold ensure_column at 2; rewrite ?has_column_add, ?H1;
    destruct (has_column "track_title" df) eqn:H2; simpl;
    unfold ensure_column; rewrite ?has_column_add, ?H1, ?H2;
    destruct (has_column "artist" df) eqn:H3; simpl;
    rewrite ?app_nil_r, <- ?app_assoc; done.
Qed.

Lemma ensure_columns_index df :
  index (List.fold_left ensure_column new_columns df) = index df.
Proof.
  assert (H : ∀ col d, index (ensure_column d col) = index d).
  { intros col d. unfold ensure_column. by destruct (has_column col d). }
  unfold new_columns. simpl. by rewrite !H.
Qed.

Lemma ensure_columns_ready df :
  wf_frame df → frame_ready (List.fold_left ensure_column new_columns df).
Proof.
  intros Hwf. split.
  - unfold new_columns. simpl. by do 3 apply wf_frame_ensure.
  - intros k Hk. unfold new_columns. simpl. rewrite !has_column_ensure.
    apply new_columns_cases in Hk as [-> | [-> | ->]]; simpl;
      by rewrite ?orb_true_r.
Qed.

Lemma find_app_bool {A} (f : A → bool) l1 l2 :
  List.find f (l1 ++ l2)
  = match List.find f l1 with
    | Some x => Some x
    | None => List.find f l2
    end.
Proof.
  induction l1 as [| x l1 IH]; simpl; [done |]. by destruct (f x).
Qed.

Lemma existsb_eqb_elem k (l : list string) :
  existsb (String.eqb k) l = true ↔ k ∈ l.
Proof.
  induction l as [| x l IH]; simpl.
  - split; [done | by intros ?%elem_of_nil].
  - rewrite elem_of_cons, orb_true_iff, IH.
    destruct (String.eqb_spec k x); intuition congruence.
Qed.

Lemma find_none_series k n (f : string → bool) cols :
  List.find (λ c, String.eqb (name c) k) (none_series n <$> List.filter f cols)
  = if existsb (String.eqb k) cols && f k then Some (none_series n k) else None.
Proof.
  induction cols as [| c cols IH]; simpl; [done |].
  destruct (String.eqb_spec k c) as [<- | Hne]; simpl.
  - destruct (f k) eqn:Hf; simpl.
    + by rewrite String.eqb_refl.
    + rewrite IH. by rewrite andb_false_r.
  - destruct (f c); simpl; [| done].
    destruct (String.eqb_spec c k); [congruence | done].
Qed.

Lemma ensure_columns_get k df :
  get_column k (List.fold_left ensure_column new_columns df)
  = match get_column k df with
    | Some c => Some c
    | None => if existsb (String.eqb k) new_columns
              then Some (none_series (nrows df) k) else None
    end.
Proof.
  unfold get_column at 1. rewrite ensure_columns_columns, find_app_bool.
  fold (get_column k df). destruct (get_column k df) as [c |] eqn:Hc; [done |].
  rewrite find_none_series. apply has_column_false in Hc. rewrite Hc. simpl.
  by rewrite andb_true_r.
Qed.

Lemma field_frame df idx k :
  field (MFrame df) idx k = (p ← label_pos idx (index df); cell df p k).
Proof. reflexivity. Qed.

Lemma ensure_columns_field df idx k :
  (has_column k df = true ∨ k ∉ new_columns →
   field (MFrame (List.fold_left ensure_column new_columns df)) idx k
   = field (MFrame df) idx k) ∧
  (has_column k df = false → k ∈ new_columns → idx ∈ index df →
   field (MFrame (List.fold_left ensure_column new_columns df)) idx k
   = Some VNone).
Proof.
  rewrite !field_frame, ensure_columns_index. unfold cell. split.
  - intros Hk. destruct (label_pos idx (index df)) as [p |]; [| done].
    cbn [mbind option_bind].
    rewrite ensure_columns_get. destruct (get_column k df) as [c |] eqn:Hc; [done |].
    destruct Hk as [Hk | Hk].
    + apply has_column_false in Hc. congruence.
    + destruct (existsb (String.eqb k) new_columns) eqn:Hex; [| done].
      by apply existsb_eqb_elem in Hex.
  - intros Hmiss Hk Hidx. destruct (label_pos_elem _ _ Hidx) as [p Hp].
    rewrite Hp. cbn [mbind option_bind]. rewrite ensure_columns_get.
    apply has_column_false in Hmiss. rewrite Hmiss.
    apply existsb_eqb_elem in Hk. rewrite Hk. cbn [mbind option_bind none_series values].
    apply lookup_replicate_2. by eapply label_pos_lt.
Qed.

(** ** The update as a whole *)

Lemma not_targets h mds idx :
  ¬ targets h mds idx ↔
  ∀ md, md ∈ mds → file_index h !! Pathlib.name (audio_filename md) ≠ Some idx.
Proof.
  unfold targets. split.
  - intros Hno md Hmd Hhit. apply Hno. by exists md.
  - intros Hall (md & Hmd & Hhit). by apply (Hall md).
Qed.

Lemma ensure_columns_settled df k :
  int64_column (MFrame df) k = false →
  int64_column (MFrame (List.fold_left ensure_column new_columns df)) k = false.
Proof.
  unfold int64_column. rewrite ensure_columns_get.
  destruct (get_column k df) as [c |]; [done |].
  intros _. by destruct (existsb (String.eqb k) new_columns).
Qed.

(** On a consistent handler the update succeeds and stays consistent; it
    keeps the index, the number of records and every field that is not
    one of the three.  The three fields of a record that no metadata
    record resolves to are kept too, up to the conversion of an integer
    column of a table, and exactly where the column is no integer column
    (a table gets the missing columns, empty). *)
Lemma update_spec h m mds :
  manifest_data h = Some m → consistent h →
  ∃ m', update_manifest_with_metadata h mds = Ok (with_data h m') ∧
        consistent (with_data h m') ∧
        record_count m' = record_count m ∧
        (∀ idx k, k ∉ new_columns → field m' idx k = field m idx k) ∧
        (∀ idx k, ¬ targets h mds idx → lacks_column m k = false →
                  up_to_float (field m idx k) (field m' idx k)) ∧
        (∀ idx k, ¬ targets h mds idx → lacks_column m k = false →
                  int64_column m k = false →
                  field m' idx k = field m idx k) ∧
        (∀ idx k, ¬ targets h mds idx → lacks_column m k = true →
                  k ∈ new_columns → valid_locator m idx →
                  field m' idx k = Some VNone).
Proof.
  intros Hdata Hcons. unfold consistent in Hcons. rewrite Hdata in Hcons.
  destruct Hcons as [Hwf Hfi]. unfold update_manifest_with_metadata. rewrite Hdata.
  destruct m as [df | l | d].
  - set (df0 := List.fold_left ensure_column new_columns df).
    destruct (apply_all_spec frame_setitem (λ d, field (MFrame d)) nrows frame_ready
                (λ d, valid_locator (MFrame d))
                (λ d k, int64_column (MFrame d) k = false)
                frame_set_ok frame_set_again
                frame_set_keeps (file_index h) mds df0)
      as (df' & -> & Hready & Hvalid & Hcnt & Hfld & Hrel & Hsame & _).
    { by apply ensure_columns_ready. }
    { intros n idx Hn. simpl. unfold df0. rewrite ensure_columns_index.
      by apply (Hfi n). }
    exists (MFrame df'). split_and!; [done | | | | | |].
    + split; [apply Hready |]. intros n idx Hn. apply Hvalid. simpl.
      unfold df0. rewrite ensure_columns_index. by apply (Hfi n).
    + simpl. rewrite Hcnt. unfold df0, nrows. by rewrite ensure_columns_index.
    + intros idx k Hk. rewrite Hfld by done.
      apply ensure_columns_field. by right.
    + intros idx k Hidx Hk.
      rewrite <- (proj1 (ensure_columns_field df idx k)).
      * apply Hrel. by apply not_targets.
      * left. simpl in Hk. by apply negb_false_iff.
    + intros idx k Hidx Hk Hint. rewrite Hsame.
      * apply ensure_columns_field. left. simpl in Hk. by apply negb_false_iff.
      * by apply not_targets.
      * by apply ensure_columns_settled.
    + intros idx k Hidx Hk Hnew Hv. rewrite Hsame.
      * apply ensure_columns_field; [| done | done]. simpl in Hk.
        by apply negb_true_iff.
      * by apply not_targets.
      * apply ensure_columns_settled. simpl. simpl in Hk.
        apply negb_true_iff, has_column_false in Hk. by rewrite Hk.
  - destruct (apply_all_spec list_setitem (λ x, field (MList x)) length (λ _, True)
                (λ x, valid_locator (MList x)) (λ _ _, True)
                list_store_ok list_set_again
                list_set_keeps (file_index h) mds l)
      as (l' & -> & _ & Hvalid & Hcnt & Hfld & _ & Hsame & _); [done | done |].
    exists (MList l'). split_and!; [done | | done | | | | done].
    + split; [done |]. intros n idx Hn. apply Hvalid. by apply (Hfi n).
    + intros idx k Hk. by apply Hfld.
    + intros idx k Hidx _. left. apply Hsame; [by apply not_targets | done].
    + intros idx k Hidx _ _. apply Hsame; [by apply not_targets | done].
  - destruct (apply_all_spec dict_setitem (λ x, field (MDict x)) length (λ _, True)
                (λ x, valid_locator (MDict x)) (λ _ _, True)
                dict_store_ok dict_set_again
                dict_set_keeps (file_index h) mds d)
      as (d' & -> & _ & Hvalid & Hcnt & Hfld & _ & Hsame & _); [done | done |].
    exists (MDict d'). split_and!; [done | | done | | | | done].
    + split; [done |]. intros n idx Hn. apply Hvalid. by apply (Hfi n).
    + intros idx k Hk. by apply Hfld.
    + intros idx k Hidx _. left. apply Hsame; [by apply not_targets | done].
    + intros idx k Hidx _ _. apply Hsame; [by apply not_targets | done].
Qed.

(** ** The index that [load_manifest] builds is consistent with the data *)

Lemma index_loop_valid {A} (body : A → res (string * label)) items
      (fi fi' : gmap string label) (P : label → Prop) :
  (∀ x fn idx, x ∈ items → body x = Ok (fn, idx) → P idx) →
  (∀ n idx, fi !! n = Some idx → P idx) →
  index_loop body items fi = Ok fi' →
  ∀ n idx, fi' !! n = Some idx → P idx.
Proof.
  unfold index_loop. revert fi. induction items as [| x items IH]; intros fi Hbody Hfi.
  - intros [= <-]. exact Hfi.
  - rewrite foldM_cons. destruct (body x) as [[fn i] |] eqn:Hx; [| done].
    intros Hloop. apply (IH (<[fn := i]> fi)); [| | exact Hloop].
    + intros y fn' idx Hy. apply Hbody. by right.
    + intros n idx. destruct (decide (fn = n)) as [<- | Hne].
      * rewrite lookup_insert_eq. intros [= <-]. apply (Hbody x fn i); [by left | done].
      * rewrite lookup_insert_ne by done. apply Hfi.
Qed.

Lemma dict_get_unique {V} key (v : V) (d : dict V) :
  NoDup d.*1 → (key, v) ∈ d → dict_get key d = Some v.
Proof.
  induction d as [| [k w] d IH]; simpl; [by intros _ ?%elem_of_nil |].
  intros [Hk Hd]%NoDup_cons [[= <- <-] | Hin]%elem_of_cons.
  - by rewrite String.eqb_refl.
  - destruct (String.eqb_spec k key) as [-> | _]; [| by apply IH].
    exfalso. apply Hk. apply list_elem_of_fmap. by exists (key, v).
Qed.

Lemma build_consistent h m h' :
  manifest_data h = Some m → wf_manifest m → keys_unique m →
  file_index h = ∅ →
  _build_file_index h = Ok h' →
  manifest_data h' = Some m ∧ manifest_path h' = manifest_path h ∧ consistent h'.
Proof.
  intros Hdata Hwf Hkeys Hempty. unfold _build_file_index. rewrite Hdata.
  assert (Hsame : manifest_data h = Some m ∧ manifest_path h = manifest_path h ∧
                  consistent h).
  { split_and!; [done | done |]. unfold consistent. rewrite Hdata. split; [done |].
    intros n idx. by rewrite Hempty, lookup_empty. }
  assert (Hindexed : ∀ fi',
    (∀ n idx, fi' !! n = Some idx → valid_locator m idx) →
    manifest_data (with_index h fi') = Some m ∧
    manifest_path (with_index h fi') = manifest_path h ∧
    consistent (with_index h fi')).
  { intros fi' Hfi'. split_and!; [done | done |]. unfold consistent. simpl.
    rewrite Hdata. by split. }
  assert (Hnone : ∀ n idx, file_index h !! n = Some idx → valid_locator m idx).
  { intros n idx. by rewrite Hempty, lookup_empty. }
  destruct m as [df | l | d].
  - destruct (_find_path_column _) as [path_col |]; [| by intros [= <-]].
    destruct (Py.truthy _); [| by intros [= <-]].
    destruct (index_loop _ _ _) as [fi' |] eqn:Hloop; [| done].
    intros [= <-]. apply Hindexed.
    eapply (index_loop_valid _ _ _ _ _ _ Hnone Hloop).
  - destruct (_find_path_key_in_dict _) as [path_key |]; [| by intros [= <-]].
    destruct (Py.truthy _); [| by intros [= <-]].
    destruct (index_loop _ _ _) as [fi' |] eqn:Hloop; [| done].
    intros [= <-]. apply Hindexed.
    eapply (index_loop_valid _ _ _ _ _ _ Hnone Hloop).
  - destruct d as [| [sample_key sample_item] d']; [done |].
    destruct sample_item as [| | | | | | sample]; try by intros [= <-].
    destruct (_find_path_key_in_dict _) as [path_key |]; [| by intros [= <-]].
    destruct (Py.truthy _); [| by intros [= <-]].
    destruct (index_loop _ _ _) as [fi' |] eqn:Hloop; [| done].
    intros [= <-]. apply Hindexed.
    eapply (index_loop_valid _ _ _ _ _ _ Hnone Hloop).
  Unshelve.
  + intros [idx row] fn i (p & lbl & [= -> ->] & Hp)%elem_of_lookup_imap. simpl.
    destruct (getitem _ _) as [filepath |]; [| done]. simpl.
    destruct (path_name filepath); [| done]. simpl. intros [= _ <-].
    by eapply list_elem_of_lookup_2.
  + intros [idx item] fn i (p & it & [= -> ->] & Hp)%elem_of_lookup_imap. simpl.
    destruct (path_name _); [| done]. simpl. intros [= _ <-].
    by eapply lookup_lt_Some.
  + intros [key item] fn i Hin. simpl.
    destruct item as [| | | | | | r]; try done. simpl.
    destruct (path_name _); [| done]. simpl. intros [= _ <-].
    exists r.
    by apply (dict_get_unique key (VDict r) ((sample_key, VDict sample) :: d')).
Qed.

Lemma load_consistent io path h :
  (∀ df, read_csv io path = Ok df → wf_frame df) →
  (∀ df, read_excel io path = Ok df → wf_frame df) →
  (∀ m, json_load io path = Ok m → wf_manifest m ∧ keys_unique m) →
  load_manifest io (__init__ path) = Ok h →
  consistent h ∧ manifest_path h = path ∧ is_Some (manifest_data h).
Proof.
  intros Hcsv Hxls Hjson. unfold load_manifest. simpl.
  set (sfx := Py.lower (Pathlib.suffix path)).
  assert (Hbuild : ∀ m, wf_manifest m → keys_unique m →
    _build_file_index (with_data (__init__ path) m) = Ok h →
    consistent h ∧ manifest_path h = path ∧ is_Some (manifest_data h)).
  { intros m Hwf Hkeys Hb.
    destruct (build_consistent (with_data (__init__ path) m) m h
                eq_refl Hwf Hkeys eq_refl Hb) as (Hd & Hp & Hc).
    split_and!; [done | done | by rewrite Hd]. }
  destruct (String.eqb sfx ".csv").
  { destruct (read_csv io path) as [df |] eqn:Hr; [| done]. simpl.
    apply (Hbuild (MFrame df)); [by apply Hcsv | done]. }
  destruct (String.eqb sfx ".json").
  { destruct (json_load io path) as [m |] eqn:Hr; [| done]. simpl.
    destruct (Hjson m eq_refl). by apply Hbuild. }
  destruct (String.eqb sfx ".xls" || String.eqb sfx ".xlsx"); [| done].
  destruct (read_excel io path) as [df |] eqn:Hr; [| done]. simpl.
  apply (Hbuild (MFrame df)); [by apply Hxls | done].
Qed.

Lemma load_scenarios :
  load_manifest Samples.io_scenario (__init__ "in/manifest.csv") = Ok Samples.handler_frame ∧
  load_manifest Samples.io_scenario (__init__ "in/list.json") = Ok Samples.handler_list ∧
  load_manifest Samples.io_scenario (__init__ "in/map.json") = Ok Samples.handler_dict.
Proof. split_and!; by vm_compute. Qed.

Lemma frame_scenario_wf : wf_frame Samples.frame_scenario.
Proof.
  split; [done |]. intros c Hc. cbn in Hc.
  repeat (apply elem_of_cons in Hc as [-> | Hc]); [done | done |].
  by apply elem_of_nil in Hc.
Qed.

Lemma handlers_consistent :
  consistent Samples.handler_frame ∧ consistent Samples.handler_list ∧
  consistent Samples.handler_dict.
Proof.
  destruct load_scenarios as (Hf & Hl & Hd). split_and!.
  - apply (load_consistent Samples.io_scenario "in/manifest.csv"); [| done | | done].
    + intros df [= <-]. apply frame_scenario_wf.
    + intros m H. by vm_compute in H.
  - apply (load_consistent Samples.io_scenario "in/list.json"); [| done | | done].
    + intros df [= <-]. apply frame_scenario_wf.
    + intros m H. vm_compute in H. by injection H as <-.
  - apply (load_consistent Samples.io_scenario "in/map.json"); [| done | | done].
    + intros df [= <-]. apply frame_scenario_wf.
    + intros m H. vm_compute in H. injection H as <-. split; [done |].
      simpl. apply (bool_decide_unpack _). by vm_compute.
Qed.

(** ** Schema sniffer *)


Lemma find_all_false {A} (f : A → bool) (l : list A) :
  (∀ x, x ∈ l → f x = false) → List.find f l = None.
Proof.
  induction l as [| a l IH]; intros H; simpl; [done |].
  rewrite (H a) by by left. apply IH. intros x Hx. apply H. by right.
Qed.



(** ** Loading *)

(** C10.  Loading a JSON object with no entries raises ([StopIteration],
    from taking the first key), whereas a manifest whose path field cannot
    be found, an empty JSON array included, loads with an empty index. *)
Theorem C10_empty_mapping_raises io path :
  Py.lower (Pathlib.suffix path) = ".json" →
  (json_load io path = Ok (MDict []) →
   load_manifest io (__init__ path) = Raise StopIteration) ∧
  (∀ l, json_load io path = Ok (MList l) →
        _find_path_key_in_dict (default [] (head l)) = None →
        load_manifest io (__init__ path)
        = Ok {| manifest_path := path; manifest_data := Some (MList l);
                file_index := ∅ |}) ∧
  (∀ key sample rest,
     json_load io path = Ok (MDict ((key, VDict sample) :: rest)) →
     _find_path_key_in_dict sample = None →
     load_manifest io (__init__ path)
     = Ok {| manifest_path := path;
             manifest_data := Some (MDict ((key, VDict sample) :: rest));
             file_index := ∅ |}).
Proof.
  intros Hsfx. unfold load_manifest. simpl. rewrite Hsfx. simpl. split_and!.
  - by intros ->.
  - intros l -> Hnone. simpl. unfold _build_file_index. simpl. by rewrite Hnone.
  - intros key sample rest -> Hnone. simpl. unfold _build_file_index. simpl.
    by rewrite Hnone.
Qed.

Lemma C10_empty_mapping_raises_witness :
  load_manifest Samples.io_scenario (__init__ "in/empty.json") = Raise StopIteration ∧
  load_manifest Samples.io_scenario (__init__ "in/nopath.json")
  = Ok {| manifest_path := "in/nopath.json";
          manifest_data := Some (MList Samples.list_without_path);
          file_index := ∅ |}.
Proof.
  destruct (C10_empty_mapping_raises Samples.io_scenario "in/empty.json")
    as (Hempty & _ & _); [by vm_compute |].
  destruct (C10_empty_mapping_raises Samples.io_scenario "in/nopath.json")
    as (_ & Hlist & _); [by vm_compute |].
  split.
  - apply Hempty. by vm_compute.
  - apply Hlist; by vm_compute.
Defined.

(** ** Bulk apply *)

Lemma ensure_columns_id df :
  (∀ k, k ∈ new_columns → has_column k df = true) →
  List.fold_left ensure_column new_columns df = df.
Proof.
  intros H. unfold new_columns. simpl. unfold ensure_column.
  rewrite !H by (apply new_columns_cases; auto). done.
Qed.

Lemma update_unfold h m mds :
  manifest_data h = Some m →
  update_manifest_with_metadata h mds
  = match m with
    | MFrame df =>
        updated ← foldM (apply_one frame_setitem (file_index h)) mds
                        (List.fold_left ensure_column new_columns df);
        Ok (with_data h (MFrame updated))
    | MList l =>
        l' ← foldM (apply_one list_setitem (file_index h)) mds l;
        Ok (with_data h (MList l'))
    | MDict d =>
        d' ← foldM (apply_one dict_setitem (file_index h)) mds d;
        Ok (with_data h (MDict d'))
    end.
Proof. intros H. unfold update_manifest_with_metadata. by rewrite H. Qed.

(** The loop handles the records one after the other: a run over
    [l1 ++ l2] is a run over [l1] followed by a run over [l2]. *)
Lemma update_app h m l1 l2 :
  manifest_data h = Some m → consistent h →
  update_manifest_with_metadata h (l1 ++ l2)
  = (h1 ← update_manifest_with_metadata h l1; update_manifest_with_metadata h1 l2).
Proof.
  intros Hdata Hcons. unfold consistent in Hcons. rewrite Hdata in Hcons.
  destruct Hcons as [Hwf Hfi].
  rewrite (update_unfold h m (l1 ++ l2) Hdata), (update_unfold h m l1 Hdata).
  destruct m as [df | l | d].
  - set (df0 := List.fold_left ensure_column new_columns df).
    destruct (apply_all_spec frame_setitem (λ d, field (MFrame d)) nrows frame_ready
                (λ d, valid_locator (MFrame d))
                (λ d k, int64_column (MFrame d) k = false)
                frame_set_ok frame_set_again
                frame_set_keeps (file_index h) l1 df0)
      as (df1 & H1 & [Hwf1 Hcols1] & _).
    { by apply ensure_columns_ready. }
    { intros n idx Hn. simpl. unfold df0. rewrite ensure_columns_index.
      by apply (Hfi n). }
    rewrite foldM_app, H1. cbn [mbind res_bind].
    rewrite (update_unfold (with_data h (MFrame df1)) (MFrame df1) l2 eq_refl).
    cbn [with_data file_index]. by rewrite (ensure_columns_id df1 Hcols1).
  - rewrite foldM_app. destruct (foldM _ l1 l) as [l' |]; [| done].
    cbn [mbind res_bind]. by rewrite (update_unfold (with_data h (MList l')) (MList l') l2 eq_refl).
  - rewrite foldM_app. destruct (foldM _ l1 d) as [d' |]; [| done].
    cbn [mbind res_bind]. by rewrite (update_unfold (with_data h (MDict d')) (MDict d') l2 eq_refl).
Qed.

(** A record with no index entry is skipped wherever it stands. *)
Lemma update_skip h l1 md l2 :
  file_index h !! Pathlib.name (audio_filename md) = None →
  update_manifest_with_metadata h (l1 ++ md :: l2)
  = update_manifest_with_metadata h (l1 ++ l2).
Proof.
  intros Hmiss. unfold update_manifest_with_metadata.
  destruct (manifest_data h) as [[df | l | d] |]; [| | | done];
    by rewrite (apply_all_skip _ (file_index h) l1 md l2 _ Hmiss).
Qed.

(** One record with an index hit, on any shape. *)
Lemma update_hit h m md idx :
  manifest_data h = Some m → consistent h →
  file_index h !! Pathlib.name (audio_filename md) = Some idx →
  ∃ m', update_manifest_with_metadata h [md] = Ok (with_data h m') ∧
        update_manifest_with_metadata (with_data h m') [md] = Ok (with_data h m') ∧
        update_manifest_with_metadata h [md; md] = Ok (with_data h m') ∧
        field m' idx "isrc" = Some (of_option (isrc md)) ∧
        field m' idx "track_title" = Some (of_option (track_title md)) ∧
        field m' idx "artist" = Some (of_option (artist md)).
Proof.
  intros Hdata Hcons Hhit. unfold consistent in Hcons. rewrite Hdata in Hcons.
  destruct Hcons as [Hwf Hfi]. pose proof (Hfi _ _ Hhit) as Hvalid.
  rewrite (update_unfold h m [md] Hdata), (update_unfold h m [md; md] Hdata).
  destruct m as [df | l | d].
  - set (df0 := List.fold_left ensure_column new_columns df).
    destruct (apply_one_hit frame_setitem (λ d, field (MFrame d)) nrows frame_ready
                (λ d, valid_locator (MFrame d))
                (λ d k, int64_column (MFrame d) k = false)
                frame_set_ok frame_set_again
                frame_set_keeps (file_index h) df0 md idx)
      as (df' & -> & E2 & -> & [Hwf' Hcols'] & _ & Hi & Ht & Ha).
    { by apply ensure_columns_ready. }
    { simpl. unfold df0. by rewrite ensure_columns_index. }
    { done. }
    exists (MFrame df'). rewrite (update_unfold (with_data h (MFrame df')) (MFrame df') [md] eq_refl).
    cbn [with_data file_index]. rewrite (ensure_columns_id df' Hcols'), E2.
    by split_and!.
  - destruct (apply_one_hit list_setitem (λ x, field (MList x)) length (λ _, True)
                (λ x, valid_locator (MList x)) (λ _ _, True)
                list_store_ok list_set_again
                list_set_keeps (file_index h) l md idx)
      as (l' & -> & E2 & -> & _ & _ & Hi & Ht & Ha); [done.. |].
    exists (MList l'). rewrite (update_unfold (with_data h (MList l')) (MList l') [md] eq_refl).
    cbn [with_data file_index]. rewrite E2. by split_and!.
  - destruct (apply_one_hit dict_setitem (λ x, field (MDict x)) length (λ _, True)
                (λ x, valid_locator (MDict x)) (λ _ _, True)
                dict_store_ok dict_set_again
                dict_set_keeps (file_index h) d md idx)
      as (d' & -> & E2 & -> & _ & _ & Hi & Ht & Ha); [done.. |].
    exists (MDict d'). rewrite (update_unfold (with_data h (MDict d')) (MDict d') [md] eq_refl).
    cbn [with_data file_index]. rewrite E2. by split_and!.
Qed.

(** C7.  The bulk apply handles the metadata records in turn.  For each
    it looks the bare filename up in the index and nowhere else: a record
    without an index entry is skipped, without error, even where the
    flexible search of [find_audio_file] would resolve it; a record with
    an entry has its [isrc], [track_title] and [artist] written into the
    located record. *)
Theorem C7_bulk_apply_uses_exact_index h m :
  manifest_data h = Some m → consistent h →
  (∀ mds, ∃ m', update_manifest_with_metadata h mds = Ok (with_data h m')) ∧
  (∀ l1 l2,
     update_manifest_with_metadata h (l1 ++ l2)
     = (h1 ← update_manifest_with_metadata h l1;
        update_manifest_with_metadata h1 l2)) ∧
  (∀ l1 md l2,
     file_index h !! Pathlib.name (audio_filename md) = None →
     update_manifest_with_metadata h (l1 ++ md :: l2)
     = update_manifest_with_metadata h (l1 ++ l2)) ∧
  (∀ md idx,
     file_index h !! Pathlib.name (audio_filename md) = Some idx →
     ∃ m', update_manifest_with_metadata h [md] = Ok (with_data h m') ∧
           field m' idx "isrc" = Some (of_option (isrc md)) ∧
           field m' idx "track_title" = Some (of_option (track_title md)) ∧
           field m' idx "artist" = Some (of_option (artist md))).
Proof.
  intros Hdata Hcons. split_and!.
  - intros mds. destruct (update_spec h m mds Hdata Hcons) as (m' & Hm' & _).
    by exists m'.
  - intros l1 l2. by apply (update_app h m).
  - intros l1 md l2. apply update_skip.
  - intros md idx Hhit.
    destruct (update_hit h m md idx Hdata Hcons Hhit)
      as (m' & Hm' & _ & _ & Hi & Ht & Ha).
    by exists m'.
Qed.

Lemma C7_bulk_apply_uses_exact_index_witness :
  find_audio_file Samples.no_regex Samples.handler_list "track02.wav"
  = Ok (Some (VDict [("id", VInt 2); ("path", VStr "/bucket/audio/x_track02.wav")])) ∧
  update_manifest_with_metadata Samples.handler_list [Samples.md_track02]
  = update_manifest_with_metadata Samples.handler_list [] ∧
  ∃ m', update_manifest_with_metadata Samples.handler_frame [Samples.md_track01]
        = Ok (with_data Samples.handler_frame m') ∧
        field m' (LInt 0) "isrc" = Some (VStr "US-ABC-12-00001").
Proof.
  destruct handlers_consistent as (Hf & Hl & Hd).
  split_and!; [by vm_compute | |].
  - apply (proj1 (proj2 (proj2
      (C7_bulk_apply_uses_exact_index Samples.handler_list _ eq_refl Hl)))
      [] Samples.md_track02 []).
    by vm_compute.
  - destruct (proj2 (proj2 (proj2
      (C7_bulk_apply_uses_exact_index Samples.handler_frame _ eq_refl Hf)))
      Samples.md_track01 (LInt 0)) as (m' & Hm' & Hi & _); [by vm_compute |].
    by exists m'.
Defined.

(** C4.  Applying a metadata record whose filename has an index entry
    twice, in two runs or twice in one run, leaves the manifest exactly as
    applying it once does. *)
Theorem C4_apply_twice_is_apply_once h m md idx :
  manifest_data h = Some m → consistent h →
  file_index h !! Pathlib.name (audio_filename md) = Some idx →
  ∃ h1, update_manifest_with_metadata h [md] = Ok h1 ∧
        update_manifest_with_metadata h1 [md] = Ok h1 ∧
        update_manifest_with_metadata h [md; md] = Ok h1.
Proof.
  intros Hdata Hcons Hhit.
  destruct (update_hit h m md idx Hdata Hcons Hhit) as (m' & H1 & H2 & H3 & _).
  exists (with_data h m'). by split_and!.
Qed.

Lemma C4_apply_twice_is_apply_once_witness :
  ∃ h1, update_manifest_with_metadata Samples.handler_dict [Samples.md_track01] = Ok h1 ∧
        update_manifest_with_metadata h1 [Samples.md_track01] = Ok h1 ∧
        update_manifest_with_metadata Samples.handler_dict
          [Samples.md_track01; Samples.md_track01] = Ok h1.
Proof.
  destruct handlers_consistent as (_ & _ & Hd).
  apply (C4_apply_twice_is_apply_once Samples.handler_dict _ Samples.md_track01
           (LStr "a") eq_refl Hd).
  by vm_compute.
Defined.





(** ** Tables made of records *)

Lemma first_seen_elem k keys : k ∈ first_seen keys ↔ k ∈ keys.
Proof.
  unfold first_seen.
  assert (H : ∀ acc, k ∈ List.fold_left
                       (λ acc k, if existsb (String.eqb k) acc then acc else acc ++ [k])
                       keys acc ↔ k ∈ acc ∨ k ∈ keys).
  { induction keys as [| x keys IH]; intros acc; simpl.
    - rewrite elem_of_nil. tauto.
    - rewrite IH, elem_of_cons.
      destruct (existsb (String.eqb x) acc) eqn:Hx.
      + apply existsb_eqb_elem in Hx. split; [tauto |].
        intros [? | [-> | ?]]; tauto.
      + rewrite elem_of_app, list_elem_of_singleton. tauto. }
  rewrite H, elem_of_nil. tauto.
Qed.

Lemma dict_get_Some_elem {V} key (v : V) (d : dict V) :
  dict_get key d = Some v → (key, v) ∈ d.
Proof.
  induction d as [| [k w] d IH]; simpl; [done |].
  destruct (String.eqb_spec k key) as [-> | _].
  - intros [= ->]. by left.
  - intros H. right. by apply IH.
Qed.

Lemma has_column_names k df : has_column k df = true ↔ k ∈ column_names df.
Proof. apply existsb_eqb_elem. Qed.

(** [pd.DataFrame] on a list of records keeps the records and the keys:
    one row for each record, and as columns exactly the keys of the
    records. *)
Lemma from_records_shape infer l :
  nrows (from_records infer l) = length l ∧
  column_names (from_records infer l) = first_seen (l ≫= dict_keys) ∧
  (∀ k, has_column k (from_records infer l) = true ↔
        ∃ r, r ∈ l ∧ dict_has k r = true) ∧
  wf_frame (from_records infer l).
Proof.
  assert (Hnames : column_names (from_records infer l) = first_seen (l ≫= dict_keys)).
  { unfold column_names, from_records. simpl. rewrite <- list_fmap_compose.
    rewrite <- (list_fmap_id (first_seen (l ≫= dict_keys))) at 2.
    by apply list_fmap_ext. }
  assert (Hrows : nrows (from_records infer l) = length l).
  { unfold nrows. simpl. by rewrite length_fmap, length_seq. }
  split_and!; [done | done | |].
  - intros k. rewrite has_column_names, Hnames, first_seen_elem, list_elem_of_bind.
    split.
    + intros (r & Hk & Hr). exists r. split; [done |].
      apply list_elem_of_fmap in Hk as ([k' v] & -> & Hkv).
      apply dict_has_true. by apply (dict_get_elem k' v).
    + intros (r & Hr & Hk). exists r. split; [| done].
      apply dict_has_true in Hk as [v Hv]. apply list_elem_of_fmap.
      exists (k, v). split; [done |]. by apply dict_get_Some_elem.
  - split; [by rewrite Hrows |].
    intros c (k & -> & _)%list_elem_of_fmap. rewrite Hrows.
    unfold column_of. simpl. by rewrite !length_fmap.
Qed.

(** [pd.DataFrame] on a mapping of records makes a column of each entry
    and a row of each key of the records. *)
Lemma from_entries_shape infer (d : list (string * list (string * value))) :
  column_names (from_entries infer d) = d.*1 ∧
  index (from_entries infer d) = LStr <$> first_seen (d ≫= λ e, dict_keys e.2).
Proof.
  split; [| done]. unfold column_names, from_entries. simpl.
  rewrite <- list_fmap_compose. by apply list_fmap_ext.
Qed.

(** ** Saving *)

(** A table cannot go to a JSON file: whatever the writers do, the save
    raises, a [TypeError] when the file could be opened. *)
Lemma save_table_as_json_raises io h df out :
  manifest_data h = Some (MFrame df) → json_suffix out = true →
  (∀ w, save_updated_manifest io h out ≠ Ok w) ∧
  (open_w io out = Ok tt → save_updated_manifest io h out = Raise TypeError).
Proof.
  unfold json_suffix, save_updated_manifest. intros -> Hjson%String.eqb_eq.
  rewrite Hjson. simpl. split.
  - intros w. by destruct (open_w io out).
  - by intros ->.
Qed.

(** A mapping of records that goes to a CSV or Excel file is written
    with its entries as the columns: the two entries of the scenario come
    out as one row under the column names [a] and [b], and [path]
    names no column. *)
Lemma save_mapping_as_table :
  ∃ t, save_updated_manifest Samples.writers_ok Samples.handler_dict "out/manifest.csv"
       = Ok (WCsv t) ∧
       column_names t = ["a"; "b"] ∧ nrows t = 1%nat ∧
       record_count (MDict Samples.dict_scenario) = 2%nat ∧
       has_column "path" t = false.
Proof. eexists. by vm_compute. Qed.

(** What a write raises is raised by the save. *)
Lemma save_write_fails :
  save_updated_manifest Samples.writers_readonly Samples.handler_frame "out/manifest.csv"
  = Raise OSError ∧
  save_updated_manifest Samples.writers_readonly Samples.handler_list "out/list.json"
  = Raise OSError.
Proof. by vm_compute. Qed.

(** What a save that returns has written is the data of the handler, as
    a table or as the JSON document. *)
Lemma save_written io h out w :
  save_updated_manifest io h out = Ok w →
  match w with
  | WCsv df | WExcel df => as_frame io (manifest_data h) = Ok df
  | WJson doc => doc = manifest_data h ∧ ∀ df, manifest_data h ≠ Some (MFrame df)
  end.
Proof.
  unfold save_updated_manifest.
  destruct (String.eqb _ ".csv").
  { destruct (as_frame io (manifest_data h)) as [df |]; [| done]. cbn [mbind res_bind].
    destruct (to_csv io df out) as [[] |]; [| done]. by intros [= <-]. }
  destruct (String.eqb _ ".json").
  { destruct (open_w io out) as [[] |]; [| done]. cbn [mbind res_bind].
    destruct (manifest_data h) as [[df | l | d] |]; [done | | |];
      (destruct (json_dump io _ out) as [[] |]; [| done]; by intros [= <-]). }
  destruct (_ || _); [| done].
  destruct (as_frame io (manifest_data h)) as [df |]; [| done]. cbn [mbind res_bind].
  destruct (to_excel io df out) as [[] |]; [| done]. by intros [= <-].
Qed.

(** ** Round trip *)

(** C2, as stated, fails: a table without the three metadata columns
    comes back from load, empty update and save with three more fields. *)
Lemma C2_counterexample :
  ¬ (∀ io wr path out h1 m h2 w,
       load_manifest io (__init__ path) = Ok h1 →
       manifest_data h1 = Some m →
       update_manifest_with_metadata h1 [] = Ok h2 →
       save_updated_manifest wr h2 out = Ok w →
       ∃ m', written_manifest w = Some m' ∧
             field_sets m' = field_sets m ∧ record_count m' = record_count m).
Proof.
  intros H.
  destruct (H Samples.io_scenario Samples.writers_ok "in/manifest.csv" "out/manifest.csv"
              Samples.handler_frame (MFrame Samples.frame_scenario)
              (with_data Samples.handler_frame
                 (MFrame (List.fold_left ensure_column new_columns Samples.frame_scenario)))
              (WCsv (List.fold_left ensure_column new_columns Samples.frame_scenario)))
    as (m' & Hw & Hfields & _); [by vm_compute.. |].
  injection Hw as <-. by vm_compute in Hfields.
Qed.

(** C2 (amended).  Loading a manifest, applying no metadata record and
    saving it, to an output of a format the shape can be saved to and
    with writes that do not fail, loses no record and no field.  A
    list-shaped or mapping-shaped manifest is left as it was and goes
    unchanged to a JSON file; a list-shaped manifest goes to a CSV or
    Excel file as a table with a row for each record and a column for
    each key of any record.  Of a table the rows and every column are
    kept, and those of [isrc], [track_title] and [artist] that the table
    lacked are added, empty; that table is what a CSV or Excel file
    receives. *)
Theorem C2_round_trip io wr path out h1 m :
  load_manifest io (__init__ path) = Ok h1 →
  manifest_data h1 = Some m →
  saves m out = true → writable wr out →
  ∃ m2 w,
    update_manifest_with_metadata h1 [] = Ok (with_data h1 m2) ∧
    save_updated_manifest wr (with_data h1 m2) out = Ok w ∧
    record_count m2 = record_count m ∧
    match m with
    | MFrame df =>
        ∃ df', m2 = MFrame df' ∧ (w = WCsv df' ∨ w = WExcel df') ∧
               index df' = index df ∧
               columns df'
               = columns df ++
                 (none_series (nrows df) <$>
                    List.filter (λ col, negb (has_column col df)) new_columns) ∧
               (∀ col, has_column col df' = true ↔
                       has_column col df = true ∨ col ∈ new_columns)
    | MList l =>
        m2 = m ∧
        (w = WJson (Some m) ∨
         ∃ t, (w = WCsv t ∨ w = WExcel t) ∧ t = from_records (infer wr) l ∧
              nrows t = length l ∧
              (∀ k, has_column k t = true ↔ ∃ r, r ∈ l ∧ dict_has k r = true))
    | MDict d => m2 = m ∧ w = WJson (Some m)
    end.
Proof.
  intros _ Hdata Hsaves (Hcsv & Hexcel & Hopen & Hjson).
  rewrite (update_unfold h1 m [] Hdata).
  unfold saves, table_suffix, json_suffix in Hsaves.
  unfold save_updated_manifest. cbn [with_data manifest_data].
  destruct m as [df | l | d]; cbn [foldM mbind res_bind].
  - set (df' := List.fold_left ensure_column new_columns df).
    assert (Hw : ∃ w, (w = WCsv df' ∨ w = WExcel df') ∧
                      (if String.eqb (Py.lower (Pathlib.suffix out)) ".csv"
                       then df0 ← as_frame wr (Some (MFrame df'));
                            _ ← to_csv wr df0 out; Ok (WCsv df0)
                       else if String.eqb (Py.lower (Pathlib.suffix out)) ".json"
                       then _ ← open_w wr out; Raise TypeError
                       else if String.eqb (Py.lower (Pathlib.suffix out)) ".xls"
                               || String.eqb (Py.lower (Pathlib.suffix out)) ".xlsx"
                       then df0 ← as_frame wr (Some (MFrame df'));
                            _ ← to_excel wr df0 out; Ok (WExcel df0)
                       else Raise ValueError) = Ok w).
    { destruct (String.eqb_spec (Py.lower (Pathlib.suffix out)) ".csv") as [E | _].
      { exists (WCsv df'). split; [by left |]. simpl. by rewrite Hcsv. }
      destruct (String.eqb_spec (Py.lower (Pathlib.suffix out)) ".json") as [E | _].
      { rewrite E in Hsaves. by vm_compute in Hsaves. }
      simpl in Hsaves. rewrite Hsaves.
      exists (WExcel df'). split; [by right |]. simpl. by rewrite Hexcel. }
    destruct Hw as (w & Hshape & Hw).
    exists (MFrame df'), w. split_and!; [done | exact Hw | |].
    + simpl. unfold df', nrows. by rewrite ensure_columns_index.
    + exists df'. split_and!; [done | done | | |].
      * apply ensure_columns_index.
      * apply ensure_columns_columns.
      * intros col. unfold df', new_columns. simpl.
        rewrite !has_column_ensure, !orb_true_iff.
        rewrite !elem_of_cons, elem_of_nil, !String.eqb_eq. tauto.
  - destruct (from_records_shape (infer wr) l) as (Hrows & _ & Hcols & _).
    destruct (String.eqb_spec (Py.lower (Pathlib.suffix out)) ".csv") as [E | _].
    { exists (MList l), (WCsv (from_records (infer wr) l)).
      split_and!; [done | by simpl; rewrite Hcsv | done | done |].
      right. eexists. split_and!; [by left | done..]. }
    destruct (String.eqb_spec (Py.lower (Pathlib.suffix out)) ".json") as [E | _].
    { exists (MList l), (WJson (Some (MList l))).
      split_and!; [done | by rewrite Hopen; simpl; rewrite Hjson | done | done |].
      by left. }
    simpl in Hsaves. rewrite orb_false_r in Hsaves. rewrite Hsaves.
    exists (MList l), (WExcel (from_records (infer wr) l)).
    split_and!; [done | by simpl; rewrite Hexcel | done | done |].
    right. eexists. split_and!; [by right | done..].
  - apply String.eqb_eq in Hsaves. rewrite Hsaves. simpl.
    exists (MDict d), (WJson (Some (MDict d))).
    split_and!; [done | by rewrite Hopen; simpl; rewrite Hjson | done..].
Qed.

Lemma writers_ok_writable out : writable Samples.writers_ok out.
Proof. by split_and!. Qed.

Lemma C2_round_trip_witness :
  (∃ df', update_manifest_with_metadata Samples.handler_frame []
          = Ok (with_data Samples.handler_frame (MFrame df')) ∧
          save_updated_manifest Samples.writers_ok
            (with_data Samples.handler_frame (MFrame df')) "out/manifest.csv"
          = Ok (WCsv df') ∧
          column_names df' = ["id"; "path"; "isrc"; "track_title"; "artist"] ∧
          nrows df' = 2%nat) ∧
  (∃ t, save_updated_manifest Samples.writers_ok Samples.handler_list "out/list.xlsx"
        = Ok (WExcel t) ∧
        nrows t = 2%nat ∧ has_column "path" t = true).
Proof.
  split.
  - destruct (C2_round_trip Samples.io_scenario Samples.writers_ok "in/manifest.csv"
                "out/manifest.csv" Samples.handler_frame (MFrame Samples.frame_scenario))
      as (m2 & w & Hupdate & Hsave & _ & df' & -> & Hw & _ & Hcols & _);
      [by vm_compute | done | by vm_compute | apply writers_ok_writable |].
    exists df'. split_and!; [done | | |].
    + destruct Hw as [-> | ->]; [done |]. rewrite Hsave. by vm_compute in Hsave.
    + unfold column_names. rewrite Hcols. by vm_compute.
    + unfold nrows. apply (f_equal (λ r, match r with
                                         | Ok x => manifest_data x
                                         | Raise _ => None
                                         end)) in Hupdate.
      vm_compute in Hupdate. by injection Hupdate as <-.
  - destruct (C2_round_trip Samples.io_scenario Samples.writers_ok "in/list.json"
                "out/list.xlsx" Samples.handler_list (MList Samples.list_scenario))
      as (m2 & w & Hupdate & Hsave & _ & -> & Hw);
      [by vm_compute | done | by vm_compute | apply writers_ok_writable |].
    destruct Hw as [-> | (t & Hw & _ & Hrows & Hcols)]; [by vm_compute in Hsave |].
    exists t. split_and!; [| done |].
    + destruct Hw as [-> | ->]; [by vm_compute in Hsave |].
      by rewrite <- Hsave.
    + apply Hcols. eexists. split; [by left | by vm_compute].
Defined.

(** ** Resolving a filename *)






Lemma wf_frame_label df idx :
  wf_frame df → idx ∈ index df →
  ∃ n, idx = LInt n ∧ (n < nrows df)%nat ∧ label_pos idx (index df) = Some n.
Proof.
  intros [Hidx _] Hin. rewrite Hidx in Hin.
  apply list_elem_of_fmap in Hin as (n & -> & Hn). apply elem_of_seq in Hn.
  exists n. split_and!; [done | lia |]. rewrite Hidx. apply label_pos_range. lia.
Qed.

(** An index hit on a consistent handler gives the record at the locator. *)
Lemma find_audio_file_hit re h m audio_filename idx :
  manifest_data h = Some m → consistent h →
  file_index h !! Pathlib.name audio_filename = Some idx →
  ∃ r, record_at m idx = Some r ∧
       find_audio_file re h audio_filename = Ok (Some (VDict r)).
Proof.
  intros Hdata Hcons Hhit. unfold consistent in Hcons. rewrite Hdata in Hcons.
  destruct Hcons as [Hwf Hfi]. pose proof (Hfi _ _ Hhit) as Hvalid.
  unfold find_audio_file. rewrite Hhit, Hdata. destruct m as [df | l | d].
  - destruct (wf_frame_label df idx Hwf Hvalid) as (n & -> & Hn & Hpos).
    exists (row_dict df n). simpl. rewrite Hpos. split; [done |].
    by rewrite decide_True.
  - destruct idx as [n | s]; [| done]. simpl in Hvalid.
    destruct (lookup_lt_is_Some_2 l n Hvalid) as [item Hitem].
    exists item. simpl. by rewrite Hitem.
  - destruct idx as [n | key]; [done |]. destruct Hvalid as [r Hr].
    exists r. simpl. by rewrite Hr.
Qed.



Lemma index_loop_ok {A} (body : A → res (string * label)) items
      (fi fi' : gmap string label) :
  index_loop body items fi = Ok fi' → ∀ x, x ∈ items → ∃ r, body x = Ok r.
Proof.
  unfold index_loop. revert fi. induction items as [| y items IH]; intros fi Hloop x Hx.
  - by apply elem_of_nil in Hx.
  - rewrite foldM_cons in Hloop. destruct (body y) as [r |] eqn:Hy; [| done].
    apply elem_of_cons in Hx as [-> | Hx]; [by exists r |].
    cbn [mbind res_bind] in Hloop. by apply (IH _ Hloop).
Qed.

(** Once the index of a list-shaped or mapping-shaped manifest has been
    built, the path field of every record is a string (or missing): the
    flexible search cannot raise on it. *)
Lemma loaded_list_paths h l path_key h' :
  manifest_data h = Some (MList l) →
  _find_path_key_in_dict (default [] (head l)) = Some path_key →
  Py.truthy (Some path_key) = true →
  _build_file_index h = Ok h' →
  ∀ item, item ∈ l → is_str (get_or_empty path_key item) = true.
Proof.
  intros Hdata Hkey Htruthy. unfold _build_file_index.
  rewrite Hdata, Hkey, Htruthy.
  destruct (index_loop _ _ _) as [fi' |] eqn:Hloop; [| by intros [=]].
  intros _ item Hitem.
  apply list_elem_of_lookup in Hitem as [i Hi].
  destruct (index_loop_ok _ _ _ _ Hloop (i, item)) as [r Hr].
  { apply elem_of_lookup_imap. by exists i, item. }
  simpl in Hr. by destruct (get_or_empty path_key item).
Qed.

Lemma loaded_dict_paths h key sample rest path_key h' :
  manifest_data h = Some (MDict ((key, VDict sample) :: rest)) →
  _find_path_key_in_dict sample = Some path_key →
  Py.truthy (Some path_key) = true →
  _build_file_index h = Ok h' →
  ∀ ki, ki ∈ (key, VDict sample) :: rest →
        ∃ r, ki.2 = VDict r ∧ is_str (get_or_empty path_key r) = true.
Proof.
  intros Hdata Hkey Htruthy. unfold _build_file_index.
  rewrite Hdata, Hkey, Htruthy.
  destruct (index_loop _ _ _) as [fi' |] eqn:Hloop; [| by intros [=]].
  intros _ ki Hki.
  destruct (index_loop_ok _ _ _ _ Hloop ki Hki) as [r Hr].
  destruct ki as [k item]. simpl in *.
  destruct item as [| | | | | | d]; try done. exists d. split; [done |].
  simpl in Hr. by destruct (get_or_empty path_key d).
Qed.


(** On a table the flexible search hands the filename to [str.contains] as
    a regular expression: a path that does not hold the filename can be
    returned (the dot of [track01.wav] stands for the underscore). *)
Lemma find_audio_file_table_regex :
  find_audio_file Samples.no_regex Samples.handler_underscore "track01.wav"
  = Ok (Some (VDict [("path", VStr "/bucket/audio/track01_wav")])) ∧
  Py.contains "track01.wav" "/bucket/audio/track01_wav" = false ∧
  resolve_spec Samples.handler_underscore "track01.wav" = None.
Proof. by vm_compute. Qed.



(** ** The scenario of the specification, end to end

    The document [<Recording><FileName>track01.wav</FileName>
    <ISRC>US-ABC-12-00001</ISRC></Recording>] and a CSV manifest whose
    column [path] holds ["/bucket/audio/track01.wav"]: the row gains the
    ISRC, the other row and the other columns stay as they were. *)
Lemma scenario_end_to_end :
  ∃ md h h',
    _process_single_xml Samples.parse_scenario "in/track01.xml" = Some md ∧
    load_manifest Samples.io_scenario (__init__ "in/manifest.csv") = Ok h ∧
    find_audio_file Samples.no_regex h (audio_filename md)
    = Ok (Some (VDict [("id", VInt 1); ("path", VStr "/bucket/audio/track01.wav")])) ∧
    update_manifest_with_metadata h [md] = Ok h' ∧
    (m ← manifest_data h'; field m (LInt 0) "isrc") = Some (VStr "US-ABC-12-00001") ∧
    (m ← manifest_data h'; field m (LInt 0) "artist") = Some VNone ∧
    (m ← manifest_data h'; field m (LInt 1) "isrc") = Some VNone ∧
    (m ← manifest_data h'; field m (LInt 1) "path")
    = Some (VStr "/bucket/audio/x_track02.wav").
Proof.
  exists Samples.md_track01, Samples.handler_frame.
  eexists. split_and!; [by vm_compute | by vm_compute | by vm_compute | | | | |].
  - vm_compute. reflexivity.
  - by vm_compute.
  - by vm_compute.
  - by vm_compute.
  - by vm_compute.
Qed.

(** * Further properties of the code *)

Import Batch Main IndexModel.

(** ** Batch coordinator *)

Lemma lower_app a b : Py.lower (a ++ b) = (Py.lower a ++ Py.lower b)%string.
Proof. induction a as [| c a IH]; simpl; [done | by rewrite IH]. Qed.

Lemma endswith_app sfx a b : Os.endswith sfx b = true → Os.endswith sfx (a ++ b) = true.
Proof.
  intros H. induction a as [| c a IH]; simpl; [done |].
  rewrite IH. apply orb_true_r.
Qed.

Lemma join_endswith sfx a b :
  Os.endswith sfx (Py.lower b) = true → Os.endswith sfx (Py.lower (Os.join a b)) = true.
Proof.
  intros H. unfold Os.join. destruct (Py.startswith "/" b); [done |].
  destruct (String.eqb a "" || Os.endswith "/" a); rewrite !lower_app;
    repeat apply endswith_app; done.
Qed.

Lemma slice_to_prefix {A} (n : Z) (xs : list A) : Os.slice_to n xs `prefix_of` xs.
Proof. unfold Os.slice_to. destruct (0 <=? n)%Z; apply prefix_take. Qed.

Lemma xml_in_pairs (root : string) (files : list string) :
  xml_in (root, files)
  = (λ p : string * string, Os.join p.1 p.2) <$>
      List.filter (λ p : string * string, Os.endswith ".xml" (Py.lower p.2))
                  (pair root <$> files).
Proof.
  unfold xml_in. cbn [fst snd]. induction files as [| file files IH]; [done |].
  rewrite fmap_cons. cbn [List.filter snd].
  destruct (Os.endswith ".xml" (Py.lower file)); rewrite ?fmap_cons; by rewrite IH.
Qed.

(** X1.  Without a limit [find_xml_files] returns exactly the files of
    the walk whose lower-cased name ends in [.xml], each joined to its
    directory, in the order of the walk.  With a limit it returns a
    prefix of that list: its first [limit] entries for a positive limit,
    all of it for no limit and for the limit 0, and all but the last
    [-limit] entries for a negative limit. *)
Theorem find_xml_files_limit walk limit :
  find_xml_files walk None
  = (λ p : string * string, Os.join p.1 p.2) <$>
      List.filter (λ p : string * string, Os.endswith ".xml" (Py.lower p.2))
                  (List.flat_map (λ e : string * list string, pair e.1 <$> e.2) walk) ∧
  (∀ f, f ∈ find_xml_files walk None ↔
        ∃ root files file, (root, files) ∈ walk ∧ file ∈ files ∧
                           Os.endswith ".xml" (Py.lower file) = true ∧
                           f = Os.join root file) ∧
  find_xml_files walk limit `prefix_of` find_xml_files walk None ∧
  (∀ f, f ∈ find_xml_files walk limit → Os.endswith ".xml" (Py.lower f) = true) ∧
  (limit = None ∨ limit = Some 0%Z →
   find_xml_files walk limit = find_xml_files walk None) ∧
  (∀ n, limit = Some n → (0 < n)%Z →
        find_xml_files walk limit = take (Z.to_nat n) (find_xml_files walk None)) ∧
  (∀ n, limit = Some n → (n < 0)%Z →
        find_xml_files walk limit
        = take (length (find_xml_files walk None) - Z.to_nat (- n))
               (find_xml_files walk None)).
Proof.
  assert (Hpairs : find_xml_files walk None
                   = (λ p : string * string, Os.join p.1 p.2) <$>
                       List.filter (λ p : string * string,
                                      Os.endswith ".xml" (Py.lower p.2))
                                   (List.flat_map
                                      (λ e : string * list string, pair e.1 <$> e.2)
                                      walk)).
  { unfold find_xml_files. induction walk as [| [root files] walk IH]; [done |].
    cbn [List.flat_map]. rewrite List.filter_app, fmap_app, <- IH.
    by rewrite xml_in_pairs. }
  assert (Hmem : ∀ f, f ∈ find_xml_files walk None ↔
                      ∃ root files file, (root, files) ∈ walk ∧ file ∈ files ∧
                                         Os.endswith ".xml" (Py.lower file) = true ∧
                                         f = Os.join root file).
  { intros f. unfold find_xml_files. rewrite list_elem_of_In, in_flat_map. split.
    - intros ([root files] & Hin & Hf). unfold xml_in in Hf.
      apply list_elem_of_In, list_elem_of_fmap in Hf as (file & -> & Hfile).
      apply list_elem_of_In, filter_In in Hfile as [Hfile Hxml].
      exists root, files, file. split_and!; [| | done | done]; by apply list_elem_of_In.
    - intros (root & files & file & Hin & Hfile & Hxml & ->).
      exists (root, files). split; [by apply list_elem_of_In |]. unfold xml_in.
      apply list_elem_of_In, list_elem_of_fmap. exists file. split; [done |].
      apply list_elem_of_In, filter_In. split; [by apply list_elem_of_In | done]. }
  assert (Hall : ∀ f, f ∈ find_xml_files walk None →
                      Os.endswith ".xml" (Py.lower f) = true).
  { intros f (root & files & file & _ & _ & Hxml & ->)%Hmem. by apply join_endswith. }
  assert (Hprefix : find_xml_files walk limit `prefix_of` find_xml_files walk None).
  { unfold find_xml_files. destruct limit as [n |]; [| done].
    destruct (_ && _); [apply slice_to_prefix | done]. }
  split_and!.
  - done.
  - done.
  - done.
  - intros f Hf. apply Hall. destruct Hprefix as [k ->]. apply elem_of_app. by left.
  - intros [-> | ->]; done.
  - intros n -> Hn. unfold find_xml_files.
    destruct (n =? 0)%Z eqn:H0; [lia |]. simpl.
    destruct (n <? _)%Z eqn:Hlt.
    + unfold Os.slice_to. destruct (0 <=? n)%Z eqn:Hpos; [done | lia].
    + rewrite take_ge; [done | lia].
  - intros n -> Hn. unfold find_xml_files.
    destruct (n =? 0)%Z eqn:H0; [lia |]. cbn [negb andb].
    destruct (n <? _)%Z eqn:Hlt; [| exfalso; clear -Hn Hlt; apply Z.ltb_ge in Hlt; lia].
    unfold Os.slice_to. destruct (0 <=? n)%Z eqn:Hpos; [| done].
    exfalso. clear -Hn Hpos. apply Z.leb_le in Hpos. lia.
Qed.

Lemma find_xml_files_limit_witness :
  find_xml_files MoreSamples.walk_tree (Some 2%Z) = ["in/track01.xml"; "in/BROKEN.XML"] ∧
  find_xml_files MoreSamples.walk_tree (Some 0%Z)
  = ["in/track01.xml"; "in/BROKEN.XML"; "in/sub/b.xml"] ∧
  find_xml_files MoreSamples.walk_tree (Some (-1)%Z) = ["in/track01.xml"; "in/BROKEN.XML"] ∧
  "in/sub/b.xml" ∈ find_xml_files MoreSamples.walk_tree None.
Proof.
  destruct (find_xml_files_limit MoreSamples.walk_tree (Some 2%Z))
    as (_ & Hmem & _ & _ & _ & H2 & _).
  destruct (find_xml_files_limit MoreSamples.walk_tree (Some 0%Z))
    as (_ & _ & _ & _ & H0 & _).
  destruct (find_xml_files_limit MoreSamples.walk_tree (Some (-1)%Z))
    as (_ & _ & _ & _ & _ & _ & Hneg).
  split_and!.
  - rewrite (H2 2%Z); [by vm_compute | done | lia].
  - rewrite H0; [by vm_compute | by right].
  - rewrite (Hneg (-1)%Z); [by vm_compute | done | lia].
  - apply Hmem. exists "in/sub", ["b.xml"], "b.xml".
    split_and!; [| by left | done | done].
    unfold MoreSamples.walk_tree. apply list_elem_of_In. simpl. auto.
Defined.

Lemma process_single_Some parse path md :
  _process_single_xml parse path = Some md →
  xml_path md = path ∧ Py.truthy (Some (audio_filename md)) = true ∧
  ∃ root, parse path = Ok root ∧
          _extract_audio_filename root = Some (audio_filename md) ∧
          isrc md = _extract_isrc root ∧
          track_title md = _extract_track_title root ∧
          artist md = _extract_artist root.
Proof.
  unfold _process_single_xml. destruct (parse path) as [root |]; [| done].
  destruct (_extract_audio_filename root) as [name |] eqn:Hname; [| done].
  destruct (Py.truthy (Some name)) eqn:Ht; [| done]. simpl.
  intros [= <-]. simpl. split_and!; [done | done |]. by exists root.
Qed.

Lemma omap_length_failures {A B} (f : A → option B) (l : list A) :
  (length (omap f l) + length (List.filter (λ x, bool_decide (f x = None)) l))%nat
  = length l.
Proof.
  induction l as [| x l IH]; simpl; [done |].
  destruct (f x) eqn:Hx; simpl.
  - f_equal. exact IH.
  - rewrite Nat.add_succ_r. f_equal. exact IH.
Qed.

(** X2.  [process_xml_files] returns one record for each found file that
    parses and yields a filename, in the order of the files, and nothing
    for the others: successes and failures add up to the files found.
    Every record names its file and carries a non-empty filename.  With
    files to handle, a worker count that is not positive raises
    [ValueError]; with none, the result is empty whatever the count. *)
Theorem process_xml_files_results parse walk max_workers limit :
  let files := find_xml_files walk limit in
  (∀ results, process_xml_files parse walk max_workers limit = Ok results →
     xml_path <$> results `sublist_of` files ∧
     (length results
      + length (List.filter (λ f, bool_decide (_process_single_xml parse f = None)) files))%nat
     = length files ∧
     ∀ md, md ∈ results →
           Py.truthy (Some (audio_filename md)) = true ∧
           ∃ root, parse (xml_path md) = Ok root ∧
                   _extract_audio_filename root = Some (audio_filename md)) ∧
  (files = [] → process_xml_files parse walk max_workers limit = Ok []) ∧
  (∀ w, files ≠ [] → max_workers = Some w → (w <= 0)%Z →
        process_xml_files parse walk max_workers limit = Raise ValueError) ∧
  (files ≠ [] → (∀ w, max_workers = Some w → (0 < w)%Z) →
   process_xml_files parse walk max_workers limit
   = Ok (omap (_process_single_xml parse) files)).
Proof.
  intros files.
  assert (Hres : ∀ results, results = omap (_process_single_xml parse) files →
     xml_path <$> results `sublist_of` files ∧
     (length results
      + length (List.filter (λ f, bool_decide (_process_single_xml parse f = None)) files))%nat
     = length files ∧
     ∀ md, md ∈ results →
           Py.truthy (Some (audio_filename md)) = true ∧
           ∃ root, parse (xml_path md) = Ok root ∧
                   _extract_audio_filename root = Some (audio_filename md)).
  { intros results ->. split_and!.
    - induction files as [| f fs IH]; simpl; [done |].
      destruct (_process_single_xml parse f) as [md |] eqn:Hf; simpl.
      + apply process_single_Some in Hf as (-> & _). by apply sublist_skip.
      + by apply sublist_cons.
    - apply omap_length_failures.
    - intros md (f & Hf & Hmd)%list_elem_of_omap.
      apply process_single_Some in Hmd as (<- & Ht & root & Hroot & Hname & _).
      split; [done |]. by exists root. }
  unfold process_xml_files. fold files. split_and!.
  - intros results. destruct files as [| f fs] eqn:Hfiles.
    + intros [= <-]. by apply Hres.
    + destruct max_workers as [w |]; [destruct (w <=? 0)%Z; [done |] |];
        intros [= <-]; by apply Hres.
  - by intros ->.
  - intros w Hne -> Hw. destruct files; [done |].
    destruct (w <=? 0)%Z eqn:E; [done | lia].
  - intros Hne Hw. destruct files as [| f fs]; [done |].
    destruct max_workers as [w |]; [| done].
    destruct (w <=? 0)%Z eqn:E; [| done]. specialize (Hw w eq_refl). lia.
Qed.

Lemma process_xml_files_results_witness :
  process_xml_files (parse MoreSamples.world) MoreSamples.walk_tree (Some 4%Z) None
  = Ok [Samples.md_track01] ∧
  process_xml_files (parse MoreSamples.world) MoreSamples.walk_tree (Some 0%Z) None
  = Raise ValueError.
Proof.
  destruct (process_xml_files_results (parse MoreSamples.world) MoreSamples.walk_tree
              (Some 4%Z) None) as (_ & _ & _ & Hok).
  destruct (process_xml_files_results (parse MoreSamples.world) MoreSamples.walk_tree
              (Some 0%Z) None) as (_ & _ & Hbad & _).
  split.
  - rewrite Hok; [by vm_compute | by vm_compute |]. intros w [= <-]. lia.
  - apply (Hbad 0%Z); [by vm_compute | done | lia].
Defined.

(** ** The other extractors and the keyword scans *)

Lemma findall_ISRC root :
  findall root ".//ISRC"
  = List.filter (λ e, String.eqb (tag e) "ISRC") (descendants root).
Proof.
  unfold findall.
  replace (compile ".//ISRC") with (Some [Descendant (Named "ISRC")])
    by (by vm_compute).
  simpl. by rewrite app_nil_r.
Qed.

Lemma findall_attr_isrc root :
  findall root ".//*[@isrc]"
  = List.filter (λ e, bool_decide (get e "isrc" ≠ None)) (descendants root).
Proof.
  unfold findall.
  replace (compile ".//*[@isrc]")
    with (Some [Descendant AnyTag; HasAttr "isrc"]) by (by vm_compute).
  simpl. rewrite app_nil_r. f_equal.
  induction (descendants root) as [| e l IH]; [done |]. simpl. by rewrite IH.
Qed.

(** X3.  The ISRC extractor reads attributes correctly: when no proper
    descendant of the root is named [ISRC] and some carry an [isrc]
    attribute, it returns the attribute value of the first of them in
    document order; and when a descendant is named [ISRC] it returns the
    text of the first one, whatever attributes there are. *)
Theorem extract_isrc_structural root :
  (∀ e rest,
     List.filter (λ d, String.eqb (tag d) "ISRC") (descendants root) = e :: rest →
     _extract_isrc root = text e) ∧
  (∀ e rest,
     List.filter (λ d, String.eqb (tag d) "ISRC") (descendants root) = [] →
     List.filter (λ d, bool_decide (get d "isrc" ≠ None)) (descendants root) = e :: rest →
     _extract_isrc root = get e "isrc" ∧ _extract_isrc root ≠ None).
Proof.
  split.
  - intros e rest Htag. rewrite <- findall_ISRC in Htag.
    unfold _extract_isrc, isrc_patterns. rewrite structural_phase_cons, Htag. done.
  - intros e rest Htag Hattr. rewrite <- findall_ISRC in Htag.
    rewrite <- findall_attr_isrc in Hattr.
    assert (He : get e "isrc" ≠ None).
    { assert (Hin : In e (findall root ".//*[@isrc]")) by (rewrite Hattr; by left).
      rewrite findall_attr_isrc in Hin. apply filter_In in Hin as [_ Hin].
      by apply bool_decide_eq_true in Hin. }
    unfold _extract_isrc, isrc_patterns.
    rewrite structural_phase_cons, Htag, structural_phase_cons, Hattr. by simpl.
Qed.

Lemma extract_isrc_structural_witness :
  _extract_isrc Samples.doc_attr_isrc = Some "US-ABC-12-00001".
Proof.
  destruct (extract_isrc_structural Samples.doc_attr_isrc) as [_ H].
  destruct (H (Elem "Track" [("isrc", "US-ABC-12-00001")] None []) [])
    as [-> _]; by vm_compute.
Defined.

Lemma scan_first {A} (body : A → option (option string)) l1 x l2 r :
  (∀ y, y ∈ l1 → body y = None) → body x = Some r →
  scan body (l1 ++ x :: l2) = r.
Proof.
  intros Hl1 Hx. induction l1 as [| y l1 IH]; simpl.
  - by rewrite Hx.
  - rewrite (Hl1 y) by by left. apply IH. intros z Hz. apply Hl1. by right.
Qed.

Lemma scan_None {A} (body : A → option (option string)) l :
  (∀ y, y ∈ l → body y = None) → scan body l = None.
Proof.
  induction l as [| y l IH]; intros H; simpl; [done |].
  rewrite (H y) by by left. apply IH. intros z Hz. apply H. by right.
Qed.

Lemma scan_Some {A} (body : A → option (option string)) l s :
  scan body l = Some s → ∃ x, x ∈ l ∧ body x = Some (Some s).
Proof.
  induction l as [| y l IH]; simpl; [done |].
  destruct (body y) as [r |] eqn:Hy.
  - intros ->. exists y. split; [by left | done].
  - intros (x & Hx & Hbody)%IH. exists x. split; [by right | done].
Qed.

Lemma scan_attrs_Some test a r :
  scan_attrs test a = Some r →
  ∃ k v, (k, v) ∈ a ∧ test k v = true ∧ r = Some v.
Proof.
  induction a as [| [k v] a IH]; simpl; [done |].
  destruct (test k v) eqn:Hkv.
  - intros [= <-]. exists k, v. split_and!; [by left | done | done].
  - intros (k' & v' & Hin & Ht & Hr)%IH. exists k', v'.
    split_and!; [by right | done | done].
Qed.

(** X4.  When no structural pattern selects anything, the filename comes
    from the keyword scan: it is then the text of an element or the value
    of an attribute of the document, it is not empty, and it holds [.wav]
    (in any case); nothing is returned exactly when no element of the
    document qualifies. *)
Theorem fallback_filename_is_wav root :
  (∀ pattern, pattern ∈ audio_filename_patterns → findall root pattern = []) →
  (∀ s, _extract_audio_filename root = Some s →
        Py.contains ".wav" (Py.lower s) = true ∧ s ≠ "" ∧
        ∃ e, e ∈ iter root ∧ (text e = Some s ∨ ∃ k, (k, s) ∈ attrib e)) ∧
  (_extract_audio_filename root = None ↔
   ∀ e, e ∈ iter root → audio_filename_fallback e = None).
Proof.
  intros Hnone. apply first_structural_match_none_iff in Hnone.
  apply (first_structural_match_none attr_name_of) in Hnone.
  unfold _extract_audio_filename. rewrite Hnone. split.
  - intros s (e & He & Hbody)%scan_Some.
    assert (Hwav : Py.contains ".wav" (Py.lower s) = true ∧
                   (text e = Some s ∨ ∃ k, (k, s) ∈ attrib e)).
    { unfold audio_filename_fallback in Hbody.
      assert (Hattrs : ∀ r,
        scan_attrs
          (λ attr_name attr_value,
             Py.any_in ["filename"; "file"; "audio"] (Py.lower attr_name)
             && Py.truthy (Some attr_value)
             && Py.contains ".wav" (Py.lower attr_value)) (attrib e) = Some r →
        r = Some s →
        Py.contains ".wav" (Py.lower s) = true ∧
        (text e = Some s ∨ ∃ k, (k, s) ∈ attrib e)).
      { intros r (k & v & Hin & Ht & ->)%scan_attrs_Some [= ->].
        apply andb_prop in Ht as [_ Ht]. split; [done |]. right. by exists k. }
      destruct (Py.any_in _ (Py.lower (tag e))).
      - destruct (text e) as [t |] eqn:Htext.
        + destruct (Py.truthy (Some t) && Py.contains ".wav" (Py.lower t)) eqn:Hq.
          * injection Hbody as ->. apply andb_prop in Hq as [_ Hq]. split; [done |].
            by left.
          * by eapply Hattrs.
        + by eapply Hattrs.
      - by eapply Hattrs. }
    destruct Hwav as [Hwav Hwhere]. split_and!; [done | | by exists e].
    intros ->. by vm_compute in Hwav.
  - split.
    + intros Hscan e He. destruct (audio_filename_fallback e) as [r |] eqn:Hbody; [| done].
      exfalso. apply list_elem_of_In, in_split in He as (l1 & l2 & Hsplit).
      revert Hscan. rewrite Hsplit. clear Hsplit.
      induction l1 as [| y l1 IH]; simpl.
      * rewrite Hbody. intros ->. by apply audio_filename_fallback_truthy in Hbody.
      * destruct (audio_filename_fallback y) as [r' |] eqn:Hy; [| done].
        intros ->. by apply audio_filename_fallback_truthy in Hy.
    + apply scan_None.
Qed.

Lemma fallback_filename_is_wav_witness :
  _extract_audio_filename
    (Elem "Release" [("audioFile", "Track09.WAV")] None []) = Some "Track09.WAV" ∧
  Py.contains ".wav" (Py.lower "Track09.WAV") = true.
Proof.
  destruct (fallback_filename_is_wav (Elem "Release" [("audioFile", "Track09.WAV")] None []))
    as [Hsome _].
  - intros pattern Hp. unfold audio_filename_patterns in Hp.
    repeat (apply elem_of_cons in Hp as [-> | Hp]); try by vm_compute.
    by apply elem_of_nil in Hp.
  - split; [by vm_compute |]. by apply (Hsome "Track09.WAV").
Defined.

Lemma keyword_scan_first names root before e after :
  iter root = before ++ e :: after →
  (∀ x, x ∈ before → keyword_fallback names x = None) →
  Py.any_in names (Py.lower (tag e)) = true →
  scan (keyword_fallback names) (iter root) = text e.
Proof.
  intros Hiter Hbefore Htag. rewrite Hiter.
  apply scan_first; [done |]. unfold keyword_fallback. by rewrite Htag.
Qed.

Lemma no_structural_match attr_of patterns root :
  (∀ pattern, pattern ∈ patterns → findall root pattern = []) →
  structural_phase attr_of patterns root = None.
Proof.
  intros Hnone. apply first_structural_match_none_iff in Hnone.
  by apply (first_structural_match_none attr_of) in Hnone.
Qed.

Lemma scan_attrs_none test a :
  scan_attrs test a = None ↔ ∀ k v, (k, v) ∈ a → test k v = false.
Proof.
  induction a as [| [k0 v0] a IH]; simpl.
  - split; [by intros _ k v ?%elem_of_nil | done].
  - destruct (test k0 v0) eqn:Ht.
    + split; [done |]. intros H. rewrite (H k0 v0) in Ht; [done | by left].
    + rewrite IH. split.
      * intros H k v [[= -> ->] | Hin]%elem_of_cons; [done | by apply H].
      * intros H k v Hin. apply H. by right.
Qed.

Lemma scan_attrs_first test a1 k v a2 :
  (∀ k' v', (k', v') ∈ a1 → test k' v' = false) → test k v = true →
  scan_attrs test (a1 ++ (k, v) :: a2) = Some (Some v).
Proof.
  intros Hbefore Hk. induction a1 as [| [k0 v0] a1 IH]; simpl.
  - by rewrite Hk.
  - rewrite (Hbefore k0 v0) by by left. apply IH. intros k' v' Hin.
    apply Hbefore. by right.
Qed.

Lemma passed_by_fallback names x :
  passed_by names x ↔ keyword_fallback names x = None.
Proof.
  unfold passed_by, keyword_fallback.
  destruct (Py.any_in names (Py.lower (tag x))).
  - split; [by intros [? _] | done].
  - rewrite scan_attrs_none. split; [by intros [_ ?] | done].
Qed.

(** X5.  In the keyword scans of the ISRC, title and artist extractors
    (which run when no structural pattern selects anything) an element
    is passed by when neither its tag nor the name of any of its
    attributes holds a keyword, and the first element of the document, in
    document order, that is not passed by decides: with a keyword in its
    tag the result is its text, even when it has none; otherwise it is
    the value of its first attribute whose name holds a keyword.  Later
    elements are not looked at. *)
Theorem keyword_scan_first_tag_decides root before e after names patterns extract :
  iter root = before ++ e :: after →
  (names, patterns, extract) ∈ keyword_scans →
  (∀ pattern, pattern ∈ patterns → findall root pattern = []) →
  (∀ x, x ∈ before → passed_by names x) →
  (Py.any_in names (Py.lower (tag e)) = true → extract root = text e) ∧
  (Py.any_in names (Py.lower (tag e)) = false →
   ∀ a1 k v a2,
     attrib e = a1 ++ (k, v) :: a2 →
     (∀ k' v', (k', v') ∈ a1 → Py.any_in names (Py.lower k') = false) →
     Py.any_in names (Py.lower k) = true →
     extract root = Some v).
Proof.
  intros Hiter Hscan Hnone Hbefore.
  assert (Hpass : ∀ x, x ∈ before → keyword_fallback names x = None).
  { intros x Hx. by apply passed_by_fallback, Hbefore. }
  assert (Hrun : extract root = scan (keyword_fallback names) (iter root)).
  { unfold keyword_scans in Hscan.
    repeat (apply elem_of_cons in Hscan as [[= -> -> ->] | Hscan]);
      [| | | by apply elem_of_nil in Hscan].
    - unfold _extract_isrc. by rewrite (no_structural_match _ _ _ Hnone).
    - unfold _extract_track_title. by rewrite (no_structural_match _ _ _ Hnone).
    - unfold _extract_artist. by rewrite (no_structural_match _ _ _ Hnone). }
  rewrite Hrun. split.
  - intros Htag. by eapply keyword_scan_first.
  - intros Htag a1 k v a2 Hattrib Ha1 Hk. rewrite Hiter.
    apply scan_first; [done |]. unfold keyword_fallback. rewrite Htag, Hattrib.
    by apply scan_attrs_first.
Qed.

Lemma keyword_scan_first_tag_decides_witness :
  _extract_isrc (Elem "Release" [] None
                   [Elem "IsrcCode" [] None []; Elem "isrc" [] (Some "US-ABC-12-00001") []])
  = None ∧
  _extract_track_title (Elem "Release" [] None
                          [Elem "Track" [("songTitle", "X")] None [];
                           Elem "SongTitle" [] None []])
  = Some "X".
Proof.
  split.
  - apply (proj1 (keyword_scan_first_tag_decides
             (Elem "Release" [] None
                   [Elem "IsrcCode" [] None []; Elem "isrc" [] (Some "US-ABC-12-00001") []])
             [Elem "Release" [] None
                   [Elem "IsrcCode" [] None []; Elem "isrc" [] (Some "US-ABC-12-00001") []]]
             (Elem "IsrcCode" [] None [])
             [Elem "isrc" [] (Some "US-ABC-12-00001") []]
             ["isrc"] isrc_patterns _extract_isrc eq_refl
             ltac:(by left)
             ltac:(intros pattern Hp; unfold isrc_patterns in Hp;
                   repeat (apply elem_of_cons in Hp as [-> | Hp]); try (by vm_compute);
                   by apply elem_of_nil in Hp)
             ltac:(intros x Hx; apply list_elem_of_singleton in Hx as ->;
                   apply passed_by_fallback; by vm_compute))).
    by vm_compute.
  - apply (proj2 (keyword_scan_first_tag_decides
             (Elem "Release" [] None
                   [Elem "Track" [("songTitle", "X")] None []; Elem "SongTitle" [] None []])
             [Elem "Release" [] None
                   [Elem "Track" [("songTitle", "X")] None []; Elem "SongTitle" [] None []]]
             (Elem "Track" [("songTitle", "X")] None [])
             [Elem "SongTitle" [] None []]
             ["title"; "tracktitle"] track_title_patterns _extract_track_title eq_refl
             ltac:(right; by left)
             ltac:(intros pattern Hp; unfold track_title_patterns in Hp;
                   repeat (apply elem_of_cons in Hp as [-> | Hp]); try (by vm_compute);
                   by apply elem_of_nil in Hp)
             ltac:(intros x Hx; apply list_elem_of_singleton in Hx as ->;
                   apply passed_by_fallback; by vm_compute))
           ltac:(by vm_compute) [] "songTitle" "X" [] eq_refl).
    + by intros k' v' ?%elem_of_nil.
    + by vm_compute.
Defined.

(** ** The filename index *)

Lemma index_loop_nil {A} (body : A → res (string * label)) (fi : gmap string label) :
  index_loop body [] fi = Ok fi.
Proof. reflexivity. Qed.

Lemma index_loop_cons {A} (body : A → res (string * label)) x items
      (fi : gmap string label) :
  index_loop body (x :: items) fi
  = match body x with
    | Ok r => index_loop body items (<[r.1 := r.2]> fi)
    | Raise e => Raise e
    end.
Proof. unfold index_loop. rewrite foldM_cons. by destruct (body x). Qed.

Lemma index_loop_ext {A} (body body' : A → res (string * label)) items
      (fi : gmap string label) :
  (∀ x, body x = body' x) → index_loop body items fi = index_loop body' items fi.
Proof.
  intros Hext. revert fi. induction items as [| x items IH]; intros fi; [done |].
  rewrite !index_loop_cons, Hext. destruct (body' x); [apply IH | done].
Qed.

Lemma index_loop_fmap {A B} (g : A → B) (body : B → res (string * label)) items
      (fi : gmap string label) :
  index_loop body (g <$> items) fi = index_loop (λ x, body (g x)) items fi.
Proof.
  revert fi. induction items as [| x items IH]; intros fi; [done |].
  rewrite fmap_cons, !index_loop_cons. destruct (body (g x)); [apply IH | done].
Qed.

Lemma index_loop_other {A} (body : A → res (string * label)) items
      (fi fi' : gmap string label) fn :
  (∀ y i, y ∈ items → body y ≠ Ok (fn, i)) →
  index_loop body items fi = Ok fi' → fi' !! fn = fi !! fn.
Proof.
  revert fi. induction items as [| x items IH]; intros fi Hother.
  - by intros [= <-].
  - rewrite index_loop_cons. destruct (body x) as [[fn' i] |] eqn:Hx; [| done].
    intros Hloop. rewrite (IH _ (λ y i Hy, Hother y i (list_elem_of_further _ _ _ Hy)) Hloop).
    simpl. apply lookup_insert_ne. intros ->. by apply (Hother x i); [left |].
Qed.

Lemma index_loop_keeps {A} (body : A → res (string * label)) items
      (fi fi' : gmap string label) fn :
  is_Some (fi !! fn) → index_loop body items fi = Ok fi' → is_Some (fi' !! fn).
Proof.
  revert fi. induction items as [| x items IH]; intros fi Hfn.
  - by intros [= <-].
  - rewrite index_loop_cons. destruct (body x) as [[fn' i] |]; [| done].
    apply IH. simpl. destruct (decide (fn' = fn)) as [-> | Hne].
    + rewrite lookup_insert_eq. by eexists.
    + by rewrite lookup_insert_ne.
Qed.

Lemma index_loop_app {A} (body : A → res (string * label)) l1 l2
      (fi : gmap string label) :
  index_loop body (l1 ++ l2) fi = (fi1 ← index_loop body l1 fi; index_loop body l2 fi1).
Proof. unfold index_loop. apply foldM_app. Qed.

(** The last item indexed under a filename is the one the filename
    resolves to. *)
Lemma index_loop_last {A} (body : A → res (string * label)) l1 x l2
      (fi fi' : gmap string label) fn idx :
  body x = Ok (fn, idx) →
  (∀ y i, y ∈ l2 → body y ≠ Ok (fn, i)) →
  index_loop body (l1 ++ x :: l2) fi = Ok fi' → fi' !! fn = Some idx.
Proof.
  intros Hx Hl2. rewrite index_loop_app.
  destruct (index_loop body l1 fi) as [fi1 |]; [| done]. cbn [mbind res_bind].
  rewrite index_loop_cons, Hx. intros Hloop.
  rewrite (index_loop_other _ _ _ _ _ Hl2 Hloop). apply lookup_insert_eq.
Qed.

Lemma index_loop_complete {A} (body : A → res (string * label)) items
      (fi fi' : gmap string label) x fn idx :
  x ∈ items → body x = Ok (fn, idx) →
  index_loop body items fi = Ok fi' → is_Some (fi' !! fn).
Proof.
  intros (l1 & l2 & ->)%list_elem_of_split Hx. rewrite index_loop_app.
  destruct (index_loop body l1 fi) as [fi1 |]; [| done]. cbn [mbind res_bind].
  rewrite index_loop_cons, Hx. apply index_loop_keeps. simpl.
  rewrite lookup_insert_eq. by eexists.
Qed.

Lemma index_loop_sound {A} (body : A → res (string * label)) items
      (fi fi' : gmap string label) fn idx :
  index_loop body items fi = Ok fi' → fi' !! fn = Some idx →
  fi !! fn = Some idx ∨ ∃ x, x ∈ items ∧ body x = Ok (fn, idx).
Proof.
  revert fi. induction items as [| x items IH]; intros fi.
  - intros [= <-]. by left.
  - rewrite index_loop_cons. destruct (body x) as [[fn' i] |] eqn:Hx; [| done].
    intros Hloop Hfn. destruct (IH _ Hloop Hfn) as [Hins | (y & Hy & Hbody)].
    + simpl in Hins. destruct (decide (fn' = fn)) as [-> | Hne].
      * rewrite lookup_insert_eq in Hins. injection Hins as ->.
        right. exists x. split; [by left | done].
      * rewrite lookup_insert_ne in Hins by done. by left.
    + right. exists y. split; [by right | done].
Qed.

Lemma index_loop_succeeds {A} (body : A → res (string * label)) items
      (fi : gmap string label) :
  (∀ x, x ∈ items → ∃ r, body x = Ok r) → ∃ fi', index_loop body items fi = Ok fi'.
Proof.
  revert fi. induction items as [| x items IH]; intros fi Hall.
  - by exists fi.
  - rewrite index_loop_cons. destruct (Hall x) as [r ->]; [by left |].
    apply IH. intros y Hy. apply Hall. by right.
Qed.

Lemma entry_body_Ok e fn idx :
  entry_body e = Ok (fn, idx) ↔ ∃ s, e = (idx, Ok (VStr s)) ∧ Pathlib.name s = fn.
Proof.
  destruct e as [i [v | err]]; unfold entry_body, entry_filename; simpl.
  - destruct v; simpl; try (split; [done | by intros (s' & [= _ ?] & _)]).
    split.
    + intros [= <- <-]. by eexists.
    + intros (s' & [= -> <-] & <-). done.
  - split; [done | by intros (s' & [= _ ?] & _)].
Qed.

Lemma entry_body_is_Ok e :
  (∃ r, entry_body e = Ok r) ↔ ∃ s, e.2 = Ok (VStr s).
Proof.
  split.
  - intros [[fn idx] (s & -> & _)%entry_body_Ok]. by exists s.
  - intros [s Hs]. destruct e as [i v]. simpl in Hs. subst v.
    exists (Pathlib.name s, i). apply entry_body_Ok. by exists s.
Qed.

(** [_build_file_index], for a path field that has been found, is the
    index loop over the entries of the manifest. *)
Lemma build_as_entries h m path_key :
  manifest_data h = Some m → sniffed_key m = Some path_key →
  Py.truthy (Some path_key) = true →
  _build_file_index h
  = with_index h <$> index_loop entry_body (index_entries m path_key) (file_index h).
Proof.
  intros Hdata Hkey Htruthy. unfold _build_file_index. rewrite Hdata.
  destruct m as [df | l | d]; unfold sniffed_key in Hkey.
  - rewrite Hkey, Htruthy. f_equal. unfold index_entries.
    rewrite index_loop_fmap. apply index_loop_ext. intros [idx row].
    unfold entry_body, entry_filename. simpl.
    destruct (getitem path_key row) as [v |]; [| done]. simpl.
    by destruct (path_name v).
  - rewrite Hkey, Htruthy. f_equal. unfold index_entries.
    assert (Himap :
      imap (λ i item, (LInt i, Ok (get_or_empty path_key item))) l
      = (λ ii : nat * list (string * value),
           (LInt ii.1, @Ok value (get_or_empty path_key ii.2)))
          <$> imap (λ idx item, (idx, item)) l) by (by rewrite fmap_imap).
    rewrite Himap.
    rewrite index_loop_fmap. apply index_loop_ext. intros [idx item].
    unfold entry_body, entry_filename. simpl.
    by destruct (path_name (get_or_empty path_key item)).
  - destruct d as [| [sample_key sample_item] d']; [done |].
    destruct sample_item as [| | | | | | sample]; try done.
    rewrite Hkey, Htruthy. f_equal. unfold index_entries.
    rewrite index_loop_fmap. apply index_loop_ext. intros [key item].
    unfold entry_body, entry_filename. simpl.
    destruct (entry_get path_key item) as [v |]; [| done]. simpl.
    by destruct (path_name v).
Qed.

(** Without a path field the handler is left as it was. *)
Lemma build_unsniffed h m h' :
  manifest_data h = Some m →
  (sniffed_key m = None ∨
   ∃ path_key, sniffed_key m = Some path_key ∧ Py.truthy (Some path_key) = false) →
  _build_file_index h = Ok h' → h' = h.
Proof.
  intros Hdata Hkey. unfold _build_file_index. rewrite Hdata.
  destruct m as [df | l | d]; unfold sniffed_key in Hkey.
  - destruct Hkey as [-> | (pk & -> & ->)]; by intros [= <-].
  - destruct Hkey as [-> | (pk & -> & ->)]; by intros [= <-].
  - destruct d as [| [sample_key sample_item] d']; [done |].
    destruct sample_item as [| | | | | | sample]; try by intros [= <-].
    destruct Hkey as [-> | (pk & -> & ->)]; by intros [= <-].
Qed.

(** X6.  Every entry of the index that [_build_file_index] builds on a
    fresh handler is true to the data: it maps the bare filename of some
    record's path to the locator of that record. *)
Theorem index_entries_sound h m h' filename idx :
  manifest_data h = Some m → file_index h = ∅ →
  _build_file_index h = Ok h' →
  file_index h' !! filename = Some idx →
  ∃ path_key s, sniffed_key m = Some path_key ∧
                (idx, Ok (VStr s)) ∈ index_entries m path_key ∧
                Pathlib.name s = filename.
Proof.
  intros Hdata Hempty Hbuild Hidx.
  destruct (sniffed_key m) as [path_key |] eqn:Hkey.
  - destruct (Py.truthy (Some path_key)) eqn:Htruthy.
    + rewrite (build_as_entries h m path_key Hdata Hkey Htruthy) in Hbuild.
      destruct (index_loop _ _ _) as [fi' |] eqn:Hloop; [| done].
      injection Hbuild as <-. simpl in Hidx.
      destruct (index_loop_sound _ _ _ _ _ _ Hloop Hidx) as [Hold | (e & He & Hbody)].
      * by rewrite Hempty, lookup_empty in Hold.
      * apply entry_body_Ok in Hbody as (s & -> & Hs). by exists path_key, s.
    + rewrite (build_unsniffed h m h' Hdata) in Hidx; [| by right; eexists | done].
      by rewrite Hempty, lookup_empty in Hidx.
  - rewrite (build_unsniffed h m h' Hdata) in Hidx; [| by left | done].
    by rewrite Hempty, lookup_empty in Hidx.
Qed.

Lemma duplicates_built :
  ∃ h', _build_file_index MoreSamples.handler_duplicates = Ok h' ∧
        file_index h' = <["other.wav" := LInt 1]> (<["track01.wav" := LInt 2]> ∅).
Proof. eexists. split; [by vm_compute | by vm_compute]. Qed.

Lemma index_entries_sound_witness :
  ∃ path_key s,
    sniffed_key (MList MoreSamples.list_duplicates) = Some path_key ∧
    (LInt 2, Ok (VStr s)) ∈ index_entries (MList MoreSamples.list_duplicates) path_key ∧
    Pathlib.name s = "track01.wav".
Proof.
  destruct duplicates_built as (h' & Hbuild & Hfi).
  apply (index_entries_sound MoreSamples.handler_duplicates _ h' "track01.wav" (LInt 2)
           eq_refl eq_refl Hbuild).
  rewrite Hfi. by vm_compute.
Defined.

(** X7.  Once the index is built, the bare filename of every record's
    path is a key of it, and where several records share a bare filename
    the key resolves to the last of them in the order of the manifest. *)
Theorem index_complete_last_wins h m path_key h' :
  manifest_data h = Some m → sniffed_key m = Some path_key →
  Py.truthy (Some path_key) = true →
  _build_file_index h = Ok h' →
  (∀ idx s, (idx, Ok (VStr s)) ∈ index_entries m path_key →
            is_Some (file_index h' !! Pathlib.name s)) ∧
  (∀ before idx s after,
     index_entries m path_key = before ++ (idx, Ok (VStr s)) :: after →
     (∀ e s', e ∈ after → e.2 = Ok (VStr s') → Pathlib.name s' ≠ Pathlib.name s) →
     file_index h' !! Pathlib.name s = Some idx).
Proof.
  intros Hdata Hkey Htruthy Hbuild.
  rewrite (build_as_entries h m path_key Hdata Hkey Htruthy) in Hbuild.
  destruct (index_loop _ _ _) as [fi' |] eqn:Hloop; [| done].
  injection Hbuild as <-. simpl. split.
  - intros idx s He.
    apply (index_loop_complete entry_body (index_entries m path_key) (file_index h) fi'
             _ (Pathlib.name s) idx He); [| done].
    apply entry_body_Ok. by exists s.
  - intros before idx s after Hsplit Hafter. rewrite Hsplit in Hloop.
    assert (Hbody : entry_body (idx, Ok (VStr s)) = Ok (Pathlib.name s, idx)).
    { apply entry_body_Ok. by exists s. }
    apply (index_loop_last entry_body before _ after (file_index h) fi' _ idx Hbody);
      [| done].
    intros e i He (s' & -> & Hs')%entry_body_Ok. by apply (Hafter _ s' He).
Qed.

Lemma index_complete_last_wins_witness :
  ∃ h', _build_file_index MoreSamples.handler_duplicates = Ok h' ∧
        file_index h' !! "track01.wav" = Some (LInt 2).
Proof.
  destruct duplicates_built as (h' & Hbuild & Hfi). exists h'. split; [done |].
  destruct (index_complete_last_wins MoreSamples.handler_duplicates _ "path" h'
              eq_refl eq_refl eq_refl Hbuild) as [_ Hlast].
  apply (Hlast [(LInt 0, Ok (VStr "/a/track01.wav")); (LInt 1, Ok (VStr "/b/other.wav"))]
               (LInt 2) "/c/track01.wav" []).
  - reflexivity.
  - intros e s' He. by apply elem_of_nil in He.
Defined.

(** X8.  With a path field found, building the index succeeds exactly
    when the path of every record is a string (a missing key of a JSON
    record counts as the empty string): a missing cell of a table, a JSON
    [null] or number, or an entry of a mapping that is not a record makes
    it raise. *)
Theorem index_build_succeeds_iff h m path_key :
  manifest_data h = Some m → sniffed_key m = Some path_key →
  Py.truthy (Some path_key) = true →
  (∃ h', _build_file_index h = Ok h') ↔
  ∀ e, e ∈ index_entries m path_key → ∃ s, e.2 = Ok (VStr s).
Proof.
  intros Hdata Hkey Htruthy.
  rewrite (build_as_entries h m path_key Hdata Hkey Htruthy). split.
  - intros [h' Hbuild] e He.
    destruct (index_loop _ _ _) as [fi' |] eqn:Hloop; [| done].
    apply entry_body_is_Ok. by apply (index_loop_ok _ _ _ _ Hloop).
  - intros Hall.
    destruct (index_loop_succeeds entry_body (index_entries m path_key) (file_index h))
      as [fi' ->].
    + intros e He. apply entry_body_is_Ok. by apply Hall.
    + by eexists.
Qed.

Lemma index_build_succeeds_iff_witness :
  (∃ h', _build_file_index MoreSamples.handler_duplicates = Ok h') ∧
  _build_file_index
    {| manifest_path := "in/null.json";
       manifest_data := Some (MList [[("path", VStr "/a/x.wav")]; [("path", VNone)]]);
       file_index := ∅ |} = Raise TypeError.
Proof.
  split; [| by vm_compute].
  apply (index_build_succeeds_iff MoreSamples.handler_duplicates _ "path"
           eq_refl eq_refl eq_refl).
  intros e He. cbn in He.
  repeat (apply elem_of_cons in He as [-> | He]); [by eexists.. |].
  by apply elem_of_nil in He.
Defined.

(** X9.  After a load every record can be resolved by its own path:
    [find_audio_file] then returns, through the index, a record of the
    manifest whose path has the same bare filename (the last such
    record). *)
Theorem loaded_records_resolve re h m path_key h' idx s :
  manifest_data h = Some m → wf_manifest m → keys_unique m →
  file_index h = ∅ → sniffed_key m = Some path_key →
  Py.truthy (Some path_key) = true →
  _build_file_index h = Ok h' →
  (idx, Ok (VStr s)) ∈ index_entries m path_key →
  ∃ idx' s' r,
    (idx', Ok (VStr s')) ∈ index_entries m path_key ∧
    Pathlib.name s' = Pathlib.name s ∧
    record_at m idx' = Some r ∧
    find_audio_file re h' s = Ok (Some (VDict r)).
Proof.
  intros Hdata Hwf Hkeys Hempty Hkey Htruthy Hbuild He.
  destruct (index_complete_last_wins h m path_key h' Hdata Hkey Htruthy Hbuild)
    as [Hcomplete _].
  destruct (Hcomplete idx s He) as [idx' Hidx'].
  destruct (index_entries_sound h m h' _ idx' Hdata Hempty Hbuild Hidx')
    as (pk & s' & Hpk & He' & Hs').
  rewrite Hkey in Hpk. injection Hpk as <-.
  destruct (build_consistent h m h' Hdata Hwf Hkeys Hempty Hbuild) as (Hdata' & _ & Hcons).
  destruct (find_audio_file_hit re h' m s idx' Hdata' Hcons Hidx') as (r & Hr & Hfind).
  by exists idx', s', r.
Qed.

Lemma loaded_records_resolve_witness :
  ∃ idx' s' r,
    (idx', Ok (VStr s')) ∈ index_entries (MList MoreSamples.list_duplicates) "path" ∧
    Pathlib.name s' = Pathlib.name "/a/track01.wav" ∧
    record_at (MList MoreSamples.list_duplicates) idx' = Some r ∧
    find_audio_file Samples.no_regex
      {| manifest_path := "in/dup.json";
         manifest_data := Some (MList MoreSamples.list_duplicates);
         file_index := <["other.wav" := LInt 1]> (<["track01.wav" := LInt 2]> ∅) |}
      "/a/track01.wav" = Ok (Some (VDict r)).
Proof.
  apply (loaded_records_resolve Samples.no_regex MoreSamples.handler_duplicates
           (MList MoreSamples.list_duplicates) "path" _ (LInt 0) "/a/track01.wav");
    try done; try by vm_compute.
  cbn. by left.
Defined.

(** ** Loading *)

Lemma build_keeps_data h h' :
  _build_file_index h = Ok h' →
  manifest_data h' = manifest_data h ∧ manifest_path h' = manifest_path h.
Proof.
  unfold _build_file_index.
  assert (Hidx : ∀ r : res (gmap string label), with_index h <$> r = Ok h' →
            manifest_data h' = manifest_data h ∧ manifest_path h' = manifest_path h).
  { intros [fi |]; [| done]. by intros [= <-]. }
  destruct (manifest_data h) as [[df | l | d] |] eqn:Hdata.
  - destruct (_find_path_column _); [destruct (Py.truthy _) |];
      [apply Hidx | by intros [= <-] | by intros [= <-]].
  - destruct (_find_path_key_in_dict _); [destruct (Py.truthy _) |];
      [apply Hidx | by intros [= <-] | by intros [= <-]].
  - destruct d as [| [k item] d']; [done |].
    destruct item; try by intros [= <-].
    destruct (_find_path_key_in_dict _); [destruct (Py.truthy _) |];
      [apply Hidx | by intros [= <-] | by intros [= <-]].
  - by intros [= <-].
Qed.

(** X10.  [load_manifest] chooses the reader by the lower-cased suffix of
    the manifest path.  Any other suffix raises [ValueError]; what a
    reader raises is raised on; and on success the handler holds exactly
    what the reader of that suffix returned, under the same path. *)
Theorem load_manifest_dispatch io path :
  (Py.lower (Pathlib.suffix path) ∉ [".csv"; ".json"; ".xls"; ".xlsx"] →
   load_manifest io (__init__ path) = Raise ValueError) ∧
  (∀ e, (Py.lower (Pathlib.suffix path) = ".csv" ∧ read_csv io path = Raise e) ∨
        (Py.lower (Pathlib.suffix path) = ".json" ∧ json_load io path = Raise e) ∨
        (Py.lower (Pathlib.suffix path) ∈ [".xls"; ".xlsx"] ∧
         read_excel io path = Raise e) →
        load_manifest io (__init__ path) = Raise e) ∧
  (∀ h, load_manifest io (__init__ path) = Ok h →
        manifest_path h = path ∧
        ∃ m, manifest_data h = Some m ∧
             ((Py.lower (Pathlib.suffix path) = ".csv" ∧
               ∃ df, m = MFrame df ∧ read_csv io path = Ok df) ∨
              (Py.lower (Pathlib.suffix path) = ".json" ∧ json_load io path = Ok m) ∨
              (Py.lower (Pathlib.suffix path) ∈ [".xls"; ".xlsx"] ∧
               ∃ df, m = MFrame df ∧ read_excel io path = Ok df))).
Proof.
  unfold load_manifest. cbn [manifest_path __init__].
  set (sfx := Py.lower (Pathlib.suffix path)). split_and!.
  - intros Hsfx. rewrite !not_elem_of_cons in Hsfx.
    destruct Hsfx as (H1 & H2 & H3 & H4 & _).
    apply String.eqb_neq in H1, H2, H3, H4. by rewrite H1, H2, H3, H4.
  - intros e [[-> Hr] | [[-> Hr] | [Hsfx Hr]]].
    + simpl. by rewrite Hr.
    + simpl. by rewrite Hr.
    + rewrite !elem_of_cons, elem_of_nil in Hsfx.
      destruct Hsfx as [-> | [-> | []]]; simpl; by rewrite Hr.
  - intros h.
    assert (Hbuild : ∀ m, _build_file_index (with_data (__init__ path) m) = Ok h →
                          manifest_path h = path ∧ manifest_data h = Some m).
    { intros m [Hd Hp]%build_keeps_data. by split. }
    destruct (String.eqb_spec sfx ".csv") as [Hcsv | _].
    { destruct (read_csv io path) as [df |] eqn:Hr; [| done].
      intros [Hp Hd]%(Hbuild (MFrame df)). split; [done |]. exists (MFrame df).
      split; [done |]. left. split; [done |]. by exists df. }
    destruct (String.eqb_spec sfx ".json") as [Hjson | _].
    { destruct (json_load io path) as [m |] eqn:Hr; [| done].
      intros [Hp Hd]%(Hbuild m). split; [done |]. exists m. split; [done |].
      right. by left. }
    destruct (String.eqb sfx ".xls" || String.eqb sfx ".xlsx") eqn:Hxls; [| done].
    destruct (read_excel io path) as [df |] eqn:Hr; [| done].
    intros [Hp Hd]%(Hbuild (MFrame df)). split; [done |]. exists (MFrame df).
    split; [done |]. right. right. split; [| by exists df].
    apply orb_true_iff in Hxls as [->%String.eqb_eq | ->%String.eqb_eq];
      rewrite !elem_of_cons; auto.
Qed.

Lemma load_manifest_dispatch_witness :
  load_manifest Samples.io_scenario (__init__ "in/manifest.parquet") = Raise ValueError ∧
  load_manifest Samples.io_scenario (__init__ "in/manifest.XLSX") = Raise OSError ∧
  manifest_path Samples.handler_frame = "in/manifest.csv".
Proof.
  destruct (load_manifest_dispatch Samples.io_scenario "in/manifest.parquet")
    as (Hbad & _ & _).
  destruct (load_manifest_dispatch Samples.io_scenario "in/manifest.XLSX")
    as (_ & Hraise & _).
  destruct (load_manifest_dispatch Samples.io_scenario "in/manifest.csv")
    as (_ & _ & Hok).
  split_and!.
  - apply Hbad. apply (bool_decide_unpack _). by vm_compute.
  - apply Hraise. right. right. split; [| done].
    apply (bool_decide_unpack _). by vm_compute.
  - by destruct (Hok Samples.handler_frame (proj1 load_scenarios)) as [-> _].
Defined.

(** ** Saving data that is no table *)

Lemma all_records_keys d entries : all_records d = Some entries → entries.*1 = d.*1.
Proof.
  unfold all_records. intros H%mapM_Some_1.
  induction H as [| [k v] [k' r] d entries Hx _ IH]; [done |].
  rewrite !fmap_cons. cbn [fst snd] in *.
  destruct v; try done. injection Hx as <- _. by f_equal.
Qed.

(** X11.  A list-shaped or mapping-shaped manifest that is saved to a CSV
    or Excel file goes through [pd.DataFrame].  When the writes do not
    fail, a list of records comes out as a table with a row for each
    record and a column for each key of any record; a mapping of records
    comes out with a column for each entry, named by the entry's key, and
    a row for each key of the records, so that the records are no rows
    of what is written. *)
Theorem save_records_as_table io h out :
  table_suffix out = true → writable io out →
  (∀ l, manifest_data h = Some (MList l) →
        ∃ t, (save_updated_manifest io h out = Ok (WCsv t) ∨
              save_updated_manifest io h out = Ok (WExcel t)) ∧
             nrows t = length l ∧
             (∀ k, has_column k t = true ↔ ∃ r, r ∈ l ∧ dict_has k r = true)) ∧
  (∀ d entries, manifest_data h = Some (MDict d) → all_records d = Some entries →
        ∃ t, (save_updated_manifest io h out = Ok (WCsv t) ∨
              save_updated_manifest io h out = Ok (WExcel t)) ∧
             column_names t = d.*1 ∧
             nrows t = length (first_seen (entries ≫= λ e, dict_keys e.2))).
Proof.
  intros Hsfx (Hcsv & Hexcel & _ & _). unfold table_suffix in Hsfx.
  assert (Hsave : ∀ t, as_frame io (manifest_data h) = Ok t →
                       save_updated_manifest io h out = Ok (WCsv t) ∨
                       save_updated_manifest io h out = Ok (WExcel t)).
  { intros t Ht. unfold save_updated_manifest. rewrite Ht. cbn [mbind res_bind].
    rewrite Hcsv, Hexcel. cbn [mbind res_bind].
    destruct (String.eqb_spec (Py.lower (Pathlib.suffix out)) ".csv") as [E | _];
      [by left |].
    destruct (String.eqb_spec (Py.lower (Pathlib.suffix out)) ".json") as [E | _].
    { rewrite E in Hsfx. by vm_compute in Hsfx. }
    simpl in Hsfx. rewrite Hsfx. by right. }
  split.
  - intros l Hdata. destruct (from_records_shape (infer io) l) as (Hrows & _ & Hcols & _).
    exists (from_records (infer io) l). split_and!; [| done | done].
    apply Hsave. by rewrite Hdata.
  - intros d entries Hdata Hentries.
    destruct (from_entries_shape (infer io) entries) as [Hnames Hindex].
    exists (from_entries (infer io) entries). split_and!.
    + apply Hsave. rewrite Hdata. simpl. by rewrite Hentries.
    + rewrite Hnames. by apply all_records_keys.
    + unfold nrows. by rewrite Hindex, length_fmap.
Qed.

Lemma save_records_as_table_witness :
  (∃ t, save_updated_manifest Samples.writers_ok Samples.handler_list "out/list.csv"
        = Ok (WCsv t) ∧ nrows t = 2%nat ∧ has_column "id" t = true) ∧
  (∃ t, save_updated_manifest Samples.writers_ok Samples.handler_dict "out/map.csv"
        = Ok (WCsv t) ∧ column_names t = ["a"; "b"] ∧ nrows t = 1%nat).
Proof.
  destruct (save_records_as_table Samples.writers_ok Samples.handler_list "out/list.csv")
    as [Hlist _]; [by vm_compute | apply writers_ok_writable |].
  destruct (save_records_as_table Samples.writers_ok Samples.handler_dict "out/map.csv")
    as [_ Hdict]; [by vm_compute | apply writers_ok_writable |].
  split.
  - destruct (Hlist Samples.list_scenario eq_refl) as (t & Hsave & Hrows & Hcols).
    exists t. split_and!; [| done |].
    + destruct Hsave as [Hsave | Hsave]; [done | by vm_compute in Hsave].
    + apply Hcols. eexists. split; [by left | by vm_compute].
  - destruct (Hdict Samples.dict_scenario
                [("a", [("path", VStr "/bucket/audio/track01.wav")]);
                 ("b", [("path", VStr "/bucket/audio/x_track02.wav")])]
                eq_refl eq_refl) as (t & Hsave & Hnames & Hrows).
    exists t. split_and!; [| done | by rewrite Hrows].
    destruct Hsave as [Hsave | Hsave]; [done | by vm_compute in Hsave].
Defined.

(** ** More on the bulk apply *)

Lemma field_Some_not_lacking m idx k v :
  field m idx k = Some v → lacks_column m k = false.
Proof.
  destruct m as [df | l | d]; [| done..]. rewrite field_frame. simpl.
  destruct (label_pos idx (index df)) as [p |]; [| done]. simpl. unfold cell.
  destruct (get_column k df) as [c |] eqn:Hc; [| done]. intros _.
  apply negb_false_iff, has_column_get. by eexists.
Qed.

(** X12.  When several metadata records of one run resolve to the same
    manifest record, the last of them decides: after the run the record
    holds the [isrc], [track_title] and [artist] of the last metadata
    record that resolves to it, whatever came before and whatever
    follows for other records. *)
Theorem bulk_apply_last_record_wins h m l1 md idx l2 :
  manifest_data h = Some m → consistent h →
  file_index h !! Pathlib.name (audio_filename md) = Some idx →
  (∀ md', md' ∈ l2 → file_index h !! Pathlib.name (audio_filename md') ≠ Some idx) →
  ∃ m', update_manifest_with_metadata h (l1 ++ md :: l2) = Ok (with_data h m') ∧
        field m' idx "isrc" = Some (of_option (isrc md)) ∧
        field m' idx "track_title" = Some (of_option (track_title md)) ∧
        field m' idx "artist" = Some (of_option (artist md)).
Proof.
  intros Hdata Hcons Hhit Hl2.
  destruct (update_spec h m l1 Hdata Hcons) as (m1 & H1 & Hcons1 & _).
  destruct (update_hit (with_data h m1) m1 md idx eq_refl Hcons1 Hhit)
    as (m2 & H2 & _ & _ & Hi & Ht & Ha).
  destruct (update_spec (with_data h m1) m1 [md] eq_refl Hcons1)
    as (m2' & H2' & Hcons2 & _).
  rewrite H2 in H2'. injection H2' as <-.
  destruct (update_spec (with_data h m2) m2 l2 eq_refl Hcons2)
    as (m3 & H3 & _ & _ & _ & Hkeep & _).
  exists m3. split.
  - rewrite (update_app h m l1 (md :: l2) Hdata Hcons), H1. cbn [mbind res_bind].
    change (md :: l2) with ([md] ++ l2).
    rewrite (update_app (with_data h m1) m1 [md] l2 eq_refl Hcons1), H2.
    cbn [mbind res_bind]. exact H3.
  - assert (Hno : ¬ targets (with_data h m2) l2 idx).
    { apply not_targets. intros md' Hmd'. by apply Hl2. }
    split_and!;
      (eapply up_to_float_written;
       [eassumption | apply Hkeep; [done | by eapply field_Some_not_lacking]]).
Qed.

Lemma bulk_apply_last_record_wins_witness :
  ∃ m', update_manifest_with_metadata Samples.handler_list
          ([Samples.md_track01] ++ MoreSamples.md_other :: [Samples.md_track02])
        = Ok (with_data Samples.handler_list m') ∧
        field m' (LInt 0) "isrc" = Some VNone ∧
        field m' (LInt 0) "track_title" = Some (VStr "Blue") ∧
        field m' (LInt 0) "artist" = Some (VStr "Ann").
Proof.
  destruct handlers_consistent as (_ & Hl & _).
  apply (bulk_apply_last_record_wins Samples.handler_list _ [Samples.md_track01]
           MoreSamples.md_other (LInt 0) [Samples.md_track02] eq_refl Hl).
  - by vm_compute.
  - intros md' Hmd'. apply list_elem_of_singleton in Hmd' as ->. by vm_compute.
Defined.





Lemma apply_all_hits_only {M} (set : label → string → option string → M → res M)
      (h : handler) mds m :
  foldM (apply_one set (file_index h)) mds m
  = foldM (apply_one set (file_index h)) (List.filter (index_hit h) mds) m.
Proof.
  revert m. induction mds as [| md mds IH]; intros m; [done |].
  cbn [List.filter]. rewrite foldM_cons.
  destruct (file_index h !! Pathlib.name (audio_filename md)) as [idx |] eqn:Hhit.
  - assert (Hb : index_hit h md = true).
    { unfold index_hit. rewrite Hhit. by apply bool_decide_eq_true_2. }
    rewrite Hb, foldM_cons.
    destruct (apply_one set (file_index h) m md); cbn [mbind res_bind];
      [apply IH | done].
  - assert (Hb : index_hit h md = false).
    { unfold index_hit. rewrite Hhit. by apply bool_decide_eq_false_2; intros []. }
    rewrite Hb, (apply_one_miss set (file_index h) m md Hhit). apply IH.
Qed.

(** X14.  The bulk apply depends only on the metadata records whose bare
    filename is a key of the index: the others can be left out of the
    list without any change to the result, on every handler. *)
Theorem update_ignores_misses h mds :
  update_manifest_with_metadata h mds
  = update_manifest_with_metadata h (List.filter (index_hit h) mds).
Proof.
  unfold update_manifest_with_metadata.
  destruct (manifest_data h) as [[df | l | d] |]; [| | | done];
    by rewrite (apply_all_hits_only _ h mds).
Qed.

(** ** The pipeline *)

Lemma match_one_truthy w h acc md :
  Py.truthy (Some (audio_filename md)) = true →
  match_one w h acc md
  = match find_audio_file (re_compile w) h (audio_filename md) with
    | Ok (Some entry) =>
        if value_truthy entry then Ok (acc.1 ++ [md], acc.2) else Ok (acc.1, S acc.2)
    | Ok None => Ok (acc.1, S acc.2)
    | Raise e => Raise e
    end.
Proof.
  intros H. unfold match_one. rewrite H. cbn [negb].
  by destruct (find_audio_file _ _ _) as [[entry |] |].
Qed.

Lemma match_loop_spec w h results acc acc' :
  (∀ md, md ∈ results → Py.truthy (Some (audio_filename md)) = true) →
  foldM (match_one w h) results acc = Ok acc' →
  acc'.1 = acc.1 ++ List.filter (resolves (re_compile w) h) results ∧
  (length acc'.1 + acc'.2 = length acc.1 + acc.2 + length results)%nat.
Proof.
  revert acc. induction results as [| md results IH]; intros acc Htruthy.
  - intros [= <-]. simpl. rewrite app_nil_r. split; [done | lia].
  - rewrite foldM_cons, (match_one_truthy w h acc md) by (apply Htruthy; by left).
    cbn [List.filter]. unfold resolves at 1.
    assert (Hrest : ∀ md', md' ∈ results → Py.truthy (Some (audio_filename md')) = true).
    { intros md' Hmd'. apply Htruthy. by right. }
    destruct (find_audio_file (re_compile w) h (audio_filename md)) as [[entry |] | e];
      [| | done].
    + destruct (value_truthy entry); cbn [mbind res_bind].
      * intros [H1 Hlen]%(IH _ Hrest). cbn [fst snd] in *. split.
        -- rewrite H1, <- app_assoc. done.
        -- rewrite length_app in Hlen. cbn [length] in *. lia.
      * intros [H1 Hlen]%(IH _ Hrest). cbn [fst snd] in *. split; [done |].
        cbn [length]. lia.
    + cbn [mbind res_bind].
      intros [H1 Hlen]%(IH _ Hrest). cbn [fst snd] in *. split; [done |].
      cbn [length]. lia.
Qed.

Lemma match_loop_succeeds w h results acc :
  (∀ md, md ∈ results →
         ∃ r, find_audio_file (re_compile w) h (audio_filename md) = Ok r) →
  ∃ acc', foldM (match_one w h) results acc = Ok acc'.
Proof.
  revert acc. induction results as [| md results IH]; intros acc Hfind.
  - by exists acc.
  - rewrite foldM_cons.
    assert (Hrest : ∀ md', md' ∈ results →
              ∃ r, find_audio_file (re_compile w) h (audio_filename md') = Ok r).
    { intros md' Hmd'. apply Hfind. by right. }
    assert (Hone : ∃ acc1, match_one w h acc md = Ok acc1).
    { unfold match_one. destruct (negb _); [by eexists |].
      destruct (Hfind md) as [r ->]; [by left |]. cbn [mbind res_bind].
      destruct r as [entry |]; [destruct (value_truthy entry) |]; by eexists. }
    destruct Hone as [acc1 ->]. cbn [mbind res_bind]. by apply IH.
Qed.

(** X15.  The matching loop of [process_catalogue] sorts every extracted
    record into exactly one of two groups: the matched ones, in their
    order, are those for which [find_audio_file] returns a manifest entry
    that is true, and matched and unmatched counts add up to the number
    of records.  The loop runs to its end whenever no lookup raises. *)
Theorem matching_loop_counts w h results :
  (∀ md, md ∈ results → Py.truthy (Some (audio_filename md)) = true) →
  (∀ matched unmatched,
     foldM (match_one w h) results ([], 0%nat) = Ok (matched, unmatched) →
     matched = List.filter (resolves (re_compile w) h) results ∧
     (length matched + unmatched)%nat = length results) ∧
  ((∀ md, md ∈ results →
          ∃ r, find_audio_file (re_compile w) h (audio_filename md) = Ok r) →
   ∃ matched unmatched,
     foldM (match_one w h) results ([], 0%nat) = Ok (matched, unmatched)).
Proof.
  intros Htruthy. split.
  - intros matched unmatched Hloop.
    destruct (match_loop_spec w h results _ _ Htruthy Hloop) as [H1 H2].
    simpl in *. split; [done | lia].
  - intros Hfind. destruct (match_loop_succeeds w h results ([], 0%nat) Hfind)
      as [[matched unmatched] Hloop]. by exists matched, unmatched.
Qed.

Lemma matching_loop_counts_witness :
  ∃ matched unmatched,
    foldM (match_one MoreSamples.world Samples.handler_dict)
          [Samples.md_track01; Samples.md_track02;
           {| xml_path := "in/x.xml"; audio_filename := "nowhere.wav";
              isrc := None; track_title := None; artist := None |}] ([], 0%nat)
    = Ok (matched, unmatched) ∧
    matched = [Samples.md_track01; Samples.md_track02] ∧ unmatched = 1%nat.
Proof.
  destruct (matching_loop_counts MoreSamples.world Samples.handler_dict
              [Samples.md_track01; Samples.md_track02;
               {| xml_path := "in/x.xml"; audio_filename := "nowhere.wav";
                  isrc := None; track_title := None; artist := None |}])
    as [Hcount Hruns].
  - intros md Hmd. repeat (apply elem_of_cons in Hmd as [-> | Hmd]); try done.
    by apply elem_of_nil in Hmd.
  - destruct Hruns as (matched & unmatched & Hloop).
    + intros md Hmd. repeat (apply elem_of_cons in Hmd as [-> | Hmd]);
        [by eexists; vm_compute.. |]. by apply elem_of_nil in Hmd.
    + exists matched, unmatched. destruct (Hcount _ _ Hloop) as [-> Hlen].
      split_and!; [done | by vm_compute |].
      revert Hlen. vm_compute. lia.
Defined.

Lemma omap_all_None {A B} (f : A → option B) (l : list A) :
  (∀ x, x ∈ l → f x = None) → omap f l = [].
Proof.
  induction l as [| x l IH]; intros H; simpl; [done |].
  rewrite (H x) by by left. apply IH. intros y Hy. apply H. by right.
Qed.

(** X16.  A failure to load the manifest ends the run before any XML file
    is looked at, and a run in which no XML file yields a record writes
    nothing: in both cases the exit code is 1, although the arguments are
    valid. *)
Theorem run_without_records w args :
  isfile w (Args.manifest args) = true →
  isdir w (Args.xml_dir args) = true →
  mkdir_parents w (Args.output args) = Ok tt →
  (∀ e, load_manifest (readers w) (__init__ (Args.manifest args)) = Raise e →
        process_catalogue w (Args.manifest args) (Args.xml_dir args) (Args.output args)
                          (Args.max_workers args) (Args.limit args) = Raise e ∧
        main w args = Ok 1%Z) ∧
  (∀ h, load_manifest (readers w) (__init__ (Args.manifest args)) = Ok h →
        (∀ f, f ∈ find_xml_files (walk w (Args.xml_dir args)) (Args.limit args) →
              _process_single_xml (parse w) f = None) →
        (∀ out, process_catalogue w (Args.manifest args) (Args.xml_dir args)
                  (Args.output args) (Args.max_workers args) (Args.limit args)
                ≠ Ok (Some out)) ∧
        main w args = Ok 1%Z).
Proof.
  intros Hfile Hdir Hmk. unfold main. rewrite Hfile, Hdir, Hmk.
  cbn [negb mbind res_bind]. split.
  - intros e Hload. unfold process_catalogue. by rewrite Hload.
  - intros h Hload Hnone.
    assert (Hrun : process_catalogue w (Args.manifest args) (Args.xml_dir args)
                     (Args.output args) (Args.max_workers args) (Args.limit args)
                   = Ok None ∨
                   process_catalogue w (Args.manifest args) (Args.xml_dir args)
                     (Args.output args) (Args.max_workers args) (Args.limit args)
                   = Raise ValueError).
    { unfold process_catalogue. rewrite Hload. cbn [mbind res_bind].
      unfold process_xml_files. rewrite (omap_all_None _ _ Hnone).
      destruct (find_xml_files _ _); [by left |].
      destruct (Args.max_workers args) as [n |]; [destruct (n <=? 0)%Z |];
        [by right | by left | by left]. }
    destruct Hrun as [-> | ->]; by split.
Qed.

Lemma run_without_records_witness :
  main MoreSamples.world_broken
    {| Args.manifest := "in/manifest.csv"; Args.xml_dir := "in";
       Args.output := "out/manifest.csv"; Args.max_workers := None;
       Args.limit := None |} = Ok 1%Z.
Proof.
  destruct (run_without_records MoreSamples.world_broken
              {| Args.manifest := "in/manifest.csv"; Args.xml_dir := "in";
                 Args.output := "out/manifest.csv"; Args.max_workers := None;
                 Args.limit := None |}) as [_ Hnone]; [by vm_compute.. |].
  destruct (Hnone Samples.handler_frame) as [_ Hmain]; [by vm_compute | | done].
  intros f Hf. by vm_compute.
Defined.

(** X17.  A run that reads its manifest from a CSV or Excel file and is
    asked for a JSON output never returns an output file: the manifest is
    a table, which the JSON branch of [save_updated_manifest] cannot
    write, so the run ends in an exception (or, without XML records, in
    [None]) and the exit code is never 0. *)
Theorem table_manifest_json_output_fails w args :
  Py.lower (Pathlib.suffix (Args.manifest args)) ∈ [".csv"; ".xls"; ".xlsx"] →
  Py.lower (Pathlib.suffix (Args.output args)) = ".json" →
  (∀ out, process_catalogue w (Args.manifest args) (Args.xml_dir args)
            (Args.output args) (Args.max_workers args) (Args.limit args)
          ≠ Ok (Some out)) ∧
  main w args ≠ Ok 0%Z.
Proof.
  intros Hin Hout.
  assert (Hrun : ∀ out, process_catalogue w (Args.manifest args) (Args.xml_dir args)
            (Args.output args) (Args.max_workers args) (Args.limit args)
          ≠ Ok (Some out)).
  { intros out. unfold process_catalogue.
    destruct (load_manifest _ _) as [h |] eqn:Hload; [| done]. cbn [mbind res_bind].
    destruct (load_manifest_dispatch (readers w) (Args.manifest args))
      as (_ & _ & Hok).
    destruct (Hok h Hload) as (_ & m & Hdata & Hm).
    assert (∃ df, m = MFrame df) as [df ->].
    { destruct Hm as [(_ & df & -> & _) | [[Hjson _] | (_ & df & -> & _)]];
        [by exists df | | by exists df].
      rewrite Hjson in Hin. rewrite !elem_of_cons, elem_of_nil in Hin.
      by destruct Hin as [? | [? | [? | []]]]. }
    destruct (process_xml_files _ _ _ _) as [results |]; [| done].
    cbn [mbind res_bind]. destruct results as [| md results]; [done |].
    destruct (foldM _ _ _) as [matching |]; [| done]. cbn [mbind res_bind].
    rewrite (update_unfold h (MFrame df) _ Hdata).
    destruct (foldM _ _ _) as [updated |]; [| done]. cbn [mbind res_bind].
    destruct (save_table_as_json_raises (writers w) (with_data h (MFrame updated))
                updated (Args.output args) eq_refl) as [Hnever _].
    { unfold json_suffix. by rewrite Hout. }
    destruct (save_updated_manifest _ _ _) as [written |] eqn:Hsave; [| done].
    by destruct (Hnever written). }
  split; [done |]. unfold main.
  destruct (negb _); [done |]. destruct (negb _); [done |].
  destruct (mkdir_parents _ _); [| done]. cbn [mbind res_bind].
  destruct (process_catalogue _ _ _ _ _ _) as [[out |] |] eqn:Hpc; [| done | done].
  by destruct (Hrun out).
Qed.

Lemma table_manifest_json_output_fails_witness :
  process_catalogue MoreSamples.world "in/manifest.csv" "in" "out/manifest.json" None None
  = Raise TypeError ∧
  main MoreSamples.world
    {| Args.manifest := "in/manifest.csv"; Args.xml_dir := "in";
       Args.output := "out/manifest.json"; Args.max_workers := None;
       Args.limit := None |} ≠ Ok 0%Z.
Proof.
  split; [by vm_compute |].
  apply (table_manifest_json_output_fails MoreSamples.world
           {| Args.manifest := "in/manifest.csv"; Args.xml_dir := "in";
              Args.output := "out/manifest.json"; Args.max_workers := None;
              Args.limit := None |}).
  - apply (bool_decide_unpack _). by vm_compute.
  - by vm_compute.
Defined.

(** X18.  A run that succeeds loses nothing: when the manifest is written
    as a table, or to a JSON file, the written manifest has as many
    records as the loaded one, and every field other than [isrc],
    [track_title] and [artist] of every record is as it was loaded. *)
Theorem pipeline_preserves_records w manifest_path xml_dir output_path
        max_workers limit h m out :
  (∀ df, read_csv (readers w) manifest_path = Ok df → wf_frame df) →
  (∀ df, read_excel (readers w) manifest_path = Ok df → wf_frame df) →
  (∀ m, json_load (readers w) manifest_path = Ok m → wf_manifest m ∧ keys_unique m) →
  load_manifest (readers w) (__init__ manifest_path) = Ok h →
  manifest_data h = Some m →
  process_catalogue w manifest_path xml_dir output_path max_workers limit
  = Ok (Some out) →
  Py.lower (Pathlib.suffix output_path) = ".json" ∨ (∃ df, m = MFrame df) →
  ∃ m', written_manifest out = Some m' ∧
        record_count m' = record_count m ∧
        ∀ idx k, k ∉ new_columns → field m' idx k = field m idx k.
Proof.
  intros Hcsv Hxls Hjson Hload Hdata Hrun Hshape.
  destruct (load_consistent (readers w) manifest_path h Hcsv Hxls Hjson Hload)
    as (Hcons & _ & _).
  unfold process_catalogue in Hrun. rewrite Hload in Hrun. cbn [mbind res_bind] in Hrun.
  destruct (process_xml_files _ _ _ _) as [results |]; [| done].
  cbn [mbind res_bind] in Hrun. destruct results as [| md results]; [done |].
  destruct (foldM _ _ _) as [matching |]; [| done]. cbn [mbind res_bind] in Hrun.
  destruct (update_spec h m matching.1 Hdata Hcons) as (m' & Hupd & _ & Hcount & Hother & _).
  pose proof (update_unfold h m matching.1 Hdata) as Hunfold.
  rewrite Hupd in Hrun, Hunfold. cbn [mbind res_bind] in Hrun.
  destruct (save_updated_manifest _ _ _) as [written |] eqn:Hsave; [| done].
  injection Hrun as ->. exists m'. split; [| by split].
  pose proof (save_written _ _ _ _ Hsave) as Hw. cbn [with_data manifest_data] in Hw.
  destruct m as [df | l | d].
  - destruct (foldM _ _ _) as [df' |]; [| done]. injection Hunfold as ->.
    destruct out as [t | doc | t]; simpl in Hw.
    + by injection Hw as <-.
    + destruct Hw as [_ Hw]. by destruct (Hw df').
    + by injection Hw as <-.
  - destruct Hshape as [E | [df [=]]].
    destruct (foldM _ _ _) as [l' |]; [| done]. injection Hunfold as ->.
    unfold save_updated_manifest in Hsave. rewrite E in Hsave. simpl in Hsave.
    destruct (open_w _ _) as [[] |]; [| done]. simpl in Hsave.
    destruct (json_dump _ _ _) as [[] |]; [| done]. by injection Hsave as <-.
  - destruct Hshape as [E | [df [=]]].
    destruct (foldM _ _ _) as [d' |]; [| done]. injection Hunfold as ->.
    unfold save_updated_manifest in Hsave. rewrite E in Hsave. simpl in Hsave.
    destruct (open_w _ _) as [[] |]; [| done]. simpl in Hsave.
    destruct (json_dump _ _ _) as [[] |]; [| done]. by injection Hsave as <-.
Qed.

Lemma pipeline_preserves_records_witness :
  ∃ m', record_count m' = 2%nat ∧
        field m' (LInt 1) "path" = Some (VStr "/bucket/audio/x_track02.wav") ∧
        process_catalogue MoreSamples.world "in/list.json" "in" "out/list.json" None None
        = Ok (Some (WJson (Some m'))).
Proof.
  eassert (Hrun : process_catalogue MoreSamples.world "in/list.json" "in" "out/list.json"
                    None None = Ok (Some _)) by (by vm_compute).
  assert (Hcsv : ∀ df, read_csv (readers MoreSamples.world) "in/list.json" = Ok df →
                       wf_frame df).
  { intros df [= <-]. apply frame_scenario_wf. }
  assert (Hxls : ∀ df, read_excel (readers MoreSamples.world) "in/list.json" = Ok df →
                       wf_frame df) by (by intros df [=]).
  assert (Hjson : ∀ m, json_load (readers MoreSamples.world) "in/list.json" = Ok m →
                       wf_manifest m ∧ keys_unique m).
  { intros m H. vm_compute in H. by injection H as <-. }
  assert (Hload : load_manifest (readers MoreSamples.world) (__init__ "in/list.json")
                  = Ok Samples.handler_list) by (by vm_compute).
  destruct (pipeline_preserves_records MoreSamples.world "in/list.json" "in"
              "out/list.json" None None Samples.handler_list
              (MList Samples.list_scenario) _ Hcsv Hxls Hjson Hload eq_refl Hrun
              (or_introl eq_refl))
    as (m' & Hw & Hcount & Hother).
  simpl in Hw. exists m'. split_and!; [by rewrite Hcount | | by rewrite <- Hw].
  rewrite Hother; [by vm_compute |].
  intros H. apply new_columns_cases in H. by destruct H as [? | [? | ?]].
Defined.

(** ** More on the sniffer and the flexible search *)

Lemma has_column_elem c df : c ∈ columns df → has_column (name c) df = true.
Proof.
  intros Hc. unfold has_column, column_names. apply existsb_exists.
  exists (name c). split; [| apply String.eqb_refl].
  apply list_elem_of_In, list_elem_of_fmap. by exists c.
Qed.

(** X19.  What the sniffer returns is a field of the structure it was
    given: a column of the table, a key of the record.  It returns
    nothing exactly when no priority name is present and no field holds a
    slash-bearing string (for a table: as the first present value of a
    column of dtype [object]); an empty record yields nothing. *)
Theorem sniffer_returns_a_field :
  (∀ df c, _find_path_column (Some (MFrame df)) = Some c → has_column c df = true) ∧
  (∀ (sample : list (string * value)) k,
     _find_path_key_in_dict sample = Some k → dict_has k sample = true) ∧
  (∀ df, _find_path_column (Some (MFrame df)) = None ↔
         (∀ n, n ∈ priority_names → has_column n df = false) ∧
         (∀ col, col ∈ columns df →
                 is_object col && slash_bearing (first_valid col) = false)) ∧
  (∀ sample : list (string * value),
     _find_path_key_in_dict sample = None ↔
     (∀ n, n ∈ priority_names → dict_has n sample = false) ∧
     (∀ kv, kv ∈ sample → slash_bearing kv.2 = false)).
Proof.
  split_and!.
  - intros df c. unfold _find_path_column.
    destruct (List.find _ priority_names) as [n |] eqn:Hn.
    + intros [= <-]. by apply find_some in Hn as [_ Hn].
    + destruct (List.find _ (columns df)) as [col |] eqn:Hcol; [| done].
      intros [= <-]. apply find_some in Hcol as [Hin _].
      by apply has_column_elem, list_elem_of_In.
  - intros sample k. unfold _find_path_key_in_dict.
    destruct sample as [| kv0 sample]; [done |]. set (d := kv0 :: sample).
    destruct (List.find _ priority_names) as [n |] eqn:Hn.
    + intros [= <-]. by apply find_some in Hn as [_ Hn].
    + destruct (List.find _ d) as [[k' v'] |] eqn:Hkv; [| done].
      intros [= <-]. apply find_some in Hkv as [Hin _].
      apply dict_has_true. by apply (dict_get_elem k' v'), list_elem_of_In.
  - intros df. unfold _find_path_column. split.
    + destruct (List.find _ priority_names) as [n |] eqn:Hn; [done |].
      destruct (List.find _ (columns df)) as [col |] eqn:Hcol; [done |]. intros _.
      split.
      * intros n Hin. by apply (find_none _ _ Hn), list_elem_of_In.
      * intros col Hin. by apply (find_none _ _ Hcol), list_elem_of_In.
    + intros [Hnames Hcols].
      rewrite (find_all_false (λ c, has_column c df) priority_names Hnames).
      by rewrite (find_all_false _ (columns df) Hcols).
  - intros sample. unfold _find_path_key_in_dict.
    destruct sample as [| kv0 sample].
    { split; [| done]. intros _. split; [done |]. by intros kv ?%elem_of_nil. }
    set (d := kv0 :: sample). split.
    + destruct (List.find _ priority_names) as [n |] eqn:Hn; [done |].
      destruct (List.find _ d) as [kv |] eqn:Hkv; [done |]. intros _. split.
      * intros n Hin. by apply (find_none _ _ Hn), list_elem_of_In.
      * intros kv Hin. by apply (find_none _ _ Hkv), list_elem_of_In.
    + intros [Hnames Hvals].
      rewrite (find_all_false (λ c, dict_has c d) priority_names Hnames).
      by rewrite (find_all_false (λ kv, slash_bearing kv.2) d Hvals).
Qed.

Lemma sniffer_returns_a_field_witness :
  has_column "path" Samples.frame_notes_url_path = true ∧
  _find_path_key_in_dict [("id", VInt 1); ("where", VStr "C:\audio\x.wav")] = Some "where" ∧
  dict_has "where" [("id", VInt 1); ("where", VStr "C:\audio\x.wav")] = true.
Proof.
  destruct sniffer_returns_a_field as (Hcol & Hkey & _).
  split_and!.
  - apply (Hcol Samples.frame_notes_url_path "path"). by vm_compute.
  - by vm_compute.
  - apply (Hkey [("id", VInt 1); ("where", VStr "C:\audio\x.wav")] "where").
    by vm_compute.
Defined.

Lemma prefix_match_here pat s : String.prefix pat s = true → Re.match_here pat s = true.
Proof.
  revert s. induction pat as [| a pat IH]; intros s; [done |].
  destruct s as [| b s]; simpl; [done |].
  destruct (ascii_dec a b) as [-> | _]; [| done]. intros H.
  destruct (Ascii.eqb_spec b ".") as [-> | Hdot].
  - simpl. by apply IH.
  - rewrite Ascii.eqb_refl. simpl. by apply IH.
Qed.

(** The dot stands for one character, not for one byte: it takes the two
    bytes of [é], and it takes no newline. *)
Lemma dot_takes_a_character :
  String.length "aéb" = 4%nat ∧
  Re.search "a.b" "aéb" = true ∧
  Re.search "a..b" "aéb" = false ∧
  Re.search "a.b" (String "a" (String Re.newline "b")) = false.
Proof. by vm_compute. Qed.

(** Whatever holds the pattern as a substring matches it as a regular
    expression of the fragment. *)
Lemma contains_search pat s : Py.contains pat s = true → Re.search pat s = true.
Proof.
  induction s as [| b s IH].
  - cbn [Py.contains Re.search]. rewrite !orb_false_r. apply prefix_match_here.
  - cbn [Py.contains Re.search]. intros [H | H]%orb_true_iff.
    + by rewrite (prefix_match_here _ _ H).
    + rewrite (IH H). apply orb_true_r.
Qed.

Lemma first_true_Some mask p :
  mask !! p = Some true →
  ∃ q, first_true mask = Some q ∧ mask !! q = Some true ∧
       ∀ j, (j < q)%nat → mask !! j = Some false.
Proof.
  revert p. induction mask as [| b mask IH]; intros p; [done |].
  destruct b; simpl.
  - intros _. exists 0%nat. split_and!; [done | done | lia].
  - destruct p as [| p]; [done |]. simpl. intros (q & -> & Hq & Hmin)%IH.
    exists (S q). split_and!; [done | done |].
    intros [| j] Hj; [done |]. apply Hmin. lia.
Qed.

Lemma first_true_None mask :
  (∀ p, mask !! p ≠ Some true) → first_true mask = None.
Proof.
  induction mask as [| b mask IH]; intros H; [done |]. simpl.
  destruct b; [by destruct (H 0%nat) |].
  rewrite IH; [done |]. intros p. apply (H (S p)).
Qed.

(** X20.  On a table the flexible search treats the filename as a regular
    expression.  For a filename made of literal characters and dots it
    still finds a row whenever the path of some row holds the filename as
    a substring; the row it returns is the first one whose path matches
    the expression; and it returns nothing when no path matches. *)
Theorem table_flexible_search re h df path_col col filename :
  manifest_data h = Some (MFrame df) →
  _find_path_column (Some (MFrame df)) = Some path_col →
  Py.truthy (Some path_col) = true →
  get_column path_col df = Some col → is_object col = true →
  Re.simple filename = true →
  (∀ p s, values col !! p = Some (VStr s) → Py.contains filename s = true →
          ∃ q s', flexible_search re h filename = Ok (Some (VDict (row_dict df q))) ∧
                  values col !! q = Some (VStr s') ∧ Re.search filename s' = true ∧
                  ∀ j t, (j < q)%nat → values col !! j = Some (VStr t) →
                         Re.search filename t = false) ∧
  ((∀ p s, values col !! p = Some (VStr s) → Re.search filename s = false) →
   flexible_search re h filename = Ok None).
Proof.
  intros Hdata Hkey Htruthy Hcol Hobj Hsimple.
  set (mask := (λ v, match v with VStr s => Re.search filename s | _ => false end)
                 <$> values col).
  assert (Hflex : flexible_search re h filename
                  = match first_true mask with
                    | Some p => Ok (Some (VDict (row_dict df p)))
                    | None => Ok None
                    end).
  { unfold flexible_search. rewrite Hdata, Hkey, Htruthy, Hcol.
    unfold str_contains, Re.compile. by rewrite Hobj, Hsimple. }
  rewrite Hflex. split.
  - intros p s Hp Hs.
    assert (Hmask : mask !! p = Some true).
    { unfold mask. rewrite list_lookup_fmap, Hp. simpl. by rewrite (contains_search _ _ Hs). }
    destruct (first_true_Some mask p Hmask) as (q & -> & Hq & Hmin).
    unfold mask in Hq. rewrite list_lookup_fmap in Hq.
    destruct (values col !! q) as [v |] eqn:Hv; [| done]. simpl in Hq.
    destruct v; try done. injection Hq as Hq. eexists _, _. split_and!; [done.. |].
    intros j t Hj Ht. specialize (Hmin j Hj). unfold mask in Hmin.
    rewrite list_lookup_fmap, Ht in Hmin. simpl in Hmin. by injection Hmin.
  - intros Hnone. rewrite first_true_None; [done |].
    intros p Hp. unfold mask in Hp. rewrite list_lookup_fmap in Hp.
    destruct (values col !! p) as [v |] eqn:Hv; [| done]. simpl in Hp.
    destruct v; try done. injection Hp as Hp. by rewrite (Hnone p _ Hv) in Hp.
Qed.

Lemma table_flexible_search_witness :
  ∃ q s', flexible_search Samples.no_regex Samples.handler_frame "track02.wav"
          = Ok (Some (VDict (row_dict Samples.frame_scenario q))) ∧
          Re.search "track02.wav" s' = true.
Proof.
  destruct (table_flexible_search Samples.no_regex Samples.handler_frame
              Samples.frame_scenario "path"
              {| name := "path"; is_object := true;
                 values := [VStr "/bucket/audio/track01.wav";
                            VStr "/bucket/audio/x_track02.wav"] |}
              "track02.wav") as [Hfound _]; [by vm_compute.. |].
  destruct (Hfound 1%nat "/bucket/audio/x_track02.wav") as (q & s' & Hq & _ & Hs' & _);
    [by vm_compute.. |].
  by exists q, s'.
Defined.
